(** * Task-Master: requirements extraction and the TASK.mdc state file

    A shallow embedding of [src/projectAnalyzer.js], [src/taskManager.js],
    the orchestration functions of [src/taskMaster.js] and the action of the
    init command of [bin/task-master.js], with the theorems that settle the
    properties stated about them.

    JavaScript strings are modelled as lists of code units restricted to the
    Latin-1 range (one [ascii] per code unit); texts with code units above
    U+00FF, among them the line terminators U+2028 and U+2029 and the further
    white space of ECMAScript, are outside the model.  Regular expressions are
    transcribed literally as syntax trees and run by a backtracking matcher
    that follows the ECMAScript priority order (greedy and lazy quantifiers,
    ordered alternation, lookahead, end-of-input assertion). *)

From Stdlib Require Import List Ascii String NArith Arith Lia Bool DecimalString.
From stdpp Require Import gmap strings list.
Import ListNotations.

Set Default Proof Using "Type".

(** ** JavaScript strings *)

Abbreviation Str := (list ascii).

Definition str (s : string) : Str := list_ascii_of_string s.
Arguments str s%_string.

Definition LF : ascii := "010"%char.
Definition CR : ascii := "013"%char.

Module JS.

(** Code-unit tests.  Within Latin-1 the ECMAScript WhiteSpace and
    LineTerminator productions are TAB, LF, VT, FF, CR, SP and NBSP. *)
Definition is_space (c : ascii) : bool :=
  match N_of_ascii c with
  | 9 | 10 | 11 | 12 | 13 | 32 | 160 => true
  | _ => false
  end%N.

Definition is_line_terminator (c : ascii) : bool :=
  match N_of_ascii c with
  | 10 | 13 => true
  | _ => false
  end%N.

Definition is_digit (c : ascii) : bool :=
  let n := N_of_ascii c in ((48 <=? n) && (n <=? 57))%N.

Definition digit_value (c : ascii) : nat := N.to_nat (N_of_ascii c) - 48.

(** [String.prototype.toLowerCase] on one Latin-1 code unit: A-Z and the
    accented capitals U+00C0..U+00DE (without the multiplication sign). *)
Definition lower_char (c : ascii) : ascii :=
  let n := N_of_ascii c in
  if (((65 <=? n) && (n <=? 90)) ||
      ((192 <=? n) && (n <=? 222) && negb (n =? 215)))%N
  then ascii_of_N (n + 32) else c.

Definition toLowerCase (s : Str) : Str := map lower_char s.

(** The Canonicalize operation of a non-unicode [/i] pattern: simple upper
    casing; code units whose upper case leaves Latin-1 or is not a single
    code unit (micro sign, y-diaeresis, sharp s) stay distinct from all
    others, which the identity models. *)
Definition canonicalize (c : ascii) : ascii :=
  let n := N_of_ascii c in
  if (((97 <=? n) && (n <=? 122)) ||
      ((224 <=? n) && (n <=? 254) && negb (n =? 247)))%N
  then ascii_of_N (n - 32) else c.

Fixpoint startsWith (s p : Str) {struct p} : bool :=
  match p, s with
  | [], _ => true
  | a :: p', b :: s' => Ascii.eqb a b && startsWith s' p'
  | _ :: _, [] => false
  end.

(** [hay.includes(needle)] *)
Fixpoint includes (hay needle : Str) : bool :=
  startsWith hay needle ||
  match hay with
  | [] => false
  | _ :: hay' => includes hay' needle
  end.

Fixpoint trimStart (s : Str) : Str :=
  match s with
  | c :: s' => if is_space c then trimStart s' else s
  | [] => []
  end.

Definition trimEnd (s : Str) : Str := rev (trimStart (rev s)).

Definition trim (s : Str) : Str := trimEnd (trimStart s).

(** Truthiness of a string value: only the empty string is falsy. *)
Definition truthy (s : Str) : bool :=
  match s with [] => false | _ :: _ => true end.

(** [arr.join(sep)] on an array of strings. *)
Fixpoint join (sep : Str) (parts : list Str) : Str :=
  match parts with
  | [] => []
  | [p] => p
  | p :: rest => p ++ sep ++ join sep rest
  end.

(** *** Regular expressions

    The fragment of ECMAScript patterns the program uses.  Quantifiers occur
    only over single-character atoms ([\s*], [.*?], [.*], [\d+], [#+]), so
    [Star] takes a character test; [r?] is [Alt r Eps] and [p+] is
    [Seq (Chr p) (Star true p)].  No pattern of the program has a nested or
    quantified group, hence a group's capture is appended when the group
    closes and the list of captures is in group-number order. *)
Inductive regex : Type :=
| Eps
| Chr (p : ascii -> bool)
| Seq (r1 r2 : regex)
| Alt (r1 r2 : regex)
| Star (greedy : bool) (p : ascii -> bool)
| Group (r : regex)
| Lookahead (r : regex)
| Eoi.

(** A matcher state: the input still to be read and the captures so far. *)
Definition MatchState : Type := Str * list Str.
Definition Cont : Type := Str -> list Str -> option MatchState.

Fixpoint star_greedy (p : ascii -> bool) (s : Str) (caps : list Str) (k : Cont)
  : option MatchState :=
  match s with
  | c :: s' =>
      if p c then
        match star_greedy p s' caps k with
        | Some res => Some res
        | None => k s caps
        end
      else k s caps
  | [] => k s caps
  end.

Fixpoint star_lazy (p : ascii -> bool) (s : Str) (caps : list Str) (k : Cont)
  : option MatchState :=
  match k s caps with
  | Some res => Some res
  | None =>
      match s with
      | c :: s' => if p c then star_lazy p s' caps k else None
      | [] => None
      end
  end.

(** Backtracking matcher in continuation-passing style: [run r s caps k]
    matches [r] at the front of [s] and hands the rest to [k]; the first
    success in priority order is the result. *)
Fixpoint run (r : regex) (s : Str) (caps : list Str) (k : Cont) {struct r}
  : option MatchState :=
  match r with
  | Eps => k s caps
  | Chr p =>
      match s with
      | c :: s' => if p c then k s' caps else None
      | [] => None
      end
  | Seq r1 r2 => run r1 s caps (fun s' caps' => run r2 s' caps' k)
  | Alt r1 r2 =>
      match run r1 s caps k with
      | Some res => Some res
      | None => run r2 s caps k
      end
  | Star true p => star_greedy p s caps k
  | Star false p => star_lazy p s caps k
  | Group r1 =>
      run r1 s caps
        (fun s' caps' => k s' (caps' ++ [take (length s - length s') s]))
  | Lookahead r1 =>
      match run r1 s caps (fun s' caps' => Some (s', caps')) with
      | Some (_, caps') => k s caps'
      | None => None
      end
  | Eoi =>
      match s with
      | [] => k s caps
      | _ :: _ => None
      end
  end.

Definition match_here (r : regex) (s : Str) : option MatchState :=
  run r s [] (fun s' caps => Some (s', caps)).

(** The result of a successful match: the text before it, the matched text,
    the text after it and the captures [$1], [$2], ... *)
Record Match : Type := mkMatch {
  m_before : Str;
  m_text : Str;
  m_after : Str;
  m_groups : list Str
}.

(** [re.exec(s)] from index 0 for a pattern without sticky flag: the leftmost
    start index (the end of the string included) at which the pattern
    matches. *)
Fixpoint exec (r : regex) (s : Str) : option Match :=
  match match_here r s with
  | Some (rest, caps) =>
      Some (mkMatch [] (take (length s - length rest) s) rest caps)
  | None =>
      match s with
      | [] => None
      | c :: s' =>
          match exec r s' with
          | Some m => Some (mkMatch (c :: m_before m) (m_text m) (m_after m) (m_groups m))
          | None => None
          end
      end
  end.

(** Capture [i] of a match array ([m[1]] is the first group). *)
Definition group (i : nat) (groups : list Str) : Str := nth (i - 1) groups [].

(** [s.matchAll(re)] and the [while ((m = re.exec(s)) !== null)] loop of a
    global pattern: successive leftmost matches, each search starting where
    the previous match ended (one code unit further after an empty match).
    [skip] counts the code units of the previous match still to be passed;
    every result is the pair of matched text and captures. *)
Fixpoint matchAll_from (r : regex) (skip : nat) (s : Str) : list (Str * list Str) :=
  match skip with
  | S n =>
      match s with
      | [] => []
      | _ :: s' => matchAll_from r n s'
      end
  | O =>
      match match_here r s with
      | Some (rest, caps) =>
          (take (length s - length rest) s, caps) ::
          match s with
          | [] => []
          | _ :: s' => matchAll_from r (pred (length s - length rest)) s'
          end
      | None =>
          match s with
          | [] => []
          | _ :: s' => matchAll_from r 0 s'
          end
      end
  end.

Definition matchAll (r : regex) (s : Str) : list (Str * list Str) :=
  matchAll_from r 0 s.

(** The GetSubstitution operation on a replacement string: [$$], [$&],
    [$`], [$'], [$n] and [$nn] are expanded, every other code unit is
    copied.  The patterns here have no named groups, so [$<] is literal. *)
Definition capture_ref (groups : list Str) (i : nat) : option Str :=
  if (1 <=? i) && (i <=? length groups) then Some (group i groups) else None.

Fixpoint getSubstitution (m : Match) (template : Str) : Str :=
  match template with
  | [] => []
  | c :: rest =>
      if Ascii.eqb c "$" then
        match rest with
        | [] => [c]
        | d :: rest1 =>
            if Ascii.eqb d "$" then "$"%char :: getSubstitution m rest1
            else if Ascii.eqb d "&" then m_text m ++ getSubstitution m rest1
            else if Ascii.eqb d "`" then m_before m ++ getSubstitution m rest1
            else if Ascii.eqb d "'" then m_after m ++ getSubstitution m rest1
            else if is_digit d then
              let one_digit :=
                match capture_ref (m_groups m) (digit_value d) with
                | Some g => g ++ getSubstitution m rest1
                | None => c :: d :: getSubstitution m rest1
                end in
              match rest1 with
              | e :: rest2 =>
                  if is_digit e then
                    let index := 10 * digit_value d + digit_value e in
                    if length (m_groups m) <? index then one_digit
                    else
                      match capture_ref (m_groups m) index with
                      | Some g => g ++ getSubstitution m rest2
                      | None => c :: d :: e :: getSubstitution m rest2
                      end
                  else one_digit
              | [] => one_digit
              end
            else c :: getSubstitution m rest
        end
      else c :: getSubstitution m rest
  end.

(** [s.replace(re, replacement)] for a pattern without the global flag:
    only the first match is replaced. *)
Definition replace (r : regex) (replacement : Str) (s : Str) : Str :=
  match exec r s with
  | Some m => m_before m ++ getSubstitution m replacement ++ m_after m
  | None => s
  end.

(** [s.replace(re, replacement)] for a pattern with the global flag: every
    match of the [matchAll] sequence is replaced.  [before] is the text in
    front of the current position, kept in reverse for [$`]. *)
Fixpoint replaceAll_from (r : regex) (replacement : Str) (before : Str) (skip : nat)
    (s : Str) : Str :=
  match skip with
  | S n =>
      match s with
      | [] => []
      | c :: s' => replaceAll_from r replacement (c :: before) n s'
      end
  | O =>
      match match_here r s with
      | Some (rest, caps) =>
          let len := length s - length rest in
          getSubstitution (mkMatch (rev before) (take len s) rest caps) replacement ++
          match s with
          | [] => []
          | c :: s' =>
              (if len =? 0 then [c] else []) ++
              replaceAll_from r replacement (c :: before) (pred len) s'
          end
      | None =>
          match s with
          | [] => []
          | c :: s' => c :: replaceAll_from r replacement (c :: before) 0 s'
          end
      end
  end.

Definition replaceAll (r : regex) (replacement : Str) (s : Str) : Str :=
  replaceAll_from r replacement [] 0 s.

(** Pattern builders. *)
Definition chr (c : ascii) : regex := Chr (Ascii.eqb c).

Definition chr_ci (c : ascii) : regex :=
  Chr (fun x => Ascii.eqb (canonicalize x) (canonicalize c)).

Definition one_of (cs : Str) (c : ascii) : bool := existsb (Ascii.eqb c) cs.

(** [.] without and with the dotAll flag. *)
Definition dot (c : ascii) : bool := negb (is_line_terminator c).
Definition dot_all (c : ascii) : bool := true.

Definition cat (rs : list regex) : regex := fold_right Seq Eps rs.
Definition lit (s : Str) : regex := cat (map chr s).
Definition lit_ci (s : Str) : regex := cat (map chr_ci s).
Definition opt (r : regex) : regex := Alt r Eps.
Definition plus (p : ascii -> bool) : regex := Seq (Chr p) (Star true p).
Definition alts (rs : list regex) (last : regex) : regex := fold_right Alt last rs.

End JS.

(** ** src/projectAnalyzer.js *)

Definition HIGH : Str := str "HIGH".
Definition MEDIUM : Str := str "MEDIUM".
Definition LOW : Str := str "LOW".

(** A task object: [subtasks] is the optional array ([[]] when absent),
    [description] the empty string when absent; [priority] is the string the
    program stores. *)
Record Task : Type := mkTask {
  title : Str;
  priority : Str;
  description : Str;
  subtasks : list Str
}.

Record ProjectInfo : Type := mkProjectInfo {
  project_name : Str;
  project_description : Str;
  environment_setup : Str;
  tasks : list Task
}.

(** Equality test [a === b] on strings. *)
Definition str_eqb (a b : Str) : bool := bool_decide (a = b).

Module ProjectAnalyzer.
Import JS.

(** [/(?:\n\n|\n#|\n\*\*|$)/], the end of a captured block. *)
Definition blockEnd : regex :=
  alts [lit [LF; LF]; lit (LF :: str "#"); lit (LF :: str "**")] Eoi.

(** [/(?:\n|$)/], the end of a captured line. *)
Definition lineEnd : regex := Alt (chr LF) Eoi.

(** [/Project Name:?\s*(.*?)(?:\n|$)/i] *)
Definition projectNameRe : regex :=
  cat [lit_ci (str "Project Name"); opt (chr_ci ":"); Star true is_space;
       Group (Star false dot); lineEnd].

(** [/Project Description:?\s*(.*?)(?:\n\n|\n#|\n\*\*|$)/is] *)
Definition projectDescRe : regex :=
  cat [lit_ci (str "Project Description"); opt (chr_ci ":"); Star true is_space;
       Group (Star false dot_all); blockEnd].

(** [/Environment Setup:?\s*(.*?)(?:\n\n|\n#|\n\*\*|$)/is] *)
Definition envSetupRe : regex :=
  cat [lit_ci (str "Environment Setup"); opt (chr_ci ":"); Star true is_space;
       Group (Star false dot_all); blockEnd].

(** [/Tasks:?\s*(.*?)(?:\n\n|\n#|\n\*\*|$)/is] *)
Definition taskSectionRe : regex :=
  cat [lit_ci (str "Tasks"); opt (chr_ci ":"); Star true is_space;
       Group (Star false dot_all); blockEnd].

(** [/(?:[-*]|\d+\.)\s*(.*?)(?:\n|$)/g] *)
Definition bulletRe : regex :=
  cat [Alt (Chr (one_of (str "-*"))) (Seq (plus is_digit) (chr "."));
       Star true is_space; Group (Star false dot); lineEnd].

(** [/#+\s*(.*?)(?:\n|$)/g] *)
Definition headingRe : regex :=
  cat [plus (Ascii.eqb "#"); Star true is_space; Group (Star false dot); lineEnd].

Definition determineTaskPriority (text : Str) : Str :=
  let textLower := toLowerCase text in
  if includes textLower (str "urgent") ||
     includes textLower (str "critical") ||
     includes textLower (str "important") ||
     includes textLower (str "high priority")
  then HIGH
  else if includes textLower (str "low priority") ||
          includes textLower (str "optional") ||
          includes textLower (str "if time permits")
  then LOW
  else if includes textLower (str "database") ||
          includes textLower (str "authentication") ||
          includes textLower (str "core") ||
          includes textLower (str "foundation") ||
          includes textLower (str "architecture") ||
          includes textLower (str "security")
  then HIGH
  else if includes textLower (str "ui") ||
          includes textLower (str "ux") ||
          includes textLower (str "design") ||
          includes textLower (str "style") ||
          includes textLower (str "appearance") ||
          includes textLower (str "documentation")
  then MEDIUM
  else MEDIUM.

Definition inferProjectType (requirements : Str) : Str :=
  let requirementsLower := toLowerCase requirements in
  if includes requirementsLower (str "web") ||
     includes requirementsLower (str "website") ||
     includes requirementsLower (str "frontend") ||
     includes requirementsLower (str "backend") ||
     includes requirementsLower (str "fullstack") ||
     includes requirementsLower (str "html") ||
     includes requirementsLower (str "css") ||
     includes requirementsLower (str "javascript")
  then str "web"
  else if includes requirementsLower (str "mobile") ||
          includes requirementsLower (str "app") ||
          includes requirementsLower (str "ios") ||
          includes requirementsLower (str "android") ||
          includes requirementsLower (str "flutter") ||
          includes requirementsLower (str "react native")
  then str "mobile"
  else if includes requirementsLower (str "api") ||
          includes requirementsLower (str "rest") ||
          includes requirementsLower (str "graphql") ||
          includes requirementsLower (str "microservice")
  then str "api"
  else if includes requirementsLower (str "data") ||
          includes requirementsLower (str "analysis") ||
          includes requirementsLower (str "analytics") ||
          includes requirementsLower (str "machine learning") ||
          includes requirementsLower (str "ml") ||
          includes requirementsLower (str "ai")
  then str "data"
  else str "generic".

Definition entry (t p d : string) : Task := mkTask (str t) (str p) (str d) [].

Definition getDefaultTasks (projectType : Str) : list Task :=
  if str_eqb projectType (str "web") then
    [ entry "Setup project structure" "HIGH" "Initialize the web project structure and configuration files";
      entry "Implement database models" "HIGH" "Design and implement database schema and models";
      entry "Create authentication system" "HIGH" "Implement user authentication and authorization";
      entry "Develop API endpoints" "MEDIUM" "Create backend API endpoints for data access";
      entry "Build frontend UI" "MEDIUM" "Develop the user interface components";
      entry "Implement business logic" "MEDIUM" "Develop core business logic and functionality";
      entry "Write tests" "MEDIUM" "Create unit and integration tests";
      entry "Setup deployment pipeline" "LOW" "Configure CI/CD and deployment process" ]
  else if str_eqb projectType (str "mobile") then
    [ entry "Setup project structure" "HIGH" "Initialize the mobile app project structure";
      entry "Design app architecture" "HIGH" "Define the app architecture and navigation flow";
      entry "Implement authentication" "HIGH" "Create user authentication and session management";
      entry "Develop core screens" "MEDIUM" "Build the main screens and functionality";
      entry "Implement API integration" "MEDIUM" "Connect to backend services and APIs";
      entry "Add offline support" "LOW" "Implement data caching and offline functionality";
      entry "Write tests" "MEDIUM" "Create unit and UI tests";
      entry "Prepare for app store submission" "LOW" "Configure app for distribution" ]
  else if str_eqb projectType (str "api") then
    [ entry "Define API specifications" "HIGH" "Create OpenAPI/Swagger specifications";
      entry "Setup project structure" "HIGH" "Initialize the API project structure";
      entry "Implement database models" "HIGH" "Design and implement data models";
      entry "Create authentication middleware" "HIGH" "Implement API authentication and authorization";
      entry "Develop API endpoints" "MEDIUM" "Implement the API endpoints and controllers";
      entry "Add validation and error handling" "MEDIUM" "Implement input validation and error responses";
      entry "Write tests" "MEDIUM" "Create unit and integration tests";
      entry "Setup monitoring and logging" "LOW" "Configure API monitoring and logging" ]
  else if str_eqb projectType (str "data") then
    [ entry "Setup data processing environment" "HIGH" "Configure data processing tools and libraries";
      entry "Implement data collection" "HIGH" "Create data collection and ingestion processes";
      entry "Develop data cleaning pipeline" "HIGH" "Implement data cleaning and preprocessing";
      entry "Create data models" "MEDIUM" "Develop analytical or machine learning models";
      entry "Implement data visualization" "MEDIUM" "Create visualizations and dashboards";
      entry "Setup data storage" "MEDIUM" "Configure databases or data warehouses";
      entry "Write tests" "MEDIUM" "Create unit tests for data processing";
      entry "Document data dictionary" "LOW" "Create documentation for data schemas and models" ]
  else
    [ entry "Setup project structure" "HIGH" "Initialize the project structure and configuration";
      entry "Define core requirements" "HIGH" "Clarify and document detailed requirements";
      entry "Implement core functionality" "HIGH" "Develop the main functionality of the project";
      entry "Create documentation" "MEDIUM" "Write user and developer documentation";
      entry "Implement testing" "MEDIUM" "Create tests for the project";
      entry "Setup deployment process" "LOW" "Configure deployment and distribution" ].

(** First loop of [generateTasks]: the tasks pushed from the bullets of the
    explicit task section (none when the section pattern does not match). *)
Definition explicitTask (m : Str * list Str) : list Task :=
  let taskTitle := trim (group 1 (snd m)) in
  if truthy taskTitle
  then [mkTask taskTitle (determineTaskPriority taskTitle) [] []]
  else [].

Definition explicitTasks (requirements : Str) : list Task :=
  match exec taskSectionRe requirements with
  | Some taskSectionMatch =>
      let taskSection := group 1 (m_groups taskSectionMatch) in
      flat_map explicitTask (matchAll bulletRe taskSection)
  | None => []
  end.

(** Second loop: one task per heading outside the four reserved names. *)
Definition reservedSections : list Str :=
  [str "project name"; str "project description"; str "environment setup"; str "tasks"].

Definition inferredTask (m : Str * list Str) : list Task :=
  let sectionTitle := trim (group 1 (snd m)) in
  if negb (existsb (str_eqb (toLowerCase sectionTitle)) reservedSections)
  then [mkTask (str "Implement " ++ sectionTitle)
               (determineTaskPriority sectionTitle)
               (str "Based on the " ++ sectionTitle ++ str " section in requirements")
               []]
  else [].

Definition inferredTasks (requirements : Str) : list Task :=
  flat_map inferredTask (matchAll headingRe requirements).

Definition generateTasks (requirements : Str) : list Task :=
  let tasks := explicitTasks requirements in
  let tasks := if length tasks =? 0 then inferredTasks requirements else tasks in
  if length tasks =? 0
  then getDefaultTasks (inferProjectType requirements)
  else tasks.

Definition field (re : regex) (default : Str) (requirements : Str) : Str :=
  match exec re requirements with
  | Some m => trim (group 1 (m_groups m))
  | None => default
  end.

Definition analyzeRequirements (requirements : Str) : ProjectInfo :=
  let projectName := field projectNameRe (str "New Project") requirements in
  let projectDescription := field projectDescRe [] requirements in
  let environmentSetup := field envSetupRe [] requirements in
  let tasks := generateTasks requirements in
  mkProjectInfo projectName projectDescription environmentSetup tasks.

End ProjectAnalyzer.

Definition lines (ls : list string) : Str := JS.join [LF] (map str ls).

(** ** The file system and the clock

    A file system is a finite map from paths to file contents.  Looking a
    path up and reading a file that is there do not fail.  A write can fail:
    [fs.writeFile] rejects when the directory is missing, the path is a
    directory or the process may not write there.  Whether a write succeeds
    is decided by the environment, so it is a parameter of every function
    that writes, as each [new Date()] reading is a parameter holding the
    formatted timestamp [toISOString().replace('T', ' ').substring(0, 19)]. *)
Abbreviation FS := (gmap Str Str).

(** The outcome of a call that can throw or reject: the [message] of the
    error, or the value. *)
Inductive Result (A : Type) : Type :=
| Rejected (message : Str)
| Resolved (value : A).

Arguments Rejected {A} message.
Arguments Resolved {A} value.

Definition pathExists (fs : FS) (path : Str) : bool :=
  match fs !! path with Some _ => true | None => false end.

Definition readFile (fs : FS) (path : Str) : option Str := fs !! path.

(** The file system in which [path] holds [content]. *)
Definition withFile (fs : FS) (path : Str) (content : Str) : FS :=
  <[path := content]> fs.

(** [fs.writeFile]: [rejects] is [None] when the environment lets the write
    succeed, and the [message] of the error when it rejects; a rejected write
    leaves the file system as it is. *)
Definition writeFile (rejects : option Str) (fs : FS) (path : Str) (content : Str)
  : Result FS :=
  match rejects with
  | Some message => Rejected message
  | None => Resolved (withFile fs path content)
  end.

(** ** src/taskManager.js *)

Module TaskManager.
Import JS.

Record TaskManager : Type := mkTaskManager {
  projectRoot : Str;
  taskFilePath : Str
}.

(** The constructor; [path_join] stands for Node's [path.join]. *)
Definition new (path_join : Str -> Str -> Str) (projectRoot : Str) : TaskManager :=
  mkTaskManager projectRoot (path_join projectRoot (str "TASK.mdc")).

(** The property names every object inherits from [Object.prototype]: for
    such a key [priorityGroups[priority]] is already truthy, no array is
    stored, and the call of [push] throws a TypeError. *)
Definition inheritedKeys : list Str :=
  [str "constructor"; str "__defineGetter__"; str "__defineSetter__";
   str "hasOwnProperty"; str "__lookupGetter__"; str "__lookupSetter__";
   str "isPrototypeOf"; str "propertyIsEnumerable"; str "toString";
   str "valueOf"; str "__proto__"; str "toLocaleString"].

(** The grouping loop of [_formatTasks]; [None] is the thrown TypeError. *)
Fixpoint groupByPriority (tasks : list Task) (priorityGroups : gmap Str (list Task))
  : option (gmap Str (list Task)) :=
  match tasks with
  | [] => Some priorityGroups
  | task :: rest =>
      let priority := if truthy (priority task) then priority task else MEDIUM in
      if existsb (str_eqb priority) inheritedKeys then None
      else
        let group := default [] (priorityGroups !! priority) in
        groupByPriority rest (<[priority := group ++ [task]]> priorityGroups)
  end.

Definition priorityOrder : list Str := [HIGH; MEDIUM; LOW].

Definition formatTask (task : Task) : list Str :=
  [str "- [ ] " ++ title task] ++
  (if truthy (description task) then [str "  - " ++ description task] else []) ++
  map (fun subtask => str "  - [ ] " ++ subtask) (subtasks task).

Definition formatGroup (priorityGroups : gmap Str (list Task)) (priority : Str)
  : list Str :=
  match priorityGroups !! priority with
  | Some group =>
      [str "### " ++ priority ++ str " Priority Tasks"] ++
      flat_map formatTask group ++ [[]]
  | None => []
  end.

Definition _formatTasks (tasks : list Task) : option Str :=
  match groupByPriority tasks ∅ with
  | Some priorityGroups =>
      Some (join [LF] (flat_map (formatGroup priorityGroups) priorityOrder))
  | None => None
  end.

(** The message of the TypeError thrown by [_formatTasks]. *)
Definition pushIsNotAFunction : Str :=
  str "priorityGroups[priority].push is not a function".

(** [createTaskFile]: [started] and [lastUpdated] are the two clock readings
    of the template and [rejects] is the outcome of the write.  The call
    rejects when [_formatTasks] throws (nothing is written then) or when the
    write rejects; otherwise the result is the path and the file system after
    the write. *)
Definition createTaskFile (tm : TaskManager) (projectName projectDescription : Str)
    (tasks : list Task) (environmentSetup : Str) (nextSteps : list Str) (notes : Str)
    (started lastUpdated : Str) (rejects : option Str) (fs : FS) : Result (Str * FS) :=
  match _formatTasks tasks with
  | None => Rejected pushIsNotAFunction
  | Some formatted =>
      let template := join [LF]
        [ str "# " ++ projectName ++ str " - Project Plan";
          [];
          str "## Project Overview";
          projectDescription;
          [];
          str "## Environment Setup";
          str "```bash";
          environmentSetup;
          str "```";
          [];
          str "## Implementation Tasks";
          [];
          formatted;
          [];
          str "## Progress Tracking";
          str "- Started: " ++ started;
          str "- Last Updated: " ++ lastUpdated;
          str "- Status: IN PROGRESS";
          [];
          str "## Next Steps";
          join [LF] (map (fun step => str "- " ++ step) nextSteps);
          [];
          str "## Notes";
          notes ] in
      match writeFile rejects fs (taskFilePath tm) template with
      | Resolved fs' => Resolved (taskFilePath tm, fs')
      | Rejected message => Rejected message
      end
  end.

(** [/[.*+?^${}()|[\]\\]/g], the characters escaped in a task title. *)
Definition syntaxChars : Str := str ".*+?^${}()|[]\".

Definition escapeRe : regex := Chr (one_of syntaxChars).

(** [new RegExp(...)] on the escaped title: a backslash followed by a syntax
    character is that character, any other character except a syntax
    character is itself; pattern text outside this fragment is not modelled
    ([None]) and does not arise from an escaped title. *)
Fixpoint compileLiteral (pattern : Str) : option regex :=
  match pattern with
  | [] => Some Eps
  | c :: rest =>
      if Ascii.eqb c "\" then
        match rest with
        | d :: rest' =>
            if one_of syntaxChars d
            then option_map (Seq (chr d)) (compileLiteral rest')
            else None
        | [] => None
        end
      else if one_of syntaxChars c then None
      else option_map (Seq (chr c)) (compileLiteral rest)
  end.

(** [new RegExp(`- \\[([ x])\\] ${escapedTitle}`)] *)
Definition taskPattern (escapedTitle : Str) : option regex :=
  match compileLiteral escapedTitle with
  | Some titleRe =>
      Some (cat [lit (str "- ["); Group (Chr (one_of (str " x"))); lit (str "] "); titleRe])
  | None => None
  end.

(** [/Last Updated: .*/] *)
Definition lastUpdatedLineRe : regex := cat [lit (str "Last Updated: "); Star true dot].

(** [updateTaskStatus]: the result and the file system afterwards;
    [rejects] is the outcome of the write, whose rejection is caught and
    answered with [false]. *)
Definition updateTaskStatus (tm : TaskManager) (taskTitle : Str) (completed : bool)
    (currentDate : Str) (rejects : option Str) (fs : FS) : bool * FS :=
  if negb (pathExists fs (taskFilePath tm)) then (false, fs)
  else
    match readFile fs (taskFilePath tm) with
    | None => (false, fs)
    | Some content =>
        let escapedTitle := replaceAll escapeRe (str "\$&") taskTitle in
        match taskPattern escapedTitle with
        | None => (false, fs)
        | Some pattern =>
            let newStatus : ascii := if completed then "x"%char else " "%char in
            let newContent :=
              replace pattern (str "- [" ++ [newStatus] ++ str "] " ++ taskTitle) content in
            let updatedContent :=
              replace lastUpdatedLineRe (str "Last Updated: " ++ currentDate) newContent in
            if str_eqb updatedContent content then (false, fs)
            else
              match writeFile rejects fs (taskFilePath tm) updatedContent with
              | Resolved fs' => (true, fs')
              | Rejected _ => (false, fs)
              end
        end
    end.

(** A parsed task record [{title, completed}]. *)
Record StatusTask : Type := mkStatusTask {
  task_title : Str;
  completed : bool
}.

Record ProjectStatus : Type := mkProjectStatus {
  status_project_name : Str;
  status : Str;
  last_updated : Str;
  status_tasks : list StatusTask;
  completed_tasks : nat;
  total_tasks : nat
}.

Inductive StatusResult : Type :=
| StatusError (error : Str)
| StatusOk (st : ProjectStatus).

(** The pattern [# ], a capturing greedy [.*], [ - Project Plan]. *)
Definition planTitleRe : regex :=
  cat [lit (str "# "); Group (Star true dot); lit (str " - Project Plan")].

(** [/- \[([ x])\] (.*?)(?=\n- \[|$)/g] *)
Definition taskPatternRe : regex :=
  cat [lit (str "- ["); Group (Chr (one_of (str " x"))); lit (str "] ");
       Group (Star false dot);
       Lookahead (Alt (lit (LF :: str "- [")) Eoi)].

(** The patterns [Status: ] and [Last Updated: ], each followed by a
    capturing greedy [.*]. *)
Definition statusRe : regex := cat [lit (str "Status: "); Group (Star true dot)].
Definition lastUpdatedRe : regex := cat [lit (str "Last Updated: "); Group (Star true dot)].

Definition firstGroup (re : regex) (content : Str) : Str :=
  match exec re content with
  | Some m => group 1 (m_groups m)
  | None => str "Unknown"
  end.

(** The body of the [while] loop: every match of the task pattern has at
    least six code units, so the loop is the [matchAll] sequence. *)
Definition parseTask (m : Str * list Str) : StatusTask :=
  let status := group 1 (snd m) in
  let title := trim (group 2 (snd m)) in
  mkStatusTask title (str_eqb status (str "x")).

Definition parseTasks (content : Str) : list StatusTask :=
  map parseTask (matchAll taskPatternRe content).

Definition getCurrentStatus (tm : TaskManager) (fs : FS) : StatusResult :=
  if negb (pathExists fs (taskFilePath tm)) then StatusError (str "TASK.mdc file not found")
  else
    match readFile fs (taskFilePath tm) with
    | None => StatusError (str "TASK.mdc file not found")
    | Some content =>
        let projectName := firstGroup planTitleRe content in
        let tasks := parseTasks content in
        let status := firstGroup statusRe content in
        let lastUpdated := firstGroup lastUpdatedRe content in
        StatusOk (mkProjectStatus projectName status lastUpdated tasks
                    (length (List.filter completed tasks)) (length tasks))
    end.

End TaskManager.

(** ** src/taskMaster.js: the orchestrator *)

Module TaskMaster.
Import JS.
Import TaskManager.

Inductive InitResult : Type :=
| InitSuccess (message : Str) (project_info : ProjectInfo) (task_file_path : Str)
| InitFailure (message : Str).

Record CompleteResult : Type := mkCompleteResult {
  complete_success : bool;
  complete_message : Str
}.

Inductive StatusReply : Type :=
| StatusFailure (message : Str)
| StatusSuccess (st : ProjectStatus).

Inductive ResumeResult : Type :=
| ResumeFailure (message : Str)
| ResumeSuccess (project_name status progress : Str) (next_tasks : list StatusTask)
    (message : Str).

(** Decimal rendering of a count inside a template literal. *)
Definition showNat (n : nat) : Str :=
  str (DecimalString.NilEmpty.string_of_uint (Nat.to_uint n)).

(** The arrow function [determineTaskPriority] local to [resumeProject]. *)
Definition determineTaskPriority (title : Str) : Str :=
  let titleLower := toLowerCase title in
  if includes titleLower (str "high") ||
     includes titleLower (str "critical") ||
     includes titleLower (str "important") ||
     includes titleLower (str "database") ||
     includes titleLower (str "authentication") ||
     includes titleLower (str "core") ||
     includes titleLower (str "foundation") ||
     includes titleLower (str "architecture") ||
     includes titleLower (str "security")
  then HIGH
  else if includes titleLower (str "low") ||
          includes titleLower (str "optional") ||
          includes titleLower (str "if time permits")
  then LOW
  else MEDIUM.

(** The selection of [resumeProject] from [status.tasks] down to the value
    of [next_tasks]. *)
Definition selectNextTasks (tasks : list StatusTask) : list StatusTask :=
  let incompleteTasks := List.filter (fun task => negb (completed task)) tasks in
  let highPriorityTasks :=
    List.filter (fun task => str_eqb (determineTaskPriority (task_title task)) HIGH)
      incompleteTasks in
  let mediumPriorityTasks :=
    List.filter (fun task => str_eqb (determineTaskPriority (task_title task)) MEDIUM)
      incompleteTasks in
  let lowPriorityTasks :=
    List.filter (fun task => str_eqb (determineTaskPriority (task_title task)) LOW)
      incompleteTasks in
  let nextTasks :=
    if 0 <? length highPriorityTasks then highPriorityTasks else mediumPriorityTasks in
  let nextTasks := if length nextTasks =? 0 then lowPriorityTasks else nextTasks in
  take 3 nextTasks.

Section Orchestrator.

Variable path_join : Str -> Str -> Str.

Definition boilerplateSteps : list Str :=
  [str "Review and refine tasks"; str "Set up development environment";
   str "Begin implementation of high priority tasks"].

(** [initializeProject]; the failure message carries the message of the
    error that [createTaskFile] rejected with. *)
Definition initializeProject (projectRoot requirements : Str) (started lastUpdated : Str)
    (rejects : option Str) (fs : FS) : InitResult * FS :=
  let projectInfo := ProjectAnalyzer.analyzeRequirements requirements in
  let taskManager := TaskManager.new path_join projectRoot in
  match createTaskFile taskManager (project_name projectInfo)
          (project_description projectInfo) (tasks projectInfo)
          (environment_setup projectInfo) boilerplateSteps [] started lastUpdated
          rejects fs with
  | Resolved (taskFilePath, fs') =>
      (InitSuccess
         (str "Project initialized with Task-Master. TASK.mdc created at " ++ taskFilePath)
         projectInfo taskFilePath, fs')
  | Rejected message =>
      (InitFailure (str "Failed to initialize project: " ++ message), fs)
  end.

Definition completeTask (projectRoot taskTitle : Str) (completed : bool) (currentDate : Str)
    (rejects : option Str) (fs : FS) : CompleteResult * FS :=
  let taskManager := TaskManager.new path_join projectRoot in
  let (success, fs') :=
    updateTaskStatus taskManager taskTitle completed currentDate rejects fs in
  if success then
    (mkCompleteResult true
       (str "Task '" ++ taskTitle ++ str "' marked as " ++
        (if completed then str "completed" else str "pending")), fs')
  else
    (mkCompleteResult false
       (str "Failed to update task '" ++ taskTitle ++
        str "'. Task not found or TASK.mdc file does not exist."), fs').

Definition getProjectStatus (projectRoot : Str) (fs : FS) : StatusReply :=
  let taskManager := TaskManager.new path_join projectRoot in
  match getCurrentStatus taskManager fs with
  | StatusError error => StatusFailure error
  | StatusOk st => StatusSuccess st
  end.

Definition resumeProject (projectRoot : Str) (fs : FS) : ResumeResult :=
  let taskManager := TaskManager.new path_join projectRoot in
  match getCurrentStatus taskManager fs with
  | StatusError error => ResumeFailure error
  | StatusOk st =>
      ResumeSuccess (status_project_name st) (status st)
        (showNat (completed_tasks st) ++ str "/" ++ showNat (total_tasks st) ++
         str " tasks completed")
        (selectNextTasks (status_tasks st))
        (str "Project resumed successfully")
  end.

End Orchestrator.

End TaskMaster.

(** ** bin/task-master.js: the action of the init command *)

Module Cli.
Import JS.
Import TaskManager.
Import TaskMaster.

(** What the action leaves behind: exit status 1 with the line written to
    standard error, or the line written to standard output. *)
Inductive Outcome : Type :=
| Exited (stderr : Str)
| Printed (stdout : Str).

Definition printed (outcome : Outcome) : bool :=
  match outcome with
  | Printed _ => true
  | Exited _ => false
  end.

Definition message (result : InitResult) : Str :=
  match result with
  | InitSuccess message _ _ => message
  | InitFailure message => message
  end.

(** An option of the command line is used when it is present and its
    argument is not the empty string. *)
Definition given (option_value : option Str) : option Str :=
  match option_value with
  | Some value => if truthy value then Some value else None
  | None => None
  end.

Section Init.

Variable path_join : Str -> Str -> Str.
Variable path_resolve : Str -> Str.

(** The requirements text assembled from the name and description options,
    in front of the content of the requirements file. *)
Definition header (name description : option Str) : Str :=
  let requirements := [] in
  let requirements :=
    match given name with
    | Some n => requirements ++ str "Project Name: " ++ n ++ [LF; LF]
    | None => requirements
    end in
  match given description with
  | Some d => requirements ++ str "Project Description:" ++ [LF] ++ d ++ [LF; LF]
  | None => requirements
  end.

(** [cwd] is [process.cwd()], [path_resolve] is [path.resolve]; the two
    clock readings and the outcome of the write are those of
    [createTaskFile].  The line printed at the end carries the message of
    [initializeProject] whether it succeeded or not. *)
Definition init (cwd : Str) (name description requirementsFile : option Str)
    (started lastUpdated : Str) (rejects : option Str) (fs : FS) : Outcome * FS :=
  let projectRoot := cwd in
  let requirements := header name description in
  let assembled : Str + Str :=
    match given requirementsFile with
    | Some file =>
        let reqPath := path_resolve file in
        if pathExists fs reqPath then
          match readFile fs reqPath with
          | Some reqContent => inl (requirements ++ reqContent)
          | None => inr (str "Requirements file not found: " ++ reqPath)
          end
        else inr (str "Requirements file not found: " ++ reqPath)
    | None => inl requirements
    end in
  match assembled with
  | inr line => (Exited line, fs)
  | inl requirements =>
      if negb (truthy requirements) then
        (Exited (str "No project requirements provided. Use --name, --description, or --requirements options."),
         fs)
      else
        let (result, fs') :=
          initializeProject path_join projectRoot requirements started lastUpdated
            rejects fs in
        (Printed (str "Project initialized: " ++ message result), fs')
  end.

End Init.

End Cli.

(** ** The properties as they are stated

    Definitions that follow the wording of the specification, to be compared
    with the functions above. *)

Module Stated.
Import JS.
Import TaskManager.

(** The Priority Classifier as the specification words it: an ordered table
    of keyword rules, the first rule with a keyword occurring in the
    lowercased text wins, MEDIUM when none does. *)
Definition priority_rules : list (list Str * Str) :=
  [ ([str "urgent"; str "critical"; str "important"; str "high priority"], HIGH);
    ([str "low priority"; str "optional"; str "if time permits"], LOW);
    ([str "database"; str "authentication"; str "core"; str "foundation";
      str "architecture"; str "security"], HIGH);
    ([str "ui"; str "ux"; str "design"; str "style"; str "appearance";
      str "documentation"], MEDIUM) ].

Definition classifyPriority (text : Str) : Str :=
  let lowered := toLowerCase text in
  match List.find (fun rule => existsb (includes lowered) (fst rule)) priority_rules with
  | Some rule => snd rule
  | None => MEDIUM
  end.

(** The keyword lists of the classifier inside [resumeProject]. *)
Definition resumeHighWords : list Str :=
  [str "high"; str "critical"; str "important"; str "database"; str "authentication";
   str "core"; str "foundation"; str "architecture"; str "security"].

Definition resumeLowWords : list Str :=
  [str "low"; str "optional"; str "if time permits"].

(** The incomplete tasks of a parsed list that the resume classifier puts
    in tier [p]. *)
Definition bucket (p : Str) (tasks : list StatusTask) : list StatusTask :=
  List.filter (fun task => str_eqb (TaskMaster.determineTaskPriority (task_title task)) p)
    (List.filter (fun task => negb (completed task)) tasks).

(** The first non-empty list of a sequence of lists, empty when all are. *)
Definition firstNonEmpty {A : Type} (ls : list (list A)) : list A :=
  match List.find (fun l => negb (length l =? 0)) ls with
  | Some l => l
  | None => []
  end.

Definition nextTasks (r : TaskMaster.ResumeResult) : list StatusTask :=
  match r with
  | TaskMaster.ResumeSuccess _ _ _ next_tasks _ => next_tasks
  | TaskMaster.ResumeFailure _ => []
  end.

(** The Project-Type Classifier as the specification words it: keyword
    sets tried in the order web, mobile, api, data; generic when none
    matches. *)
Definition projectTypeRules : list (list Str * Str) :=
  [ ([str "web"; str "website"; str "frontend"; str "backend"; str "fullstack";
      str "html"; str "css"; str "javascript"], str "web");
    ([str "mobile"; str "app"; str "ios"; str "android"; str "flutter";
      str "react native"], str "mobile");
    ([str "api"; str "rest"; str "graphql"; str "microservice"], str "api");
    ([str "data"; str "analysis"; str "analytics"; str "machine learning";
      str "ml"; str "ai"], str "data") ].

Definition classifyProjectType (text : Str) : Str :=
  let lowered := toLowerCase text in
  match List.find (fun rule => existsb (includes lowered) (fst rule)) projectTypeRules with
  | Some rule => snd rule
  | None => str "generic"
  end.

(** The lines of a text. *)
Fixpoint splitLines (s : Str) : list Str :=
  match s with
  | [] => [[]]
  | c :: s' =>
      if Ascii.eqb c LF then [] :: splitLines s'
      else
        match splitLines s' with
        | l :: ls => (c :: l) :: ls
        | [] => [[c]]
        end
  end.

(** A text has a markdown heading when one of its lines begins, after
    optional indentation, with the number sign; it has a [Tasks:] block when
    the header word with its colon occurs in it, in any letter case. *)
Definition hasMarkdownHeading (text : Str) : bool :=
  existsb (fun line => startsWith (trimStart line) (str "#")) (splitLines text).

Definition hasTasksBlock (text : Str) : bool :=
  includes (toLowerCase text) (str "tasks:").

(** The shape of an explicit task list.  A bullet line is a marker (a
    hyphen, an asterisk, or decimal digits and a full stop), one space and
    the bullet text; a block is a sequence of bullet lines separated by line
    feeds. *)
Inductive Marker : Type :=
| Hyphen
| Asterisk
| Numbered (first : ascii) (more : Str).

Definition markerText (m : Marker) : Str :=
  match m with
  | Hyphen => str "-"
  | Asterisk => str "*"
  | Numbered first more => first :: more ++ str "."
  end.

Definition validMarker (m : Marker) : bool :=
  match m with
  | Numbered first more => is_digit first && forallb is_digit more
  | _ => true
  end.

Record Bullet : Type := mkBullet {
  marker : Marker;
  text : Str
}.

Definition bulletLine (b : Bullet) : Str := markerText (marker b) ++ str " " ++ text b.

Definition tasksBlock (bullets : list Bullet) : Str := join [LF] (map bulletLine bullets).

(** The task a bullet stands for: its text trimmed, classified by the
    Priority Classifier, no description. *)
Definition bulletTask (b : Bullet) : Task :=
  mkTask (trim (text b)) (ProjectAnalyzer.determineTaskPriority (trim (text b))) [] [].

(** A bullet whose text stays on its line and is not blank. *)
Definition validBullet (b : Bullet) : bool :=
  validMarker (marker b) && forallb dot (text b) && truthy (trim (text b)).

(** A requirements text with a [Tasks:] header, [gap] between the header
    and the first bullet, and [rest] behind the last bullet. *)
Definition requirementsWith (before gap : Str) (bullets : list Bullet) (rest : Str) : Str :=
  before ++ str "Tasks:" ++ gap ++ tasksBlock bullets ++ rest.

(** The text after a block of bullets ends the block: nothing, one final
    line feed, or a blank line, a heading or a bold marker on the next
    line. *)
Definition atBlockEnd (s : Str) : bool :=
  match s with
  | [] => true
  | _ :: _ =>
      startsWith s [LF; LF] || startsWith s (LF :: str "#") || startsWith s (LF :: str "**")
  end.

Definition endsBlock (rest : Str) : bool := str_eqb rest [LF] || atBlockEnd rest.

(** A task as the extractor must return it. *)
Definition wellFormed (task : Task) : Prop :=
  title task <> [] /\ In (priority task) [HIGH; MEDIUM; LOW].

Definition wellFormedb (task : Task) : bool :=
  truthy (title task) && existsb (str_eqb (priority task)) [HIGH; MEDIUM; LOW].

End Stated.

(** ** Concrete projects used in the examples *)

Module Examples.
Import JS.
Import TaskManager.

(** A stand-in for [path.join] on already normalised arguments. *)
Definition join_path (a b : Str) : Str := a ++ str "/" ++ b.

Definition demo : TaskManager := TaskManager.new join_path (str "/work/demo").

Definition nine : Str := str "2024-03-01 09:00:00".
Definition nineOhFive : Str := str "2024-03-01 09:00:05".
Definition nineOhNine : Str := str "2024-03-01 09:00:09".

(** The plan written by [createTaskFile] at nine o'clock into an empty file
    system, with the boilerplate next steps of [initializeProject]; the write
    succeeds. *)
Definition created (tasks : list Task) : FS :=
  match createTaskFile demo (str "Demo") [] tasks [] TaskMaster.boilerplateSteps []
          nine nine None ∅ with
  | Resolved (_, fs) => fs
  | Rejected _ => ∅
  end.

(** The plan text around the task block and the timestamp. *)
Definition planText (taskLines : list string) (lastUpdated : string) : Str :=
  lines ([ "# Demo - Project Plan"; "";
           "## Project Overview"; ""; "";
           "## Environment Setup"; "```bash"; ""; "```"; "";
           "## Implementation Tasks"; "" ] ++
         taskLines ++
         [ ""; "";
           "## Progress Tracking";
           "- Started: 2024-03-01 09:00:00";
           String.append "- Last Updated: " lastUpdated;
           "- Status: IN PROGRESS"; "";
           "## Next Steps";
           "- Review and refine tasks";
           "- Set up development environment";
           "- Begin implementation of high priority tasks"; "";
           "## Notes"; "" ]).

(** The requirements text of the extraction scenario. *)
Definition scenarioText : Str :=
  lines [ "Project Name: Demo"; ""; "Tasks:"; "- Build login"; "- urgent: fix crash"; "" ].

Definition scenarioBullets : list Stated.Bullet :=
  [ Stated.mkBullet Stated.Hyphen (str "Build login");
    Stated.mkBullet Stated.Hyphen (str "urgent: fix crash") ].

(** Three texts with a [Tasks:] block of non-empty bullets: the word
    'tasks' in the sentence before the header, Windows line ends, and a
    line of prose right behind the last bullet. *)
Definition wordBeforeText : Str :=
  lines [ "This tool tracks tasks for a team."; ""; "Tasks:"; "- Build login"; "" ].

Definition windowsText : Str :=
  str "Tasks:" ++ [CR; LF] ++ str "- Build login" ++ [CR; LF] ++
  str "- Add tests" ++ [CR; LF].

Definition proseText : Str :=
  lines [ "Tasks:"; "- Build login"; "- Add tests"; "Notes: ship by 1. June" ].

(** The two tasks of the extraction scenario. *)
Definition scenarioTasks : list Task :=
  [ mkTask (str "Build login") MEDIUM [] [];
    mkTask (str "urgent: fix crash") HIGH [] [] ].

(** The tasks of the README sample plan. *)
Definition readmeTasks : list Task :=
  [ mkTask (str "Task 1") HIGH (str "Description of task 1")
      [str "Subtask 1.1"; str "Subtask 1.2"];
    mkTask (str "Task 2") MEDIUM (str "Description of task 2") [];
    mkTask (str "Task 3") LOW (str "Description of task 3") [] ].

Definition refundTasks : list Task :=
  [ mkTask (str "Refund $1 fee") MEDIUM [] [];
    mkTask (str "Write tests") MEDIUM [] [] ].

Definition loginTasks : list Task :=
  [ mkTask (str "Build login page") MEDIUM [] [];
    mkTask (str "Build login") MEDIUM [] [] ].

(** The scenario plan after 'Build login' was completed at 09:00:05 (the
    write succeeds). *)
Definition completedOnce : FS :=
  snd (updateTaskStatus demo (str "Build login") true nineOhFive None
         (created scenarioTasks)).

Definition databaseTitle : Str := str "Setup database layer".
Definition polishTitle : Str := str "Polish UI".

Definition resumePlan : Str :=
  lines [ "# Demo - Project Plan"; "";
          "## Implementation Tasks"; "";
          "### MEDIUM Priority Tasks";
          "- [ ] Setup database layer";
          "- [ ] Polish UI";
          "- [x] Write changelog"; "";
          "## Progress Tracking";
          "- Last Updated: 2024-03-01 09:00:00";
          "- Status: IN PROGRESS" ].

End Examples.

(** ** Notions used in the proofs *)

Module Notions.
Import JS.

(** All code units of the model. *)
Definition all_ascii : list ascii := map ascii_of_nat (seq 0 256).

(** The text [s] is empty or begins with a code unit that fails [p]. *)
Definition headFails (p : ascii -> bool) (s : Str) : Prop :=
  match s with
  | c :: _ => p c = false
  | [] => True
  end.

(** The text behind the line break at the front of [s]. *)
Definition afterLine (s : Str) : Str :=
  match s with
  | [] => []
  | _ :: s' => s'
  end.

Definition lineBreak (s : Str) : Prop := s = [] \/ exists s', s = LF :: s'.

(** No proper position inside [x] is the end of a block when [y] follows. *)
Definition inside (x y : Str) : Prop :=
  forall a1 a2, x = a1 ++ a2 -> a2 <> [] -> Stated.atBlockEnd (a2 ++ y) = false.

(** What escaping does to one code unit of a title. *)
Definition escapeChar (c : ascii) : Str :=
  if one_of TaskManager.syntaxChars c then ["\"%char; c] else [c].

(** A title or timestamp without dollar sign is copied unchanged by
    [getSubstitution]. *)
Definition dollarFree (s : Str) : bool := forallb (fun c => negb (Ascii.eqb c "$")) s.

(** The two edits of a status update on a document: the marker of the first
    checkbox text for [title] becomes [marker], and the rest of the line
    behind the first [Last Updated: ] becomes [now]; either leaves the
    document as it is when its pattern occurs nowhere. *)
Definition checkboxEdit (title : Str) (marker : ascii) (c c' : Str) : Prop :=
  c' = c \/
  exists pre old post,
    one_of (str " x") old = true /\
    c = pre ++ str "- [" ++ [old] ++ str "] " ++ title ++ post /\
    c' = pre ++ str "- [" ++ [marker] ++ str "] " ++ title ++ post.

Definition timestampEdit (now : Str) (c c' : Str) : Prop :=
  c' = c \/
  exists pre old post,
    forallb dot old = true /\ headFails dot post /\
    c = pre ++ str "Last Updated: " ++ old ++ post /\
    c' = pre ++ str "Last Updated: " ++ now ++ post.

End Notions.

(** ** Shapes of plans and documents used in further properties *)

Module Shapes.
Import JS.
Import TaskManager.

(** The priority under which [_formatTasks] files a task. *)
Definition effectivePriority (task : Task) : Str :=
  if truthy (priority task) then priority task else MEDIUM.

Definition inherited (task : Task) : bool :=
  existsb (str_eqb (effectivePriority task)) inheritedKeys.

(** The tasks of one tier, in their original order, and the lines the tier
    contributes to the plan. *)
Definition tier (p : Str) (tasks : list Task) : list Task :=
  List.filter (fun task => str_eqb (effectivePriority task) p) tasks.

Definition formatTier (tasks : list Task) (p : Str) : list Str :=
  match tier p tasks with
  | [] => []
  | group =>
      [str "### " ++ p ++ str " Priority Tasks"] ++ flat_map formatTask group ++ [[]]
  end.

(** A checkbox line of a plan. *)
Definition checkboxLine (marker : ascii) (title : Str) : Str :=
  str "- [" ++ [marker] ++ str "] " ++ title.

Definition validCheckbox (item : ascii * Str) : bool :=
  one_of (str " x") (fst item) && forallb dot (snd item).

Definition checkboxBlock (items : list (ascii * Str)) : Str :=
  join [LF] (map (fun item => checkboxLine (fst item) (snd item)) items).

Definition parsedItem (item : ascii * Str) : StatusTask :=
  mkStatusTask (trim (snd item)) (Ascii.eqb (fst item) "x").

(** The lookahead of the task pattern: the next line starts with a checkbox,
    or the text ends. *)
Definition followUp (s : Str) : Prop := s = [] \/ startsWith s (LF :: str "- [") = true.

(** The checkbox text for [title], unchecked or checked, stands at the
    front of [s]. *)
Definition checkboxAt (title s : Str) : bool :=
  startsWith s (checkboxLine " " title) || startsWith s (checkboxLine "x" title).

(** No checkbox text for [title] starts inside [pre] when [rest] follows. *)
Fixpoint noCheckboxIn (title pre rest : Str) : bool :=
  match pre with
  | [] => true
  | _ :: pre' => negb (checkboxAt title (pre ++ rest)) && noCheckboxIn title pre' rest
  end.

(** A heading line of a requirements text with the text below it: the
    hashes, the blanks behind them, the rest of the line, and the lines up to
    the next heading. *)
Record Heading : Type := mkHeading {
  h_hashes : Str;
  h_blank : Str;
  h_text : Str;
  h_body : Str
}.

Definition noHash (s : Str) : bool := forallb (fun c => negb (Ascii.eqb "#" c)) s.

Definition validHeading (h : Heading) : bool :=
  truthy (h_hashes h) && forallb (Ascii.eqb "#") (h_hashes h) &&
  forallb is_space (h_blank h) &&
  forallb dot (h_text h) && truthy (trim (h_text h)) &&
  noHash (take 1 (h_blank h ++ h_text h)) &&
  noHash (h_body h).

Definition headingText (h : Heading) : Str :=
  h_hashes h ++ h_blank h ++ h_text h ++ LF :: h_body h.

(** The task the second loop of [generateTasks] pushes for a heading. *)
Definition headingTask (h : Heading) : list Task :=
  let sectionTitle := trim (h_text h) in
  if existsb (str_eqb (toLowerCase sectionTitle)) ProjectAnalyzer.reservedSections
  then []
  else [mkTask (str "Implement " ++ sectionTitle)
               (ProjectAnalyzer.determineTaskPriority sectionTitle)
               (str "Based on the " ++ sectionTitle ++ str " section in requirements")
               []].

(** No proper position inside [x] is the end of a block when [y] follows,
    as a test. *)
Fixpoint insideb (x y : Str) : bool :=
  match x with
  | [] => true
  | _ :: x' => negb (Stated.atBlockEnd (x ++ y)) && insideb x' y
  end.

End Shapes.

(** * Theorems *)

(** ** Facts about strings *)

Module StrFacts.
Import JS.

Lemma str_eqb_eq (a b : Str) : str_eqb a b = true <-> a = b.
Proof. unfold str_eqb. apply bool_decide_eq_true. Qed.

Lemma str_eqb_refl (a : Str) : str_eqb a a = true.
Proof. by apply str_eqb_eq. Qed.

Lemma truthy_nonempty (s : Str) : truthy s = true <-> s <> [].
Proof. destruct s; simpl; split; congruence. Qed.

End StrFacts.

(** ** The two priority classifiers *)

Module ClassifierFacts.
Import JS.

(** Case analysis on the keyword tests of a goal, one test at a time. *)
Ltac split_includes :=
  repeat match goal with
         | |- context [includes ?a ?b] =>
             destruct (includes a b); cbn [orb andb negb]; try reflexivity
         end.

Lemma determineTaskPriority_range (text : Str) :
  In (ProjectAnalyzer.determineTaskPriority text) [HIGH; MEDIUM; LOW].
Proof.
  unfold ProjectAnalyzer.determineTaskPriority.
  repeat match goal with
         | |- context [includes ?a ?b] => destruct (includes a b); cbn [orb]
         end; simpl; auto.
Qed.

(** C6: the priority classifier lowercases its argument and answers with the
    first rule of the ordered keyword table that has a keyword occurring in
    it (urgency words HIGH, de-prioritisation words LOW, architectural words
    HIGH, cosmetic words MEDIUM), MEDIUM when no rule applies; it is a total
    function of the text alone, and the empty string gives MEDIUM. *)
Theorem determineTaskPriority_first_rule :
  (forall text : Str,
      ProjectAnalyzer.determineTaskPriority text = Stated.classifyPriority text) /\
  ProjectAnalyzer.determineTaskPriority [] = MEDIUM.
Proof.
  split; [|reflexivity].
  intros text.
  unfold ProjectAnalyzer.determineTaskPriority, Stated.classifyPriority,
    Stated.priority_rules.
  cbn [List.find existsb fst snd].
  generalize (toLowerCase text) as lowered. intros lowered.
  split_includes.
Qed.

Lemma resume_priority_table (title : Str) :
  TaskMaster.determineTaskPriority title =
  if existsb (includes (toLowerCase title)) Stated.resumeHighWords then HIGH
  else if existsb (includes (toLowerCase title)) Stated.resumeLowWords then LOW
  else MEDIUM.
Proof.
  unfold TaskMaster.determineTaskPriority, Stated.resumeHighWords, Stated.resumeLowWords.
  cbn [existsb].
  generalize (toLowerCase title) as lowered. intros lowered.
  split_includes.
Qed.

Lemma tiers_distinct : HIGH <> LOW /\ HIGH <> MEDIUM /\ LOW <> MEDIUM.
Proof. repeat split; discriminate. Qed.

(** C10: the classifier local to resumeProject answers HIGH exactly when the
    lowercased title contains one of its nine HIGH words, otherwise LOW
    exactly when it contains one of its three LOW words, otherwise MEDIUM;
    it differs from the priority classifier of the analyzer: a title that
    contains 'urgent' and none of those twelve words is HIGH for the
    analyzer and MEDIUM for resume. *)
Theorem resume_classifier_is_a_second_function (title : Str) :
  (TaskMaster.determineTaskPriority title = HIGH <->
     existsb (includes (toLowerCase title)) Stated.resumeHighWords = true) /\
  (TaskMaster.determineTaskPriority title = LOW <->
     existsb (includes (toLowerCase title)) Stated.resumeHighWords = false /\
     existsb (includes (toLowerCase title)) Stated.resumeLowWords = true) /\
  (TaskMaster.determineTaskPriority title = MEDIUM <->
     existsb (includes (toLowerCase title)) Stated.resumeHighWords = false /\
     existsb (includes (toLowerCase title)) Stated.resumeLowWords = false) /\
  (includes (toLowerCase title) (str "urgent") = true ->
   existsb (includes (toLowerCase title)) (Stated.resumeHighWords ++ Stated.resumeLowWords)
     = false ->
   ProjectAnalyzer.determineTaskPriority title = HIGH /\
   TaskMaster.determineTaskPriority title = MEDIUM).
Proof.
  destruct tiers_distinct as (HL & HM & LM).
  rewrite resume_priority_table.
  repeat split.
  - destruct (existsb _ Stated.resumeHighWords); [reflexivity|].
    destruct (existsb _ Stated.resumeLowWords); congruence.
  - destruct (existsb _ Stated.resumeHighWords); congruence.
  - destruct (existsb _ Stated.resumeHighWords); congruence.
  - destruct (existsb _ Stated.resumeHighWords); [congruence|].
    destruct (existsb _ Stated.resumeLowWords); congruence.
  - intros [-> ->]. reflexivity.
  - destruct (existsb _ Stated.resumeHighWords); [congruence|].
    destruct (existsb _ Stated.resumeLowWords); congruence.
  - destruct (existsb _ Stated.resumeHighWords); [congruence|].
    destruct (existsb _ Stated.resumeLowWords); congruence.
  - intros [-> ->]. reflexivity.
  - unfold ProjectAnalyzer.determineTaskPriority. rewrite H. reflexivity.
  - rewrite existsb_app in H0. apply orb_false_iff in H0 as [-> ->]. reflexivity.
Qed.

Lemma resume_classifier_urgent_witness :
  ProjectAnalyzer.determineTaskPriority (str "urgent: fix crash") = HIGH /\
  TaskMaster.determineTaskPriority (str "urgent: fix crash") = MEDIUM.
Proof.
  apply (proj2 (proj2 (proj2
           (resume_classifier_is_a_second_function (str "urgent: fix crash")))));
    vm_compute; reflexivity.
Defined.

End ClassifierFacts.

(** ** The task state store and resume *)

Module StoreFacts.
Import JS.
Import TaskManager.
Import StrFacts.
Import Examples.

(** C8: when the state file of the project root does not exist,
    updateTaskStatus returns false, the file system is left as it was, and
    in particular no state file exists afterwards, whether or not a write
    would succeed. *)
Theorem updateTaskStatus_without_state_file (tm : TaskManager) (taskTitle : Str)
    (completed : bool) (currentDate : Str) (rejects : option Str) (fs : FS) :
  pathExists fs (taskFilePath tm) = false ->
  updateTaskStatus tm taskTitle completed currentDate rejects fs = (false, fs) /\
  pathExists (snd (updateTaskStatus tm taskTitle completed currentDate rejects fs))
    (taskFilePath tm) = false.
Proof.
  intros Hmissing. unfold updateTaskStatus. rewrite Hmissing. simpl. auto.
Qed.

Lemma updateTaskStatus_without_state_file_witness :
  updateTaskStatus demo (str "Build login") true nine None ∅ = (false, ∅).
Proof.
  apply (updateTaskStatus_without_state_file demo (str "Build login") true nine None ∅).
  reflexivity.
Defined.

Lemma firstNonEmpty_three {A : Type} (h m l : list A) :
  Stated.firstNonEmpty [h; m; l] =
  (let next := if 0 <? length h then h else m in
   if length next =? 0 then l else next).
Proof.
  unfold Stated.firstNonEmpty. simpl.
  destruct h; simpl; [|reflexivity].
  destruct m; simpl; [|reflexivity].
  destruct l; reflexivity.
Qed.

Lemma selectNextTasks_buckets (tasks : list StatusTask) :
  TaskMaster.selectNextTasks tasks =
  take 3 (Stated.firstNonEmpty
            [Stated.bucket HIGH tasks; Stated.bucket MEDIUM tasks; Stated.bucket LOW tasks]).
Proof. rewrite firstNonEmpty_three. reflexivity. Qed.

(** For a project whose plan can be read, resumeProject succeeds and its
    next_tasks are the first non-empty one of the HIGH, MEDIUM and LOW
    buckets of the incomplete parsed tasks, each task placed by the resume
    classifier applied to its title, cut to at most three entries. *)
Lemma resumeProject_selection (path_join : Str -> Str -> Str) (projectRoot : Str)
    (fs : FS) (content : Str) :
  readFile fs (taskFilePath (new path_join projectRoot)) = Some content ->
  (exists name st progress message,
      TaskMaster.resumeProject path_join projectRoot fs =
      TaskMaster.ResumeSuccess name st progress
        (take 3 (Stated.firstNonEmpty
                   [Stated.bucket HIGH (parseTasks content);
                    Stated.bucket MEDIUM (parseTasks content);
                    Stated.bucket LOW (parseTasks content)]))
        message) /\
  length (Stated.nextTasks (TaskMaster.resumeProject path_join projectRoot fs)) <= 3.
Proof.
  intros Hread.
  assert (Hrun : TaskMaster.resumeProject path_join projectRoot fs =
                 TaskMaster.ResumeSuccess
                   (firstGroup planTitleRe content) (firstGroup statusRe content)
                   (TaskMaster.showNat (length (List.filter TaskManager.completed
                                                  (parseTasks content))) ++
                    str "/" ++ TaskMaster.showNat (length (parseTasks content)) ++
                    str " tasks completed")
                   (TaskMaster.selectNextTasks (parseTasks content))
                   (str "Project resumed successfully")).
  { unfold TaskMaster.resumeProject, getCurrentStatus, pathExists, readFile in *.
    rewrite Hread. reflexivity. }
  rewrite Hrun. simpl Stated.nextTasks.
  split.
  - rewrite selectNextTasks_buckets. eauto.
  - rewrite selectNextTasks_buckets. rewrite length_take. lia.
Qed.

(** C2: on the code the round trip through the state file loses tasks.
    The plan created from the two tasks 'Build login' (MEDIUM) and
    'urgent: fix crash' (HIGH) is written as expected, but getCurrentStatus
    on it returns an empty task list (total_tasks 0), because a checkbox
    line is only recognised when the next line starts with a checkbox or the
    file ends; the plan of the README sample (descriptions and subtasks)
    parses to an empty list as well. *)
Theorem created_plan_parses_to_no_tasks :
  readFile (created scenarioTasks) (taskFilePath demo) =
    Some (planText [ "### HIGH Priority Tasks"; "- [ ] urgent: fix crash"; "";
                     "### MEDIUM Priority Tasks"; "- [ ] Build login" ]
                   "2024-03-01 09:00:00") /\
  (exists st, getCurrentStatus demo (created scenarioTasks) = StatusOk st /\
              status_tasks st = [] /\ total_tasks st = 0) /\
  (exists st, getCurrentStatus demo (created readmeTasks) = StatusOk st /\
              status_tasks st = []).
Proof.
  split; [vm_compute; reflexivity|].
  split; eexists; (split; [vm_compute; reflexivity|]); simpl; auto.
Qed.

(** Every plan created from an entry of the Default Task Catalog reads
    back with no task at all: each catalog task has a description line. *)
Lemma catalog_plans_parse_to_no_tasks (projectType : Str) :
  exists st,
    getCurrentStatus demo (created (ProjectAnalyzer.getDefaultTasks projectType))
      = StatusOk st /\
    status_tasks st = [] /\ total_tasks st = 0.
Proof.
  unfold ProjectAnalyzer.getDefaultTasks.
  repeat match goal with
         | |- context [str_eqb ?a ?b] => destruct (str_eqb a b)
         end;
    eexists; (split; [vm_compute; reflexivity|]); simpl; auto.
Qed.

(** C7: on the code the scenario fails for the plans the program itself
    writes.  The two titles are classified HIGH and MEDIUM by the analyzer
    and HIGH and MEDIUM by resume; on the plan createTaskFile writes from
    them with these priorities nothing is parsed and resumeProject proposes
    nothing, reporting 0/0 tasks; written as two MEDIUM tasks with
    'Polish UI' first, only 'Polish UI' is parsed and proposed; and the whole
    path from a requirements text with the two bullets through
    initializeProject to resumeProject proposes nothing.  On a parsed list
    that holds both titles as incomplete tasks the selection does return
    'Setup database layer' alone. *)
Theorem resumeProject_scenario_fails_on_created_plans :
  ProjectAnalyzer.determineTaskPriority databaseTitle = HIGH /\
  ProjectAnalyzer.determineTaskPriority polishTitle = MEDIUM /\
  TaskMaster.determineTaskPriority databaseTitle = HIGH /\
  TaskMaster.determineTaskPriority polishTitle = MEDIUM /\
  TaskMaster.resumeProject join_path (str "/work/demo")
    (created [mkTask databaseTitle HIGH [] []; mkTask polishTitle MEDIUM [] []])
  = TaskMaster.ResumeSuccess (str "Demo") (str "IN PROGRESS") (str "0/0 tasks completed")
      [] (str "Project resumed successfully") /\
  map task_title
    (Stated.nextTasks
       (TaskMaster.resumeProject join_path (str "/work/demo")
          (created [mkTask polishTitle MEDIUM [] []; mkTask databaseTitle MEDIUM [] []])))
  = [polishTitle] /\
  ProjectAnalyzer.generateTasks
    (lines ["Tasks:"; "- Setup database layer"; "- Polish UI"; ""])
  = [mkTask databaseTitle HIGH [] []; mkTask polishTitle MEDIUM [] []] /\
  Stated.nextTasks
    (TaskMaster.resumeProject join_path (str "/work/demo")
       (snd (TaskMaster.initializeProject join_path (str "/work/demo")
               (lines ["Tasks:"; "- Setup database layer"; "- Polish UI"; ""])
               nine nine None ∅)))
  = [] /\
  map task_title
    (TaskMaster.selectNextTasks
       [mkStatusTask databaseTitle false; mkStatusTask polishTitle false])
  = [databaseTitle] /\
  map task_title
    (TaskMaster.selectNextTasks
       [mkStatusTask polishTitle false; mkStatusTask databaseTitle false])
  = [databaseTitle].
Proof. repeat split; vm_compute; reflexivity. Qed.

(** C1: on the code the timestamp alone counts as a change (every write
    succeeds here).  On the plan
    created at 09:00:00, updateTaskStatus for a title that occurs nowhere
    returns true at 09:00:05 and rewrites the file with the new Last Updated
    line; completing 'Build login' at 09:00:05 and again at 09:00:09 returns
    true both times and the second call changes the file again; only a
    repeated call within the same second returns false. *)
Theorem updateTaskStatus_counts_timestamp_as_change :
  fst (updateTaskStatus demo (str "Deploy to production") true nineOhFive None
         (created scenarioTasks)) = true /\
  readFile (snd (updateTaskStatus demo (str "Deploy to production") true nineOhFive None
                   (created scenarioTasks))) (taskFilePath demo) =
    Some (planText [ "### HIGH Priority Tasks"; "- [ ] urgent: fix crash"; "";
                     "### MEDIUM Priority Tasks"; "- [ ] Build login" ]
                   "2024-03-01 09:00:05") /\
  fst (updateTaskStatus demo (str "Build login") true nineOhFive None
         (created scenarioTasks)) = true /\
  readFile (completedOnce) (taskFilePath demo) =
    Some (planText [ "### HIGH Priority Tasks"; "- [ ] urgent: fix crash"; "";
                     "### MEDIUM Priority Tasks"; "- [x] Build login" ]
                   "2024-03-01 09:00:05") /\
  fst (updateTaskStatus demo (str "Build login") true nineOhNine None completedOnce) = true /\
  readFile (snd (updateTaskStatus demo (str "Build login") true nineOhNine None completedOnce))
    (taskFilePath demo) =
    Some (planText [ "### HIGH Priority Tasks"; "- [ ] urgent: fix crash"; "";
                     "### MEDIUM Priority Tasks"; "- [x] Build login" ]
                   "2024-03-01 09:00:09") /\
  updateTaskStatus demo (str "Build login") true nineOhFive None completedOnce
    = (false, completedOnce).
Proof. repeat split; vm_compute; reflexivity. Qed.

(** C3: on the code a title with a dollar pattern is not kept (every write
    succeeds here).  Completing
    'Refund $1 fee' rewrites its line to '- [x] Refund   fee', the '$1' of
    the replacement text being expanded to the old marker, so the title in
    the file is no longer the one looked up; and the unanchored pattern for
    'Build login' marks the earlier line 'Build login page'. *)
Theorem updateTaskStatus_rewrites_title_text :
  readFile (created refundTasks) (taskFilePath demo) =
    Some (planText [ "### MEDIUM Priority Tasks"; "- [ ] Refund $1 fee";
                     "- [ ] Write tests" ] "2024-03-01 09:00:00") /\
  fst (updateTaskStatus demo (str "Refund $1 fee") true nineOhFive None (created refundTasks))
    = true /\
  readFile (snd (updateTaskStatus demo (str "Refund $1 fee") true nineOhFive None
                   (created refundTasks))) (taskFilePath demo) =
    Some (planText [ "### MEDIUM Priority Tasks"; "- [x] Refund   fee";
                     "- [ ] Write tests" ] "2024-03-01 09:00:05") /\
  readFile (snd (updateTaskStatus demo (str "Build login") true nineOhFive None
                   (created loginTasks))) (taskFilePath demo) =
    Some (planText [ "### MEDIUM Priority Tasks"; "- [x] Build login page";
                     "- [ ] Build login" ] "2024-03-01 09:00:05").
Proof. repeat split; vm_compute; reflexivity. Qed.

End StoreFacts.

(** ** The requirements extractor *)

Module ExtractorFacts.
Import JS.
Import ProjectAnalyzer.
Import StrFacts.
Import Stated.

Lemma wellFormedb_sound (task : Task) : wellFormedb task = true -> wellFormed task.
Proof.
  unfold wellFormedb, wellFormed. intros H.
  apply andb_true_iff in H as [Ht Hp]. split.
  - by apply truthy_nonempty.
  - apply existsb_exists in Hp as (p & Hin & Heq).
    apply str_eqb_eq in Heq. by rewrite Heq.
Qed.

Lemma Forall_of_forallb {A : Type} (f : A -> bool) (P : A -> Prop) (l : list A) :
  (forall x, f x = true -> P x) -> forallb f l = true -> Forall P l.
Proof.
  intros Hf. induction l as [|x l IH]; simpl; intros H; constructor;
    apply andb_true_iff in H as [Hx Hl]; auto.
Qed.

Lemma getDefaultTasks_shape (projectType : Str) :
  6 <= length (getDefaultTasks projectType) <= 8 /\
  Forall wellFormed (getDefaultTasks projectType).
Proof.
  unfold getDefaultTasks.
  repeat match goal with
         | |- context [str_eqb ?a ?b] => destruct (str_eqb a b)
         end;
    (split; [simpl; lia|]);
    apply (Forall_of_forallb wellFormedb _ _ wellFormedb_sound);
    vm_compute; reflexivity.
Qed.

Lemma explicitTask_wellFormed (m : Str * list Str) : Forall wellFormed (explicitTask m).
Proof.
  unfold explicitTask.
  destruct (truthy (trim (group 1 m.2))) eqn:Htitle; constructor; [|constructor].
  split; simpl.
  - by apply truthy_nonempty.
  - apply ClassifierFacts.determineTaskPriority_range.
Qed.

Lemma inferredTask_wellFormed (m : Str * list Str) : Forall wellFormed (inferredTask m).
Proof.
  unfold inferredTask.
  destruct (negb _); constructor; [|constructor].
  split; simpl.
  - discriminate.
  - apply ClassifierFacts.determineTaskPriority_range.
Qed.

Lemma Forall_flat_map_intro {A B : Type} (P : B -> Prop) (f : A -> list B) (l : list A) :
  (forall x, Forall P (f x)) -> Forall P (flat_map f l).
Proof.
  intros Hf. induction l as [|x l IH]; simpl; [constructor|].
  apply Forall_app. split; [apply Hf|apply IH].
Qed.

Lemma explicitTasks_wellFormed (requirements : Str) :
  Forall wellFormed (explicitTasks requirements).
Proof.
  unfold explicitTasks. destruct (exec taskSectionRe requirements); [|constructor].
  apply Forall_flat_map_intro, explicitTask_wellFormed.
Qed.

Lemma inferredTasks_wellFormed (requirements : Str) :
  Forall wellFormed (inferredTasks requirements).
Proof. apply Forall_flat_map_intro, inferredTask_wellFormed. Qed.

Lemma length_eqb_zero {A : Type} (l : list A) : (length l =? 0) = true <-> l = [].
Proof. destruct l; simpl; split; congruence. Qed.

(** The three strategies of [generateTasks], each tried only when the
    previous one produced nothing. *)
Lemma generateTasks_cases (requirements : Str) :
  generateTasks requirements =
  match explicitTasks requirements with
  | _ :: _ => explicitTasks requirements
  | [] =>
      match inferredTasks requirements with
      | _ :: _ => inferredTasks requirements
      | [] => getDefaultTasks (inferProjectType requirements)
      end
  end.
Proof.
  unfold generateTasks.
  destruct (explicitTasks requirements); simpl; [|reflexivity].
  destruct (inferredTasks requirements); reflexivity.
Qed.

(** C9: for every input string the tasks returned by analyzeRequirements
    are not empty, every one of them has a non-empty title and a priority
    that is HIGH, MEDIUM or LOW, and when neither the task section nor the
    headings give a task the list is the catalog entry, of 6 to 8 tasks. *)
Theorem analyzeRequirements_tasks_well_formed (requirements : Str) :
  tasks (analyzeRequirements requirements) <> [] /\
  Forall (fun task => title task <> [] /\ In (priority task) [HIGH; MEDIUM; LOW])
    (tasks (analyzeRequirements requirements)) /\
  (explicitTasks requirements = [] -> inferredTasks requirements = [] ->
   tasks (analyzeRequirements requirements)
     = getDefaultTasks (inferProjectType requirements) /\
   6 <= length (tasks (analyzeRequirements requirements)) <= 8).
Proof.
  simpl tasks. rewrite generateTasks_cases.
  pose proof (explicitTasks_wellFormed requirements) as Hexp.
  pose proof (inferredTasks_wellFormed requirements) as Hinf.
  pose proof (getDefaultTasks_shape (inferProjectType requirements)) as [Hlen Hcat].
  destruct (explicitTasks requirements) as [|t ts] eqn:He.
  - destruct (inferredTasks requirements) as [|u us] eqn:Hi.
    + split; [|split].
      * intros Hnil. rewrite Hnil in Hlen. simpl in Hlen. lia.
      * exact Hcat.
      * auto.
    + split; [discriminate|]. split; [exact Hinf|]. discriminate.
  - split; [discriminate|]. split; [exact Hexp|]. discriminate.
Qed.

Lemma analyzeRequirements_fallback_witness :
  6 <= length (tasks (analyzeRequirements (str "A small command line tool"))) <= 8.
Proof.
  apply (analyzeRequirements_tasks_well_formed (str "A small command line tool"));
    vm_compute; reflexivity.
Defined.

End ExtractorFacts.

(** ** Facts about the matcher *)

Module EngineFacts.
Import JS.
Import StrFacts.
Import Notions.

Lemma all_ascii_complete (c : ascii) : In c all_ascii.
Proof.
  rewrite <- (ascii_nat_embedding c). apply in_map, in_seq.
  pose proof (nat_ascii_bounded c). lia.
Qed.

(** Two code units that a case-insensitive pattern identifies have the same
    lower case. *)
Lemma canonicalize_lower (c d : ascii) :
  canonicalize c = canonicalize d -> lower_char c = lower_char d.
Proof.
  assert (Hall : forallb (fun c => forallb (fun d =>
              implb (Ascii.eqb (canonicalize c) (canonicalize d))
                    (Ascii.eqb (lower_char c) (lower_char d))) all_ascii) all_ascii = true)
    by (vm_compute; reflexivity).
  intros Heq.
  rewrite forallb_forall in Hall. specialize (Hall c (all_ascii_complete c)).
  rewrite forallb_forall in Hall. specialize (Hall d (all_ascii_complete d)).
  rewrite Heq, Ascii.eqb_refl in Hall. simpl in Hall.
  by apply Ascii.eqb_eq.
Qed.

Lemma startsWith_app (p s : Str) : startsWith (p ++ s) p = true.
Proof. induction p as [|c p IH]; simpl; [reflexivity|]. by rewrite Ascii.eqb_refl. Qed.

Lemma startsWith_inv (s p : Str) : startsWith s p = true -> exists t, s = p ++ t.
Proof.
  revert s. induction p as [|c p IH]; intros s H; simpl in *; [by exists s|].
  destruct s as [|d s]; [discriminate|].
  apply andb_true_iff in H as [Hc Hp]. apply Ascii.eqb_eq in Hc as ->.
  destruct (IH _ Hp) as [t ->]. by exists t.
Qed.

Lemma includes_suffix (a b needle : Str) :
  startsWith b needle = true -> includes (a ++ b) needle = true.
Proof.
  intros H. induction a as [|c a IH]; simpl.
  - destruct b; simpl in *; rewrite H; reflexivity.
  - rewrite IH. apply orb_true_r.
Qed.

Lemma includes_inv (hay needle : Str) :
  includes hay needle = true -> exists a b, hay = a ++ needle ++ b.
Proof.
  induction hay as [|c hay IH]; simpl; intros H.
  - rewrite orb_false_r in H. apply startsWith_inv in H as [t ->]. by exists [], t.
  - apply orb_true_iff in H as [H|H].
    + apply startsWith_inv in H as [t ->]. by exists [], t.
    + destruct (IH H) as (a & b & ->). by exists (c :: a), b.
Qed.

Lemma toLowerCase_app (a b : Str) : toLowerCase (a ++ b) = toLowerCase a ++ toLowerCase b.
Proof. apply map_app. Qed.

(** *** Literals *)

Lemma run_lit (w s : Str) (caps : list Str) (k : Cont) :
  run (lit w) (w ++ s) caps k = k s caps.
Proof.
  induction w as [|c w IH]; simpl; [reflexivity|].
  rewrite Ascii.eqb_refl. apply IH.
Qed.

Lemma run_lit_inv (w s : Str) (caps : list Str) (k : Cont) (res : MatchState) :
  run (lit w) s caps k = Some res -> exists s', s = w ++ s' /\ k s' caps = Some res.
Proof.
  revert s. induction w as [|c w IH]; intros s H; simpl in *; [by exists s|].
  destruct s as [|d s]; [discriminate|].
  destruct (Ascii.eqb_spec c d) as [->|]; [|discriminate].
  destruct (IH _ H) as (s' & -> & Hk). by exists s'.
Qed.

Lemma run_lit_ci (w w' s : Str) (caps : list Str) (k : Cont) :
  map canonicalize w' = map canonicalize w ->
  run (lit_ci w) (w' ++ s) caps k = k s caps.
Proof.
  revert w'. induction w as [|c w IH]; intros [|d w'] H; simpl in *;
    try discriminate; [reflexivity|].
  injection H as Hc Hw. rewrite Hc, Ascii.eqb_refl. by apply IH.
Qed.

Lemma run_lit_ci_inv (w s : Str) (caps : list Str) (k : Cont) (res : MatchState) :
  run (lit_ci w) s caps k = Some res ->
  exists w' s', s = w' ++ s' /\ map canonicalize w' = map canonicalize w /\
                k s' caps = Some res.
Proof.
  revert s. induction w as [|c w IH]; intros s H; simpl in *; [by exists [], s|].
  destruct s as [|d s]; [discriminate|].
  destruct (Ascii.eqb_spec (canonicalize d) (canonicalize c)) as [Hc|]; [|discriminate].
  destruct (IH _ H) as (w' & s' & -> & Hw & Hk).
  exists (d :: w'), s'. simpl. by rewrite Hc, Hw.
Qed.

Lemma canonicalize_toLowerCase (w w' : Str) :
  map canonicalize w' = map canonicalize w -> toLowerCase w' = toLowerCase w.
Proof.
  revert w'. induction w as [|c w IH]; intros [|d w'] H; simpl in *;
    try discriminate; [reflexivity|].
  injection H as Hc Hw. f_equal; [by apply canonicalize_lower|by apply IH].
Qed.

(** *** Searching *)

Lemma exec_none (r : regex) (s : Str) :
  (forall a b, s = a ++ b -> match_here r b = None) -> exec r s = None.
Proof.
  induction s as [|c s IH]; intros H; simpl.
  - by rewrite (H [] []).
  - rewrite (H [] (c :: s) eq_refl).
    rewrite IH; [reflexivity|].
    intros a b ->. by apply (H (c :: a) b).
Qed.

Lemma matchAll_from_none (r : regex) (s : Str) (skip : nat) :
  (forall a b, s = a ++ b -> match_here r b = None) -> matchAll_from r skip s = [].
Proof.
  revert skip. induction s as [|c s IH]; intros skip H.
  - destruct skip; simpl; [|reflexivity]. by rewrite (H [] []).
  - assert (Hs : forall a b, s = a ++ b -> match_here r b = None).
    { intros a b ->. by apply (H (c :: a) b). }
    destruct skip; simpl.
    + rewrite (H [] (c :: s) eq_refl). by apply IH.
    + by apply IH.
Qed.

Lemma exec_here (r : regex) (s rest : Str) (caps : list Str) :
  match_here r s = Some (rest, caps) ->
  exec r s = Some (mkMatch [] (take (length s - length rest) s) rest caps).
Proof. intros Hs. destruct s; simpl; by rewrite Hs. Qed.

Lemma exec_found (r : regex) (pre s rest : Str) (caps : list Str) :
  (forall p1 p2, pre = p1 ++ p2 -> p2 <> [] -> match_here r (p2 ++ s) = None) ->
  match_here r s = Some (rest, caps) ->
  exec r (pre ++ s) = Some (mkMatch pre (take (length s - length rest) s) rest caps).
Proof.
  intros Hpre Hs. induction pre as [|c pre IH]; simpl.
  - by apply exec_here.
  - pose proof (Hpre [] (c :: pre) eq_refl ltac:(discriminate)) as Hc.
    simpl in Hc. rewrite Hc.
    rewrite IH; [reflexivity|].
    intros p1 p2 -> Hp2. by apply (Hpre (c :: p1) p2).
Qed.

Lemma matchAll_from_skip (r : regex) (a s : Str) :
  matchAll_from r (length a) (a ++ s) = matchAll_from r 0 s.
Proof. induction a as [|c a IH]; simpl; [by destruct s|apply IH]. Qed.

Lemma take_app_minus {A : Type} (a rest : list A) :
  take (length (a ++ rest) - length rest) (a ++ rest) = a.
Proof.
  rewrite length_app.
  replace (length a + length rest - length rest) with (length a) by lia.
  by rewrite take_app_length.
Qed.

(** One step of the match sequence: a non-empty match [a] found right at
    the search position, the search going on behind it. *)
Lemma matchAll_from_step (r : regex) (a rest : Str) (caps : list Str) :
  a <> [] ->
  match_here r (a ++ rest) = Some (rest, caps) ->
  matchAll_from r 0 (a ++ rest) = (a, caps) :: matchAll_from r 0 rest.
Proof.
  intros Ha Hm. destruct a as [|c a]; [done|].
  change (matchAll_from r 0 ((c :: a) ++ rest)) with
    (match match_here r ((c :: a) ++ rest) with
     | Some (rest', caps') =>
         (take (length ((c :: a) ++ rest) - length rest') ((c :: a) ++ rest), caps') ::
         matchAll_from r (pred (length ((c :: a) ++ rest) - length rest')) (a ++ rest)
     | None => matchAll_from r 0 (a ++ rest)
     end).
  rewrite Hm, take_app_minus. f_equal.
  rewrite length_app.
  replace (pred (length (c :: a) + length rest - length rest)) with (length a)
    by (simpl; lia).
  apply matchAll_from_skip.
Qed.

(** *** Quantifiers *)

(** A greedy star takes the whole run of matching characters when the rest
    of the pattern succeeds behind it. *)
Lemma star_greedy_commit (p : ascii -> bool) (a s : Str) (caps : list Str) (k : Cont)
    (res : MatchState) :
  forallb p a = true -> headFails p s -> k s caps = Some res ->
  star_greedy p (a ++ s) caps k = Some res.
Proof.
  intros Ha Hs Hk. induction a as [|c a IH]; simpl in *.
  - destruct s as [|d s]; simpl; [exact Hk|].
    simpl in Hs. rewrite Hs. exact Hk.
  - apply andb_true_iff in Ha as [Hc Ha]. rewrite Hc, (IH Ha). reflexivity.
Qed.

(** A lazy star passes over characters as long as the rest of the pattern
    fails in front of them. *)
Lemma star_lazy_skip (p : ascii -> bool) (a s : Str) (caps : list Str) (k : Cont) :
  forallb p a = true ->
  (forall a1 a2, a = a1 ++ a2 -> a2 <> [] -> k (a2 ++ s) caps = None) ->
  star_lazy p (a ++ s) caps k = star_lazy p s caps k.
Proof.
  induction a as [|c a IH]; intros Ha Hk; [reflexivity|].
  simpl in Ha. apply andb_true_iff in Ha as [Hc Ha].
  change (star_lazy p ((c :: a) ++ s) caps k) with
    (match k ((c :: a) ++ s) caps with
     | Some res => Some res
     | None => if p c then star_lazy p (a ++ s) caps k else None
     end).
  rewrite (Hk [] (c :: a) eq_refl) by discriminate.
  rewrite Hc. apply IH; [exact Ha|].
  intros a1 a2 -> Ha2. by apply (Hk (c :: a1) a2).
Qed.

Lemma star_lazy_stop (p : ascii -> bool) (s : Str) (caps : list Str) (k : Cont)
    (res : MatchState) :
  k s caps = Some res -> star_lazy p s caps k = Some res.
Proof. intros Hk. destruct s; simpl; by rewrite Hk. Qed.

(** *** Facts about single code units, by enumeration *)

Lemma forall_ascii (P : ascii -> bool) :
  forallb P all_ascii = true -> forall c, P c = true.
Proof. intros H c. rewrite forallb_forall in H. apply H, all_ascii_complete. Qed.

Lemma digit_facts (d : ascii) :
  is_digit d = true ->
  is_space d = false /\ dot d = true /\ one_of (str "-*") d = false /\
  Ascii.eqb LF d = false /\ Ascii.eqb "#" d = false /\ Ascii.eqb "*" d = false /\
  Ascii.eqb "." d = false.
Proof.
  intros Hd.
  pose proof (forall_ascii (fun d => implb (is_digit d)
    (negb (is_space d) && dot d && negb (one_of (str "-*") d) &&
     negb (Ascii.eqb LF d) && negb (Ascii.eqb "#" d) && negb (Ascii.eqb "*" d) &&
     negb (Ascii.eqb "." d))) ltac:(vm_compute; reflexivity) d) as H.
  cbv beta in H. rewrite Hd in H. cbn [implb] in H.
  repeat (apply andb_true_iff in H as [H ?]).
  repeat split; try by apply negb_true_iff. done.
Qed.

Lemma dot_not_LF (c : ascii) : dot c = true -> Ascii.eqb LF c = false.
Proof.
  intros Hc. destruct (Ascii.eqb_spec LF c) as [<-|]; [discriminate|reflexivity].
Qed.

End EngineFacts.

(** ** The catalog fallback *)

Module FallbackFacts.
Import JS.
Import ProjectAnalyzer.
Import StrFacts.
Import EngineFacts.
Import Stated.

Lemma run_seq (r1 r2 : regex) (s : Str) (caps : list Str) (k : Cont) :
  run (Seq r1 r2) s caps k = run r1 s caps (fun s' caps' => run r2 s' caps' k).
Proof. reflexivity. Qed.

Lemma taskSection_needs_word (b : Str) (res : MatchState) :
  match_here taskSectionRe b = Some res ->
  startsWith (toLowerCase b) (str "tasks") = true.
Proof.
  unfold match_here, taskSectionRe. cbn [cat fold_right]. rewrite run_seq.
  intros H. apply run_lit_ci_inv in H as (w' & s' & -> & Hw & _).
  rewrite toLowerCase_app, (canonicalize_toLowerCase _ _ Hw).
  change (toLowerCase (str "Tasks")) with (str "tasks").
  apply startsWith_app.
Qed.

Lemma explicitTasks_without_word (requirements : Str) :
  includes (toLowerCase requirements) (str "tasks") = false ->
  explicitTasks requirements = [].
Proof.
  intros Hfree. unfold explicitTasks.
  rewrite exec_none; [reflexivity|].
  intros a b ->.
  destruct (match_here taskSectionRe b) as [res|] eqn:Hm; [|reflexivity].
  apply taskSection_needs_word in Hm.
  rewrite toLowerCase_app, includes_suffix in Hfree by exact Hm. discriminate.
Qed.

Lemma heading_needs_hash (b : Str) (res : MatchState) :
  match_here headingRe b = Some res -> startsWith b (str "#") = true.
Proof.
  unfold match_here, headingRe, plus. cbn [cat fold_right]. rewrite !run_seq.
  destruct b as [|c b]; cbn [run]; [discriminate|].
  destruct (Ascii.eqb_spec "#" c) as [<-|]; [intros _; reflexivity|discriminate].
Qed.

Lemma inferredTasks_without_hash (requirements : Str) :
  includes requirements (str "#") = false -> inferredTasks requirements = [].
Proof.
  intros Hfree. unfold inferredTasks, matchAll.
  rewrite matchAll_from_none; [reflexivity|].
  intros a b ->.
  destruct (match_here headingRe b) as [res|] eqn:Hm; [|reflexivity].
  apply heading_needs_hash in Hm.
  rewrite includes_suffix in Hfree by exact Hm. discriminate.
Qed.

Lemma inferProjectType_table (requirements : Str) :
  inferProjectType requirements = classifyProjectType requirements.
Proof.
  unfold inferProjectType, classifyProjectType, projectTypeRules.
  cbn [List.find existsb fst snd].
  generalize (toLowerCase requirements) as lowered. intros lowered.
  ClassifierFacts.split_includes.
Qed.




End FallbackFacts.

(** ** The explicit task section *)

Module TaskSectionFacts.
Import JS.
Import ProjectAnalyzer.
Import StrFacts.
Import EngineFacts.
Import FallbackFacts.
Import Stated.
Import Notions.

(** *** Trimming *)

Lemma trimStart_split (s : Str) :
  exists w, s = w ++ trimStart s /\ forallb is_space w = true.
Proof.
  induction s as [|c s (w & Hs & Hw)]; [by exists []|].
  simpl. destruct (is_space c) eqn:Hc.
  - exists (c :: w). simpl. rewrite Hc, Hw. split; [by f_equal|reflexivity].
  - by exists [].
Qed.

Lemma trimStart_head (s : Str) : headFails is_space (trimStart s).
Proof.
  induction s as [|c s IH]; simpl; [exact I|].
  destruct (is_space c) eqn:Hc; [exact IH|exact Hc].
Qed.

Lemma trimStart_idem (s : Str) : trimStart (trimStart s) = trimStart s.
Proof.
  pose proof (trimStart_head s) as H.
  destruct (trimStart s) as [|c t]; [reflexivity|].
  simpl in *. by rewrite H.
Qed.

Lemma trim_trimStart (s : Str) : trim (trimStart s) = trim s.
Proof. unfold trim. by rewrite trimStart_idem. Qed.

Lemma trim_truthy (s : Str) : truthy (trim s) = true -> trimStart s <> [].
Proof. unfold trim, trimEnd. intros H Hnil. rewrite Hnil in H. discriminate. Qed.

(** *** One bullet line *)

Lemma lineEnd_here (s : Str) (caps : list Str) (k : Cont) :
  lineBreak s -> run lineEnd s caps k = k (afterLine s) caps.
Proof. intros [->|[s' ->]]; simpl; [reflexivity|]. by destruct (k s' caps). Qed.

Lemma lineEnd_fails (c : ascii) (s : Str) (caps : list Str) (k : Cont) :
  dot c = true -> run lineEnd (c :: s) caps k = None.
Proof.
  intros Hc. unfold lineEnd, chr. cbn [run]. by rewrite (dot_not_LF c Hc).
Qed.

Lemma run_marker (m : Marker) (s : Str) (caps : list Str) (k : Cont) (res : MatchState) :
  validMarker m = true -> k s caps = Some res ->
  run (Alt (Chr (one_of (str "-*"))) (Seq (plus is_digit) (chr "."))) (markerText m ++ s)
    caps k = Some res.
Proof.
  intros Hm Hk. destruct m as [| |d ds]; cbn [markerText].
  - simpl. by rewrite Hk.
  - simpl. by rewrite Hk.
  - simpl in Hm. apply andb_true_iff in Hm as [Hd Hds].
    destruct (digit_facts d Hd) as (_ & _ & Hbullet & _).
    change ((d :: ds ++ str ".") ++ s) with (d :: (ds ++ str ".") ++ s).
    cbn [run]. rewrite Hbullet. unfold plus. rewrite !run_seq. cbn [run].
    rewrite Hd, <- app_assoc.
    apply star_greedy_commit; [exact Hds|reflexivity|].
    simpl. exact Hk.
Qed.

Lemma forallb_suffix {A : Type} (p : A -> bool) (a1 a2 : list A) :
  forallb p (a1 ++ a2) = true -> forallb p a2 = true.
Proof. rewrite forallb_app. intros H. by apply andb_true_iff in H as [_ H]. Qed.

(** The bullet pattern, tried at the start of a valid bullet line that is
    followed by a line break or the end of the text, matches the whole line
    and its line feed and captures the text without its leading blanks. *)
Lemma bullet_match (b : Bullet) (R : Str) :
  validBullet b = true -> lineBreak R ->
  match_here bulletRe (bulletLine b ++ R) = Some (afterLine R, [trimStart (text b)]).
Proof.
  intros Hb HR. unfold validBullet in Hb.
  apply andb_true_iff in Hb as [Hb Htrim]. apply andb_true_iff in Hb as [Hm Hdot].
  destruct (trimStart_split (text b)) as (w & Htext & Hw).
  pose proof (trimStart_head (text b)) as Hhead.
  pose proof (trim_truthy _ Htrim) as Hne.
  rewrite Htext in Hdot. apply forallb_suffix in Hdot.
  unfold match_here, bulletRe, bulletLine. cbn [cat fold_right].
  rewrite run_seq, <- app_assoc. apply run_marker; [exact Hm|].
  rewrite run_seq. cbn [run].
  rewrite Htext at 1.
  change (str " " ++ w ++ trimStart (text b)) with ((" "%char :: w) ++ trimStart (text b)).
  rewrite <- app_assoc.
  apply star_greedy_commit.
  - simpl. exact Hw.
  - destruct (trimStart (text b)); [done|exact Hhead].
  - rewrite star_lazy_skip.
    + apply star_lazy_stop. rewrite take_app_minus. by rewrite lineEnd_here.
    + exact Hdot.
    + intros a1 [|c a2] Hsplit Ha2; [done|].
      rewrite Hsplit in Hdot. apply forallb_suffix in Hdot. simpl in Hdot.
      apply andb_true_iff in Hdot as [Hc _].
      by apply lineEnd_fails.
Qed.

(** *** The bullets of a block *)

Lemma tasksBlock_cons (b b' : Bullet) (bs : list Bullet) :
  tasksBlock (b :: b' :: bs) = bulletLine b ++ LF :: tasksBlock (b' :: bs).
Proof. reflexivity. Qed.

Lemma tasksBlock_one (b : Bullet) : tasksBlock [b] = bulletLine b.
Proof. reflexivity. Qed.

Lemma bulletLine_nonempty (b : Bullet) (s : Str) : bulletLine b ++ s <> [].
Proof. unfold bulletLine. by destruct (marker b). Qed.

Lemma explicitTask_bullet (b : Bullet) (matched : Str) :
  validBullet b = true ->
  explicitTask (matched, [trimStart (text b)]) = [bulletTask b].
Proof.
  intros Hb. unfold validBullet in Hb. apply andb_true_iff in Hb as [_ Htrim].
  unfold explicitTask, bulletTask. cbn [snd group nth Nat.sub].
  by rewrite trim_trimStart, Htrim.
Qed.

Lemma bullets_of_line (b : Bullet) (R : Str) :
  validBullet b = true -> lineBreak R ->
  flat_map explicitTask (matchAll_from bulletRe 0 (bulletLine b ++ R)) =
  bulletTask b :: flat_map explicitTask (matchAll_from bulletRe 0 (afterLine R)).
Proof.
  intros Hb HR. pose proof (bullet_match b R Hb HR) as Hm.
  destruct HR as [->|[R' ->]]; cbn [afterLine] in *.
  - pose proof (bulletLine_nonempty b []) as Hne. rewrite app_nil_r in Hne.
    rewrite (matchAll_from_step bulletRe (bulletLine b) [] _ Hne Hm).
    cbn [flat_map]. by rewrite explicitTask_bullet.
  - replace (bulletLine b ++ LF :: R') with ((bulletLine b ++ [LF]) ++ R')
      in * by (by rewrite <- app_assoc).
    rewrite (matchAll_from_step bulletRe (bulletLine b ++ [LF]) R' _
               (bulletLine_nonempty b [LF]) Hm).
    cbn [flat_map]. by rewrite explicitTask_bullet.
Qed.

Lemma bullets_of_block (bullets : list Bullet) (extra : Str) :
  forallb validBullet bullets = true -> extra = [] \/ extra = [LF] ->
  flat_map explicitTask (matchAll_from bulletRe 0 (tasksBlock bullets ++ extra)) =
  map bulletTask bullets.
Proof.
  intros Hall Hextra. induction bullets as [|b bs IH].
  - destruct Hextra as [->| ->]; reflexivity.
  - simpl in Hall. apply andb_true_iff in Hall as [Hb Hbs].
    destruct bs as [|b' bs].
    + rewrite tasksBlock_one. cbn [map].
      destruct Hextra as [->| ->].
      * rewrite bullets_of_line; [reflexivity|exact Hb|by left].
      * rewrite bullets_of_line; [reflexivity|exact Hb|right; by eexists].
    + rewrite tasksBlock_cons, <- app_assoc. cbn [app].
      rewrite bullets_of_line; [|exact Hb|right; by eexists].
      cbn [afterLine map]. f_equal. by apply IH.
Qed.

(** *** The end of the section *)

Lemma blockEnd_fails (s : Str) (caps : list Str) (k : Cont) :
  atBlockEnd s = false -> run blockEnd s caps k = None.
Proof.
  intros Hs. destruct (run blockEnd s caps k) as [res|] eqn:Hrun; [|reflexivity].
  exfalso. unfold blockEnd, alts in Hrun. cbn [fold_right run] in Hrun.
  destruct s as [|c s]; [discriminate|].
  cbn [atBlockEnd] in Hs.
  apply orb_false_iff in Hs as [Hs H3]. apply orb_false_iff in Hs as [H1 H2].
  destruct (run (lit [LF; LF]) (c :: s) caps k) eqn:E1.
  { apply run_lit_inv in E1 as (s' & E1 & _).
    rewrite E1, startsWith_app in H1. discriminate. }
  destruct (run (lit (LF :: str "#")) (c :: s) caps k) eqn:E2.
  { apply run_lit_inv in E2 as (s' & E2 & _).
    rewrite E2, startsWith_app in H2. discriminate. }
  destruct (run (lit (LF :: str "**")) (c :: s) caps k) eqn:E3.
  { apply run_lit_inv in E3 as (s' & E3 & _).
    rewrite E3, startsWith_app in H3. discriminate. }
  discriminate.
Qed.

Lemma blockEnd_here (s : Str) (caps : list Str) :
  atBlockEnd s = true ->
  exists after, run blockEnd s caps (fun s' caps' => Some (s', caps')) = Some (after, caps).
Proof.
  intros Hs. unfold blockEnd, alts. cbn [fold_right run].
  destruct (run (lit [LF; LF]) s caps _) eqn:E1.
  { apply run_lit_inv in E1 as (s' & _ & <-). by eexists. }
  destruct (run (lit (LF :: str "#")) s caps _) eqn:E2.
  { apply run_lit_inv in E2 as (s' & _ & <-). by eexists. }
  destruct (run (lit (LF :: str "**")) s caps _) eqn:E3.
  { apply run_lit_inv in E3 as (s' & _ & <-). by eexists. }
  destruct s as [|c s]; [by eexists|].
  exfalso. cbn [atBlockEnd] in Hs.
  apply orb_true_iff in Hs as [Hs|Hs]; [apply orb_true_iff in Hs as [Hs|Hs]|];
    apply startsWith_inv in Hs as [t Ht]; rewrite Ht in *.
  - rewrite run_lit in E1. discriminate.
  - rewrite run_lit in E2. discriminate.
  - rewrite run_lit in E3. discriminate.
Qed.

Lemma inside_cons (c : ascii) (x y : Str) :
  atBlockEnd (c :: x ++ y) = false -> inside x y -> inside (c :: x) y.
Proof.
  intros Hc Hx [|d a1] a2 Hsplit Ha2; simpl in Hsplit.
  - by rewrite <- Hsplit.
  - injection Hsplit as -> ->. by apply (Hx a1 a2).
Qed.

Lemma inside_nil (y : Str) : inside [] y.
Proof. intros [|] [|] Hsplit Ha2; done. Qed.

Lemma inside_app (x x' y : Str) : inside x (x' ++ y) -> inside x' y -> inside (x ++ x') y.
Proof.
  revert x'. induction x as [|c x IH]; intros x' Hx Hx'; [exact Hx'|].
  simpl. apply inside_cons.
  - rewrite <- app_assoc. apply (Hx [] (c :: x) eq_refl). discriminate.
  - apply IH; [|exact Hx'].
    intros a1 a2 -> Ha2. by apply (Hx (c :: a1) a2).
Qed.

Lemma inside_line (x y : Str) : forallb dot x = true -> inside x y.
Proof.
  intros Hx a1 [|c a2] -> Ha2; [done|].
  apply forallb_suffix in Hx. simpl in Hx. apply andb_true_iff in Hx as [Hc _].
  apply dot_not_LF in Hc. cbn [atBlockEnd app startsWith]. by rewrite Hc.
Qed.

Lemma markerText_dot (m : Marker) : validMarker m = true -> forallb dot (markerText m) = true.
Proof.
  destruct m as [| |d ds]; try reflexivity.
  simpl. intros H. apply andb_true_iff in H as [Hd Hds].
  destruct (digit_facts d Hd) as (_ & -> & _). simpl.
  rewrite forallb_app. apply andb_true_iff. split; [|reflexivity].
  clear Hd. induction ds as [|e ds IH]; simpl in *; [reflexivity|].
  apply andb_true_iff in Hds as [He Hds].
  destruct (digit_facts e He) as (_ & -> & _). by apply IH.
Qed.

Lemma bulletLine_dot (b : Bullet) : validBullet b = true -> forallb dot (bulletLine b) = true.
Proof.
  unfold validBullet, bulletLine. intros H.
  apply andb_true_iff in H as [H _]. apply andb_true_iff in H as [Hm Ht].
  rewrite !forallb_app, (markerText_dot _ Hm), Ht. reflexivity.
Qed.

(** A line feed in front of a bullet line is no end of the block. *)
Lemma before_bulletLine (b : Bullet) (s : Str) :
  validBullet b = true -> atBlockEnd (LF :: bulletLine b ++ s) = false.
Proof.
  unfold validBullet, bulletLine. intros H.
  apply andb_true_iff in H as [H _]. apply andb_true_iff in H as [Hm _].
  destruct (marker b) as [| |d ds]; try reflexivity.
  simpl in Hm. apply andb_true_iff in Hm as [Hd _].
  destruct (digit_facts d Hd) as (_ & _ & _ & HLF & Hhash & Hstar & _).
  cbn [atBlockEnd app startsWith str list_ascii_of_string markerText].
  by rewrite HLF, Hhash, Hstar.
Qed.

Lemma inside_block (bullets : list Bullet) (y : Str) :
  forallb validBullet bullets = true -> inside (tasksBlock bullets) y.
Proof.
  intros Hall. induction bullets as [|b bs IH]; [apply inside_nil|].
  simpl in Hall. apply andb_true_iff in Hall as [Hb Hbs].
  destruct bs as [|b' bs].
  - rewrite tasksBlock_one. by apply inside_line, bulletLine_dot.
  - rewrite tasksBlock_cons. apply inside_app.
    + by apply inside_line, bulletLine_dot.
    + change (LF :: tasksBlock (b' :: bs)) with ([LF] ++ tasksBlock (b' :: bs)).
      apply inside_app; [|by apply IH].
      apply inside_cons; [|apply inside_nil].
      simpl in Hbs. apply andb_true_iff in Hbs as [Hb' _].
      destruct bs as [|b'' bs].
      * rewrite tasksBlock_one. simpl. by apply before_bulletLine.
      * rewrite tasksBlock_cons. simpl. rewrite <- app_assoc. by apply before_bulletLine.
Qed.

(** *** The section pattern at the header *)

Lemma forallb_dot_all (s : Str) : forallb dot_all s = true.
Proof. by induction s. Qed.

Lemma lazy_section (section rest0 : Str) (caps : list Str) :
  inside section rest0 -> atBlockEnd rest0 = true ->
  exists after,
    star_lazy dot_all (section ++ rest0) caps
      (fun s' caps' =>
         run blockEnd s'
           (caps' ++ [take (length (section ++ rest0) - length s') (section ++ rest0)])
           (fun s'' caps'' => Some (s'', caps'')))
    = Some (after, caps ++ [section]).
Proof.
  intros Hin Hend.
  destruct (blockEnd_here rest0 (caps ++ [section]) Hend) as [after Hafter].
  exists after. rewrite star_lazy_skip.
  - apply star_lazy_stop. by rewrite take_app_minus.
  - apply forallb_dot_all.
  - intros a1 a2 Hsplit Ha2. apply blockEnd_fails. by apply (Hin a1 a2).
Qed.

Lemma opt_colon (s : Str) (caps : list Str) (k : Cont) (res : MatchState) :
  k s caps = Some res -> run (opt (chr_ci ":")) (":"%char :: s) caps k = Some res.
Proof. intros Hk. unfold opt, chr_ci. cbn [run]. simpl. by rewrite Hk. Qed.

Lemma block_head (bullets : list Bullet) (s : Str) :
  bullets <> [] -> forallb validBullet bullets = true ->
  headFails is_space (tasksBlock bullets ++ s).
Proof.
  intros Hne Hall. destruct bullets as [|b bs]; [done|].
  simpl in Hall. apply andb_true_iff in Hall as [Hb _].
  unfold validBullet in Hb.
  apply andb_true_iff in Hb as [Hb _]. apply andb_true_iff in Hb as [Hm _].
  assert (Hline : headFails is_space (bulletLine b ++ LF :: s)).
  { unfold bulletLine. destruct (marker b) as [| |d ds]; try reflexivity.
    simpl in Hm. apply andb_true_iff in Hm as [Hd _].
    by destruct (digit_facts d Hd) as (Hsp & _). }
  destruct bs as [|b' bs].
  - rewrite tasksBlock_one. unfold bulletLine in *.
    by destruct (marker b).
  - rewrite tasksBlock_cons. unfold bulletLine in *.
    by destruct (marker b).
Qed.

(** The part of the text the section pattern captures: the block itself,
    with the final line feed when only that follows the block. *)
Lemma section_split (bullets : list Bullet) (rest : Str) :
  forallb validBullet bullets = true -> endsBlock rest = true ->
  exists extra rest0,
    (extra = [] \/ extra = [LF]) /\
    tasksBlock bullets ++ rest = (tasksBlock bullets ++ extra) ++ rest0 /\
    inside (tasksBlock bullets ++ extra) rest0 /\ atBlockEnd rest0 = true.
Proof.
  intros Hall Hrest. unfold endsBlock in Hrest.
  destruct (str_eqb rest [LF]) eqn:Hone.
  - apply str_eqb_eq in Hone as ->.
    exists [LF], []. split; [by right|]. split; [by rewrite app_nil_r|].
    split; [|reflexivity].
    apply inside_app; [by apply inside_block|].
    apply inside_cons; [reflexivity|apply inside_nil].
  - simpl in Hrest. exists [], rest. split; [by left|].
    rewrite app_nil_r. split; [reflexivity|].
    split; [by apply inside_block|exact Hrest].
Qed.

Lemma section_match (gap : Str) (bullets : list Bullet) (rest : Str) :
  forallb is_space gap = true -> bullets <> [] ->
  forallb validBullet bullets = true -> endsBlock rest = true ->
  exists after extra,
    (extra = [] \/ extra = [LF]) /\
    match_here taskSectionRe (str "Tasks:" ++ gap ++ tasksBlock bullets ++ rest)
      = Some (after, [tasksBlock bullets ++ extra]).
Proof.
  intros Hgap Hne Hall Hrest.
  destruct (section_split bullets rest Hall Hrest)
    as (extra & rest0 & Hextra & Hsplit & Hin & Hend).
  destruct (lazy_section _ _ [] Hin Hend) as [after Hlazy].
  exists after, extra. split; [exact Hextra|].
  unfold match_here, taskSectionRe. cbn [cat fold_right].
  rewrite run_seq.
  change (str "Tasks:" ++ gap ++ tasksBlock bullets ++ rest)
    with (str "Tasks" ++ ":"%char :: gap ++ tasksBlock bullets ++ rest).
  rewrite (run_lit_ci (str "Tasks") (str "Tasks")) by reflexivity.
  rewrite run_seq. apply opt_colon.
  rewrite run_seq. cbn [run].
  apply star_greedy_commit; [exact Hgap|by apply block_head|].
  rewrite Hsplit. exact Hlazy.
Qed.

(** An occurrence of the word that starts in front of the header ends
    within the first four letters of the header. *)
Lemma word_overlap (p z : Str) :
  p <> [] ->
  startsWith (toLowerCase (p ++ str "Tasks:" ++ z)) (str "tasks") = true ->
  startsWith (toLowerCase (p ++ str "task")) (str "tasks") = true.
Proof.
  intros Hp. destruct p as [|c1 [|c2 [|c3 [|c4 [|c5 p]]]]]; [done|..];
    simpl; intros H; exact H.
Qed.

Lemma header_is_first (before s : Str) :
  includes (toLowerCase (before ++ str "task")) (str "tasks") = false ->
  forall p1 p2, before = p1 ++ p2 -> p2 <> [] ->
  match_here taskSectionRe (p2 ++ str "Tasks:" ++ s) = None.
Proof.
  intros Hfree p1 p2 -> Hp2.
  destruct (match_here taskSectionRe _) as [res|] eqn:Hm; [|reflexivity].
  apply taskSection_needs_word, word_overlap in Hm; [|exact Hp2].
  rewrite <- app_assoc, toLowerCase_app, includes_suffix in Hfree by exact Hm.
  discriminate.
Qed.

Lemma explicitTasks_of_block (before gap rest : Str) (bullets : list Bullet) :
  includes (toLowerCase (before ++ str "task")) (str "tasks") = false ->
  forallb is_space gap = true ->
  bullets <> [] ->
  forallb validBullet bullets = true ->
  endsBlock rest = true ->
  explicitTasks (requirementsWith before gap bullets rest) = map bulletTask bullets.
Proof.
  intros Hfree Hgap Hne Hall Hrest.
  destruct (section_match gap bullets rest Hgap Hne Hall Hrest)
    as (after & extra & Hextra & Hm).
  unfold explicitTasks, requirementsWith.
  rewrite (exec_found taskSectionRe before _ after _ (header_is_first before _ Hfree) Hm).
  cbn [m_groups group nth Nat.sub]. unfold matchAll.
  by apply bullets_of_block.
Qed.

(** A numbered list with an asterisk bullet and indented text, closed by a
    heading. *)
Example numbered_list :
  explicitTasks
    (requirementsWith (str "Plan" ++ [LF]) [LF; " "%char]
       [ mkBullet (Numbered "1" []) (str "Design schema");
         mkBullet Asterisk (str "  Write docs  ");
         mkBullet (Numbered "1" (str "2")) (str "optional: dark mode") ]
       (LF :: str "# Notes"))
  = [ mkTask (str "Design schema") MEDIUM [] [];
      mkTask (str "Write docs") MEDIUM [] [];
      mkTask (str "optional: dark mode") LOW [] [] ].
Proof.
  rewrite explicitTasks_of_block; try (vm_compute; reflexivity). discriminate.
Qed.




End TaskSectionFacts.

(** ** The edits of a status update *)

Module UpdateFacts.
Import JS.
Import TaskManager.
Import StrFacts.
Import EngineFacts.
Import FallbackFacts.
Import Notions.

Lemma succ_minus (n : nat) : S n - n = 1.
Proof. lia. Qed.

Lemma replaceAll_escape (before title : Str) :
  replaceAll_from escapeRe (str "\$&") before 0 title = flat_map escapeChar title.
Proof.
  revert before. induction title as [|c t IH]; intros before; [reflexivity|].
  cbn [replaceAll_from flat_map]. unfold match_here, escapeRe, escapeChar. cbn [run].
  destruct (one_of syntaxChars c) eqn:Hc.
  - cbn [length]. rewrite succ_minus. simpl. f_equal. f_equal. apply IH.
  - simpl. f_equal. apply IH.
Qed.

(** The escaped title compiles to the literal pattern for the title. *)
Lemma compile_escaped (title : Str) :
  compileLiteral (flat_map escapeChar title) = Some (lit title).
Proof.
  induction title as [|c t IH]; [reflexivity|].
  cbn [flat_map]. unfold escapeChar at 1.
  destruct (one_of syntaxChars c) eqn:Hc.
  - cbn [app compileLiteral]. change (Ascii.eqb "\" "\") with true. cbn iota.
    rewrite Hc, IH. reflexivity.
  - cbn [app compileLiteral].
    destruct (Ascii.eqb_spec c "\") as [->|_]; [discriminate|].
    rewrite Hc, IH. reflexivity.
Qed.

Lemma taskPattern_escaped (title : Str) :
  taskPattern (replaceAll escapeRe (str "\$&") title) =
  Some (cat [lit (str "- ["); Group (Chr (one_of (str " x"))); lit (str "] "); lit title]).
Proof.
  unfold replaceAll, taskPattern. by rewrite replaceAll_escape, compile_escaped.
Qed.

Lemma exec_inv (r : regex) (s : Str) (m : Match) :
  exec r s = Some m ->
  exists t caps, s = m_before m ++ t /\ match_here r t = Some (m_after m, caps).
Proof.
  revert m. induction s as [|c s IH]; intros m; simpl.
  - destruct (match_here r []) as [[rest caps]|] eqn:Hm; [|discriminate].
    intros [= <-]. by exists [], caps.
  - destruct (match_here r (c :: s)) as [[rest caps]|] eqn:Hm.
    + intros [= <-]. by exists (c :: s), caps.
    + destruct (exec r s) as [m'|]; [|discriminate].
      intros [= <-]. destruct (IH m' eq_refl) as (t & caps & -> & Ht).
      by exists t, caps.
Qed.

Lemma getSubstitution_plain (m : Match) (template : Str) :
  dollarFree template = true -> getSubstitution m template = template.
Proof.
  induction template as [|c t IH]; [reflexivity|].
  simpl. intros H. apply andb_true_iff in H as [Hc Ht].
  apply negb_true_iff in Hc. rewrite Hc. f_equal. by apply IH.
Qed.

Lemma task_pattern_inv (title t rest : Str) (caps : list Str) :
  match_here
    (cat [lit (str "- ["); Group (Chr (one_of (str " x"))); lit (str "] "); lit title]) t
    = Some (rest, caps) ->
  exists old, one_of (str " x") old = true /\
              t = str "- [" ++ [old] ++ str "] " ++ title ++ rest.
Proof.
  unfold match_here. cbn [cat fold_right]. rewrite run_seq. intros H.
  apply run_lit_inv in H as (s1 & -> & H).
  rewrite run_seq in H. cbn [run] in H.
  destruct s1 as [|old s2]; [discriminate|].
  destruct (one_of (str " x") old) eqn:Hold; [|discriminate].
  apply run_lit_inv in H as (s3 & -> & H).
  apply run_lit_inv in H as (s4 & -> & H).
  injection H as <- _.
  exists old. split; [exact Hold|reflexivity].
Qed.

Lemma star_greedy_total (p : ascii -> bool) (s : Str) (caps : list Str) :
  star_greedy p s caps (fun s' c' => Some (s', c')) <> None.
Proof.
  induction s as [|c s IH]; simpl; [discriminate|].
  destruct (p c); [|discriminate].
  by destruct (star_greedy p s caps _).
Qed.

Lemma star_greedy_inv (p : ascii -> bool) (s rest : Str) (caps caps' : list Str) :
  star_greedy p s caps (fun s' c' => Some (s', c')) = Some (rest, caps') ->
  exists a, s = a ++ rest /\ forallb p a = true /\ headFails p rest.
Proof.
  induction s as [|c s IH]; simpl.
  - intros [= <- _]. by exists [].
  - destruct (p c) eqn:Hc.
    + destruct (star_greedy p s caps _) as [res|] eqn:Hs.
      * intros [= ->]. destruct (IH eq_refl) as (a & -> & Ha & Hrest).
        exists (c :: a). simpl. by rewrite Hc, Ha.
      * by destruct (star_greedy_total p s caps).
    + intros [= <- _]. exists []. by split; [|split; [|simpl]].
Qed.

Lemma last_updated_inv (t rest : Str) (caps : list Str) :
  match_here lastUpdatedLineRe t = Some (rest, caps) ->
  exists old, forallb dot old = true /\ headFails dot rest /\
              t = str "Last Updated: " ++ old ++ rest.
Proof.
  unfold match_here, lastUpdatedLineRe. cbn [cat fold_right]. rewrite run_seq. intros H.
  apply run_lit_inv in H as (s1 & -> & H).
  cbn [run] in H. apply star_greedy_inv in H as (old & -> & Hold & Hrest).
  by exists old.
Qed.

Lemma replace_checkbox (title : Str) (marker : ascii) (content : Str) :
  dollarFree title = true -> Ascii.eqb marker "$" = false ->
  checkboxEdit title marker content
    (replace
       (cat [lit (str "- ["); Group (Chr (one_of (str " x"))); lit (str "] "); lit title])
       (str "- [" ++ [marker] ++ str "] " ++ title) content).
Proof.
  intros Htitle Hmarker. unfold replace.
  destruct (exec _ content) as [m|] eqn:Hexec; [|by left].
  right. apply exec_inv in Hexec as (t & caps & Hcontent & Hm).
  apply task_pattern_inv in Hm as (old & Hold & ->).
  exists (m_before m), old, (m_after m). split; [exact Hold|]. split; [exact Hcontent|].
  rewrite getSubstitution_plain.
  - by rewrite <- !app_assoc.
  - simpl. by rewrite Hmarker, Htitle.
Qed.

Lemma replace_timestamp (now content : Str) :
  dollarFree now = true ->
  timestampEdit now content
    (replace lastUpdatedLineRe (str "Last Updated: " ++ now) content).
Proof.
  intros Hnow. unfold replace.
  destruct (exec _ content) as [m|] eqn:Hexec; [|by left].
  right. apply exec_inv in Hexec as (t & caps & Hcontent & Hm).
  apply last_updated_inv in Hm as (old & Hold & Hrest & ->).
  exists (m_before m), old, (m_after m).
  split; [exact Hold|]. split; [exact Hrest|]. split; [exact Hcontent|].
  rewrite getSubstitution_plain; [by rewrite <- !app_assoc|].
  simpl. exact Hnow.
Qed.

(** X1: The frame of a status update for a title and a timestamp without dollar
    sign: the new document differs from the old one at most in the marker of
    the first checkbox text for the title and in the rest of the first
    [Last Updated: ] line; the call answers false and writes nothing when
    the two edits together leave the document unchanged or when the write is
    rejected, and otherwise answers true and stores the new document. *)
Lemma updateTaskStatus_edits (tm : TaskManager) (taskTitle : Str) (completed : bool)
    (currentDate : Str) (rejects : option Str) (fs : FS) (content : Str) :
  readFile fs (taskFilePath tm) = Some content ->
  dollarFree taskTitle = true -> dollarFree currentDate = true ->
  exists newContent updatedContent,
    checkboxEdit taskTitle (if completed then "x" else " ")%char content newContent /\
    timestampEdit currentDate newContent updatedContent /\
    updateTaskStatus tm taskTitle completed currentDate rejects fs =
      if str_eqb updatedContent content then (false, fs)
      else match rejects with
           | None => (true, withFile fs (taskFilePath tm) updatedContent)
           | Some _ => (false, fs)
           end.
Proof.
  intros Hread Htitle Hnow.
  unfold updateTaskStatus, pathExists, readFile in *.
  rewrite Hread. cbn [negb]. rewrite taskPattern_escaped.
  eexists _, _. split; [|split].
  - apply replace_checkbox; [exact Htitle|by destruct completed].
  - by apply replace_timestamp.
  - unfold writeFile. by destruct rejects.
Qed.

End UpdateFacts.

(** ** More facts about the matcher: inversions and searches *)

Module EngineMore.
Import JS.
Import StrFacts.
Import EngineFacts.
Import FallbackFacts.
Import Notions.

Lemma star_greedy_inv_k (p : ascii -> bool) (s : Str) (caps : list Str) (k : Cont)
    (res : MatchState) :
  star_greedy p s caps k = Some res ->
  exists a s', s = a ++ s' /\ forallb p a = true /\ k s' caps = Some res.
Proof.
  induction s as [|c s IH]; simpl.
  - intros H. by exists [], [].
  - destruct (p c) eqn:Hc.
    + destruct (star_greedy p s caps k) as [r|] eqn:Hs.
      * intros [= ->]. destruct (IH eq_refl) as (a & s' & -> & Ha & Hk).
        exists (c :: a), s'. simpl. by rewrite Hc, Ha.
      * intros H. by exists [], (c :: s).
    + intros H. by exists [], (c :: s).
Qed.

Lemma star_lazy_inv_k (p : ascii -> bool) (s : Str) (caps : list Str) (k : Cont)
    (res : MatchState) :
  star_lazy p s caps k = Some res ->
  exists a s', s = a ++ s' /\ forallb p a = true /\ k s' caps = Some res.
Proof.
  induction s as [|c s IH]; simpl.
  - destruct (k [] caps) eqn:Hk; [|discriminate]. intros [= ->]. by exists [], [].
  - destruct (k (c :: s) caps) eqn:Hk.
    + intros [= ->]. by exists [], (c :: s).
    + destruct (p c) eqn:Hc; [|discriminate].
      intros H. destruct (IH H) as (a & s' & -> & Ha & Hk').
      exists (c :: a), s'. simpl. by rewrite Hc, Ha.
Qed.

Lemma run_opt_inv (r : regex) (s : Str) (caps : list Str) (k : Cont) (res : MatchState) :
  run (opt r) s caps k = Some res ->
  run r s caps k = Some res \/ k s caps = Some res.
Proof.
  unfold opt. cbn [run]. destruct (run r s caps k); [intros [= ->]; by left|by right].
Qed.

Lemma run_chr_inv (p : ascii -> bool) (s : Str) (caps : list Str) (k : Cont)
    (res : MatchState) :
  run (Chr p) s caps k = Some res ->
  exists c s', s = c :: s' /\ p c = true /\ k s' caps = Some res.
Proof.
  cbn [run]. destruct s as [|c s]; [discriminate|].
  destruct (p c) eqn:Hc; [|discriminate]. intros H. by exists c, s.
Qed.

(** A stretch of text in which the pattern matches nowhere is passed over
    by the match sequence. *)
Lemma matchAll_from_pass (r : regex) (a s : Str) :
  (forall a1 a2, a = a1 ++ a2 -> a2 <> [] -> match_here r (a2 ++ s) = None) ->
  matchAll_from r 0 (a ++ s) = matchAll_from r 0 s.
Proof.
  induction a as [|c a IH]; intros Hno; [reflexivity|].
  pose proof (Hno [] (c :: a) eq_refl ltac:(discriminate)) as Hc.
  change ((c :: a) ++ s) with (c :: a ++ s) in *.
  cbn [matchAll_from]. rewrite Hc. apply IH.
  intros a1 a2 -> Ha2. by apply (Hno (c :: a1) a2).
Qed.

(** Every element of the match sequence comes from a match of the pattern
    at some position. *)
Lemma matchAll_from_Forall (r : regex) (P : Str * list Str -> Prop) (s : Str) (skip : nat) :
  (forall t rest caps,
      match_here r t = Some (rest, caps) -> P (take (length t - length rest) t, caps)) ->
  Forall P (matchAll_from r skip s).
Proof.
  intros HP. revert skip. induction s as [|c s IH]; intros skip.
  - destruct skip; simpl; [|constructor].
    destruct (match_here r []) as [[rest caps]|] eqn:Hm; constructor; [|constructor].
    by apply (HP [] rest caps).
  - destruct skip; cbn [matchAll_from]; [|apply IH].
    destruct (match_here r (c :: s)) as [[rest caps]|] eqn:Hm; [|apply IH].
    constructor; [by apply (HP (c :: s) rest caps)|apply IH].
Qed.

Lemma exec_inv_groups (r : regex) (s : Str) (m : Match) :
  exec r s = Some m ->
  exists t, s = m_before m ++ t /\ match_here r t = Some (m_after m, m_groups m).
Proof.
  revert m. induction s as [|c s IH]; intros m; simpl.
  - destruct (match_here r []) as [[rest caps]|] eqn:Hm; [|discriminate].
    intros [= <-]. by exists [].
  - destruct (match_here r (c :: s)) as [[rest caps]|] eqn:Hm.
    + intros [= <-]. by exists (c :: s).
    + destruct (exec r s) as [m'|]; [|discriminate].
      intros [= <-]. destruct (IH m' eq_refl) as (t & -> & Ht). by exists t.
Qed.

(** A greedy star followed by a literal that needs the end of the run: the
    star gives back exactly the characters of [b]. *)
Lemma star_greedy_last (p : ascii -> bool) (a b rest : Str) (caps : list Str) (k : Cont)
    (res : MatchState) :
  forallb p a = true -> forallb p b = true -> headFails p rest ->
  k (b ++ rest) caps = Some res ->
  (forall b1 b2, b = b1 ++ b2 -> b1 <> [] -> k (b2 ++ rest) caps = None) ->
  star_greedy p (a ++ b ++ rest) caps k = Some res.
Proof.
  intros Ha Hb Hrest Hk Hno.
  assert (Hsuffix : forall b2 b1, b = b1 ++ b2 -> b1 <> [] ->
                                  star_greedy p (b2 ++ rest) caps k = None).
  { induction b2 as [|c b2 IH]; intros b1 Hsplit Hb1.
    - simpl. pose proof (Hno b1 [] Hsplit Hb1) as H0. simpl in H0.
      destruct rest as [|d rest]; simpl; [exact H0|].
      simpl in Hrest. by rewrite Hrest.
    - simpl. rewrite (IH (b1 ++ [c])); [|by rewrite <- app_assoc|by destruct b1].
      pose proof (Hno b1 (c :: b2) Hsplit Hb1) as H0. simpl in H0. rewrite H0.
      by destruct (p c). }
  assert (Hb' : star_greedy p (b ++ rest) caps k = Some res).
  { destruct b as [|c b].
    - simpl in *. destruct rest as [|d rest]; simpl; [exact Hk|].
      simpl in Hrest. by rewrite Hrest.
    - simpl in Hb. apply andb_true_iff in Hb as [Hc _]. simpl. rewrite Hc.
      rewrite (Hsuffix b [c] eq_refl) by discriminate. exact Hk. }
  clear Hsuffix. induction a as [|c a IH]; [exact Hb'|].
  simpl in Ha. apply andb_true_iff in Ha as [Hc Ha].
  simpl. by rewrite Hc, (IH Ha).
Qed.

(** A literal cannot match across a line break. *)
Lemma lit_blocked (w b2 rest : Str) (c : ascii) (caps : list Str) (k : Cont) :
  forallb dot w = true -> dot c = false -> length b2 < length w ->
  run (lit w) (b2 ++ c :: rest) caps k = None.
Proof.
  revert w. induction b2 as [|d b2 IH]; intros [|e w] Hw Hc Hlen; simpl in Hlen; try lia.
  - simpl in Hw. apply andb_true_iff in Hw as [He _].
    change (run (lit (e :: w)) ([] ++ c :: rest) caps k)
      with (if Ascii.eqb e c then run (lit w) rest caps k else None).
    destruct (Ascii.eqb_spec e c) as [->|]; [congruence|reflexivity].
  - simpl in Hw. apply andb_true_iff in Hw as [_ Hw].
    change (run (lit (e :: w)) ((d :: b2) ++ c :: rest) caps k)
      with (if Ascii.eqb e d then run (lit w) (b2 ++ c :: rest) caps k else None).
    destruct (Ascii.eqb e d); [|reflexivity]. apply IH; [exact Hw|exact Hc|lia].
Qed.

(** A text splits in one way only into a run of [p] characters and a rest
    that does not continue the run. *)
Lemma split_unique (p : ascii -> bool) (x x' y y' : Str) :
  forallb p x = true -> forallb p x' = true -> headFails p y -> headFails p y' ->
  x ++ y = x' ++ y' -> x = x' /\ y = y'.
Proof.
  revert x'. induction x as [|c x IH]; intros [|c' x'] Hx Hx' Hy Hy' Heq; simpl in *.
  - done.
  - subst y. simpl in Hy. apply andb_true_iff in Hx' as [Hc' _]. congruence.
  - subst y'. simpl in Hy'. apply andb_true_iff in Hx as [Hc _]. congruence.
  - injection Heq as -> Heq.
    apply andb_true_iff in Hx as [_ Hx]. apply andb_true_iff in Hx' as [_ Hx'].
    destruct (IH x' Hx Hx' Hy Hy' Heq) as [-> ->]. done.
Qed.

End EngineMore.

(** ** The extracted fields *)

Module FieldFacts.
Import JS.
Import ProjectAnalyzer.
Import StrFacts.
Import EngineFacts.
Import FallbackFacts.
Import TaskSectionFacts.
Import EngineMore.
Import Notions.

Lemma lit_ci_needs_word (w : Str) (r : regex) (b : Str) (res : MatchState) :
  match_here (Seq (lit_ci w) r) b = Some res ->
  startsWith (toLowerCase b) (toLowerCase w) = true.
Proof.
  unfold match_here. rewrite run_seq. intros H.
  apply run_lit_ci_inv in H as (w' & s' & -> & Hw & _).
  rewrite toLowerCase_app, (canonicalize_toLowerCase _ _ Hw). apply startsWith_app.
Qed.

Lemma field_default (w : Str) (r : regex) (default requirements : Str) :
  includes (toLowerCase requirements) (toLowerCase w) = false ->
  field (Seq (lit_ci w) r) default requirements = default.
Proof.
  intros Hfree. unfold field. rewrite exec_none; [reflexivity|].
  intros a b ->.
  destruct (match_here _ b) as [res|] eqn:Hm; [|reflexivity].
  apply lit_ci_needs_word in Hm.
  rewrite toLowerCase_app, includes_suffix in Hfree by exact Hm. discriminate.
Qed.

(** X2: The defaults of the three fields: a text that does not name a field, in
    any letter case, gets 'New Project' as project name and the empty string
    as description and as environment setup. *)
Theorem analyzeRequirements_field_defaults (requirements : Str) :
  (includes (toLowerCase requirements) (str "project name") = false ->
   project_name (analyzeRequirements requirements) = str "New Project") /\
  (includes (toLowerCase requirements) (str "project description") = false ->
   project_description (analyzeRequirements requirements) = []) /\
  (includes (toLowerCase requirements) (str "environment setup") = false ->
   environment_setup (analyzeRequirements requirements) = []).
Proof.
  repeat split; intros H; cbn [analyzeRequirements project_name project_description
                               environment_setup];
    [unfold projectNameRe|unfold projectDescRe|unfold envSetupRe];
    cbn [cat fold_right]; by apply field_default.
Qed.

Lemma analyzeRequirements_field_defaults_witness :
  project_name (analyzeRequirements (str "A tool that sorts photos")) = str "New Project".
Proof.
  apply (analyzeRequirements_field_defaults (str "A tool that sorts photos")).
  vm_compute. reflexivity.
Defined.

Lemma startsWith_take (s w : Str) : startsWith s w = startsWith (take (length w) s) w.
Proof.
  revert s. induction w as [|c w IH]; intros s; [reflexivity|].
  destruct s as [|d s]; [reflexivity|]. simpl. by rewrite IH.
Qed.

(** An occurrence of [w] that starts in the non-empty text [p] in front of
    a header [h] of the same length ends before the last letter of [h]. *)
Lemma header_overlap (p h z w : Str) :
  p <> [] -> length h = length w ->
  startsWith (toLowerCase (p ++ h ++ z)) w = true ->
  startsWith (toLowerCase (p ++ take (length w - 1) h)) w = true.
Proof.
  intros Hp Hlen. rewrite (startsWith_take (toLowerCase (p ++ h ++ z))).
  rewrite (startsWith_take (toLowerCase (p ++ take _ h))).
  unfold toLowerCase. rewrite !firstn_map.
  assert (Hpos : 1 <= length p) by (destruct p; [done|simpl; lia]).
  replace (take (length w) (p ++ h ++ z)) with (take (length w) (p ++ take (length w - 1) h));
    [done|].
  rewrite (take_app p (take _ h)), (take_app p (h ++ z)). f_equal.
  rewrite (take_app_le h z) by lia.
  rewrite take_take. f_equal. lia.
Qed.

Lemma header_is_first_gen (w : Str) (r : regex) (before h s : Str) :
  length h = length w ->
  includes (toLowerCase (before ++ take (length w - 1) h)) (toLowerCase w) = false ->
  forall p1 p2, before = p1 ++ p2 -> p2 <> [] ->
  match_here (Seq (lit_ci w) r) (p2 ++ h ++ s) = None.
Proof.
  intros Hlen Hfree p1 p2 -> Hp2.
  destruct (match_here _ _) as [res|] eqn:Hm; [|reflexivity].
  apply lit_ci_needs_word in Hm.
  apply header_overlap in Hm; [|exact Hp2|unfold toLowerCase; by rewrite length_map].
  unfold toLowerCase in Hm at 2. rewrite length_map in Hm.
  rewrite <- app_assoc, toLowerCase_app, includes_suffix in Hfree by exact Hm.
  discriminate.
Qed.

(** The name pattern at its header: it takes the rest of the line after the
    blanks that follow the header. *)
Lemma name_match (gap name tail : Str) :
  forallb is_space gap = true -> forallb dot name = true ->
  truthy (trim name) = true -> lineBreak tail ->
  match_here projectNameRe (str "Project Name:" ++ gap ++ name ++ tail)
    = Some (afterLine tail, [trimStart name]).
Proof.
  intros Hgap Hdot Htrim Htail.
  destruct (trimStart_split name) as (w & Hname & Hw).
  pose proof (trimStart_head name) as Hhead.
  pose proof (trim_truthy _ Htrim) as Hne.
  rewrite Hname in Hdot. apply forallb_suffix in Hdot.
  unfold match_here, projectNameRe. cbn [cat fold_right]. rewrite run_seq.
  change (str "Project Name:" ++ gap ++ name ++ tail)
    with (str "Project Name" ++ ":"%char :: gap ++ name ++ tail).
  rewrite (run_lit_ci (str "Project Name") (str "Project Name")) by reflexivity.
  rewrite run_seq. apply opt_colon.
  rewrite run_seq. cbn [run].
  rewrite Hname at 1. rewrite <- (app_assoc w), (app_assoc gap).
  apply star_greedy_commit.
  - rewrite forallb_app. by rewrite Hgap, Hw.
  - destruct (trimStart name); [done|exact Hhead].
  - rewrite star_lazy_skip.
    + apply star_lazy_stop. rewrite take_app_minus. by rewrite lineEnd_here.
    + exact Hdot.
    + intros a1 [|c a2] Hsplit Ha2; [done|].
      rewrite Hsplit in Hdot. apply forallb_suffix in Hdot. simpl in Hdot.
      apply andb_true_iff in Hdot as [Hc _].
      by apply lineEnd_fails.
Qed.

(** X3: The project name is read from the first [Project Name:] header: when no
    occurrence of 'project name' (in any letter case) begins in front of the
    header, the header is followed by white space and then by a name that is
    not blank and runs to the end of its line, the extracted project name is
    that name trimmed. *)
Theorem analyzeRequirements_project_name (before gap name tail : Str) :
  includes (toLowerCase (before ++ str "Project Nam")) (str "project name") = false ->
  forallb is_space gap = true ->
  forallb dot name = true ->
  truthy (trim name) = true ->
  lineBreak tail ->
  project_name (analyzeRequirements (before ++ str "Project Name:" ++ gap ++ name ++ tail))
    = trim name.
Proof.
  intros Hfree Hgap Hdot Htrim Htail.
  cbn [analyzeRequirements project_name]. unfold field.
  pose proof (name_match gap name tail Hgap Hdot Htrim Htail) as Hm.
  assert (Hpre : forall p1 p2, before = p1 ++ p2 -> p2 <> [] ->
            match_here projectNameRe (p2 ++ str "Project Name:" ++ gap ++ name ++ tail)
              = None).
  { intros p1 p2 H1 H2.
    exact (header_is_first_gen (str "Project Name") _ before (str "Project Name")
             (":"%char :: gap ++ name ++ tail) eq_refl Hfree p1 p2 H1 H2). }
  rewrite (exec_found projectNameRe before _ _ _ Hpre Hm).
  cbn [m_groups group nth Nat.sub]. apply trim_trimStart.
Qed.

Lemma analyzeRequirements_project_name_witness :
  project_name
    (analyzeRequirements
       (str "# Brief" ++ [LF] ++ str "Project Name:" ++ str "  " ++
        str "Photo Sorter " ++ (LF :: str "More text")))
  = str "Photo Sorter".
Proof.
  apply (analyzeRequirements_project_name (str "# Brief" ++ [LF]) (str "  ")
           (str "Photo Sorter ") (LF :: str "More text"));
    try (vm_compute; reflexivity).
  right. by eexists.
Defined.

(** *** Trimming again *)

Lemma forallb_trimStart (p : ascii -> bool) (s : Str) :
  forallb p s = true -> forallb p (trimStart s) = true.
Proof.
  destruct (trimStart_split s) as (w & Hs & _). rewrite Hs at 1. apply forallb_suffix.
Qed.

Lemma forallb_rev' (p : ascii -> bool) (s : Str) :
  forallb p s = true -> forallb p (rev s) = true.
Proof.
  rewrite !forallb_forall. intros H c Hc. apply H. by apply in_rev.
Qed.

Lemma forallb_trim (p : ascii -> bool) (s : Str) :
  forallb p s = true -> forallb p (trim s) = true.
Proof.
  intros H. unfold trim, trimEnd.
  by apply forallb_rev', forallb_trimStart, forallb_rev', forallb_trimStart.
Qed.

Lemma trimEnd_split (s : Str) : exists w, s = trimEnd s ++ w.
Proof.
  unfold trimEnd. destruct (trimStart_split (rev s)) as (w & Hs & _).
  exists (rev w). rewrite <- rev_app_distr, <- Hs. by rewrite rev_involutive.
Qed.

Lemma trimEnd_head (s : Str) : headFails is_space s -> headFails is_space (trimEnd s).
Proof.
  intros Hs. destruct (trimEnd_split s) as (w & Hw).
  destruct (trimEnd s) as [|c t]; [exact I|].
  rewrite Hw in Hs. exact Hs.
Qed.

Lemma trimStart_fixed (s : Str) : headFails is_space s -> trimStart s = s.
Proof. destruct s as [|c s]; [reflexivity|]. simpl. by intros ->. Qed.

Lemma trimEnd_idem (s : Str) : trimEnd (trimEnd s) = trimEnd s.
Proof. unfold trimEnd. by rewrite rev_involutive, trimStart_idem. Qed.

Lemma trim_idem (s : Str) : trim (trim s) = trim s.
Proof.
  unfold trim.
  rewrite (trimStart_fixed (trimEnd (trimStart s)))
    by apply trimEnd_head, trimStart_head.
  apply trimEnd_idem.
Qed.

Lemma lineEnd_inv (s : Str) (caps : list Str) (k : Cont) (res : MatchState) :
  run lineEnd s caps k = Some res -> exists s', k s' caps = Some res.
Proof.
  unfold lineEnd, chr. cbn [run].
  destruct s as [|c s]; [by exists []|].
  destruct (Ascii.eqb LF c); [|discriminate].
  destruct (k s caps) eqn:Hk; [|discriminate]. intros [= ->]. by exists s.
Qed.

(** Whatever the name pattern captures is a piece of one line. *)
Lemma name_capture (t rest : Str) (caps : list Str) :
  match_here projectNameRe t = Some (rest, caps) ->
  exists cap, caps = [cap] /\ forallb dot cap = true.
Proof.
  unfold match_here, projectNameRe. cbn [cat fold_right]. rewrite run_seq. intros H.
  apply run_lit_ci_inv in H as (w' & s1 & _ & _ & H).
  rewrite run_seq in H.
  assert (Hrest : exists s2,
             run (Seq (Star true is_space) (Seq (Group (Star false dot)) (Seq lineEnd Eps)))
               s2 [] (fun s' caps' => Some (s', caps')) = Some (rest, caps)).
  { apply run_opt_inv in H as [H|H]; [|by exists s1].
    apply run_chr_inv in H as (c & s2 & _ & _ & H). by exists s2. }
  clear H. destruct Hrest as [s2 H].
  rewrite run_seq in H. cbn [run] in H.
  apply star_greedy_inv_k in H as (_ & s3 & _ & _ & H).
  apply star_lazy_inv_k in H as (cap & s4 & -> & Hcap & H).
  rewrite take_app_minus in H.
  apply lineEnd_inv in H as (s5 & [= _ <-]).
  by exists cap.
Qed.

Lemma field_projectName_shape (requirements : Str) :
  forallb dot (field projectNameRe (str "New Project") requirements) = true /\
  trim (field projectNameRe (str "New Project") requirements)
    = field projectNameRe (str "New Project") requirements.
Proof.
  unfold field.
  destruct (exec projectNameRe requirements) as [m|] eqn:Hexec.
  - apply exec_inv_groups in Hexec as (t & _ & Hm).
    apply name_capture in Hm as (cap & -> & Hcap).
    cbn [group nth Nat.sub]. split; [by apply forallb_trim|apply trim_idem].
  - split; reflexivity.
Qed.

(** X4: The extracted project name is always one trimmed line: it holds no line
    terminator and no white space at either end, for every requirements
    text. *)
Theorem analyzeRequirements_project_name_line (requirements : Str) :
  forallb dot (project_name (analyzeRequirements requirements)) = true /\
  trim (project_name (analyzeRequirements requirements))
    = project_name (analyzeRequirements requirements).
Proof. apply field_projectName_shape. Qed.

End FieldFacts.

(** ** The plan document *)

Module PlanFacts.
Import JS.
Import TaskManager.
Import StrFacts.
Import EngineFacts.
Import FallbackFacts.
Import EngineMore.
Import Notions.
Import Shapes.

Lemma groupByPriority_lookup (tasks : list Task) (groups : gmap Str (list Task)) :
  existsb inherited tasks = false ->
  exists groups',
    groupByPriority tasks groups = Some groups' /\
    forall p, groups' !! p =
              match tier p tasks with
              | [] => groups !! p
              | _ :: _ => Some (default [] (groups !! p) ++ tier p tasks)
              end.
Proof.
  revert groups. induction tasks as [|task rest IH]; intros groups Hok.
  - exists groups. split; [reflexivity|]. intros p. reflexivity.
  - cbn [existsb] in Hok. apply orb_false_iff in Hok as [Htask Hrest].
    cbn [groupByPriority]. fold (effectivePriority task).
    unfold inherited in Htask. rewrite Htask.
    destruct (IH (<[effectivePriority task :=
                      default [] (groups !! effectivePriority task) ++ [task]]> groups) Hrest)
      as (groups' & Hrun & Hlookup).
    exists groups'. split; [exact Hrun|].
    intros p. rewrite Hlookup. unfold tier. cbn [List.filter]. fold (tier p rest).
    destruct (decide (effectivePriority task = p)) as [<-|Hne].
    + rewrite str_eqb_refl, lookup_insert_eq. cbn [default].
      unfold id. destruct (tier (effectivePriority task) rest); [reflexivity|].
      by rewrite <- app_assoc.
    + assert (Hfalse : str_eqb (effectivePriority task) p = false).
      { unfold str_eqb. by apply bool_decide_eq_false. }
      rewrite Hfalse, lookup_insert_ne by exact Hne. reflexivity.
Qed.

Lemma groupByPriority_throws (tasks : list Task) (groups : gmap Str (list Task)) :
  existsb inherited tasks = true -> groupByPriority tasks groups = None.
Proof.
  revert groups. induction tasks as [|task rest IH]; intros groups Hbad; [discriminate|].
  cbn [existsb] in Hbad. cbn [groupByPriority]. fold (effectivePriority task).
  unfold inherited in Hbad at 1.
  destruct (existsb (str_eqb (effectivePriority task)) inheritedKeys); [reflexivity|].
  by apply IH.
Qed.

Lemma formatGroup_tier (tasks : list Task) (groups : gmap Str (list Task)) (p : Str) :
  (forall q, groups !! q = match tier q tasks with
                           | [] => None
                           | _ :: _ => Some (tier q tasks)
                           end) ->
  formatGroup groups p = formatTier tasks p.
Proof.
  intros Hlookup. unfold formatGroup, formatTier. rewrite Hlookup.
  by destruct (tier p tasks).
Qed.

Lemma formatTasks_tiers (tasks : list Task) :
  existsb inherited tasks = false ->
  _formatTasks tasks = Some (join [LF] (flat_map (formatTier tasks) [HIGH; MEDIUM; LOW])).
Proof.
  intros Hok. unfold _formatTasks.
  destruct (groupByPriority_lookup tasks ∅ Hok) as (groups & -> & Hlookup).
  assert (Hl : forall q, groups !! q = match tier q tasks with
                                       | [] => None
                                       | _ :: _ => Some (tier q tasks)
                                       end).
  { intros q. rewrite Hlookup, lookup_empty. by destruct (tier q tasks). }
  unfold priorityOrder. cbn [flat_map].
  by rewrite !(formatGroup_tier tasks groups _ Hl).
Qed.

(** X5: The grouping of [_formatTasks] written without the map.  When some
    task is filed under a property name inherited from [Object.prototype]
    (such as 'constructor'), the call throws.  Otherwise the task block is,
    for HIGH, MEDIUM and LOW in this order, the heading of the tier and the
    lines of its tasks in their original order, a tier without task being
    left out; a task without priority counts as MEDIUM, and a task whose
    priority is none of the three (and no inherited name) appears nowhere. *)
Theorem formatTasks_by_tier (tasks : list Task) :
  _formatTasks tasks =
    if existsb inherited tasks then None
    else Some (join [LF] (flat_map (formatTier tasks) [HIGH; MEDIUM; LOW])).
Proof.
  destruct (existsb inherited tasks) eqn:Hbad.
  - unfold _formatTasks. by rewrite groupByPriority_throws.
  - by apply formatTasks_tiers.
Qed.

Lemma formatTasks_by_tier_witness :
  _formatTasks
    [ mkTask (str "Ship") (str "LOW") [] [];
      mkTask (str "Plan") [] [] [];
      mkTask (str "Someday") (str "LATER") [] [];
      mkTask (str "Build") (str "MEDIUM") (str "the core") [] ]
  = Some (lines [ "### MEDIUM Priority Tasks"; "- [ ] Plan"; "- [ ] Build"; "  - the core";
                  ""; "### LOW Priority Tasks"; "- [ ] Ship"; "" ]) /\
  _formatTasks
    [ mkTask (str "Ship") (str "LOW") [] [];
      mkTask (str "Build") (str "constructor") [] [] ]
  = None.
Proof.
  split.
  - rewrite (formatTasks_by_tier
               [ mkTask (str "Ship") (str "LOW") [] [];
                 mkTask (str "Plan") [] [] [];
                 mkTask (str "Someday") (str "LATER") [] [];
                 mkTask (str "Build") (str "MEDIUM") (str "the core") [] ]).
    vm_compute. reflexivity.
  - rewrite (formatTasks_by_tier
               [ mkTask (str "Ship") (str "LOW") [] [];
                 mkTask (str "Build") (str "constructor") [] [] ]).
    reflexivity.
Defined.

(** X6: [createTaskFile] rejects in exactly two cases: some task is filed
    under a property name that every object inherits (such as 'constructor'
    or 'toString'), then the error is the TypeError of [_formatTasks] and no
    write is attempted; or no task is, and the write of the state file is
    rejected, then the error is that of the write.  In both cases the file
    system is left as it is. *)
Theorem createTaskFile_rejects_iff (tm : TaskManager) (projectName projectDescription : Str)
    (tasks : list Task) (environmentSetup : Str) (nextSteps : list Str) (notes : Str)
    (started lastUpdated : Str) (rejects : option Str) (fs : FS) (message : Str) :
  (_formatTasks tasks = None <-> existsb inherited tasks = true) /\
  (createTaskFile tm projectName projectDescription tasks environmentSetup nextSteps notes
     started lastUpdated rejects fs = Rejected message
   <-> (existsb inherited tasks = true /\ message = pushIsNotAFunction) \/
       (existsb inherited tasks = false /\ rejects = Some message)).
Proof.
  unfold createTaskFile, _formatTasks, writeFile.
  destruct (existsb inherited tasks) eqn:Hbad.
  - rewrite groupByPriority_throws by exact Hbad. split; [done|]. split.
    + intros [= <-]. by left.
    + intros [[_ ->]|[? _]]; done.
  - destruct (groupByPriority_lookup tasks ∅ Hbad) as (groups & -> & _).
    split; [done|]. split.
    + destruct rejects as [m|]; [|discriminate]. intros [= <-]. by right.
    + intros [[? _]|[_ ->]]; done.
Qed.

Lemma createTaskFile_rejects_witness :
  createTaskFile Examples.demo (str "Demo") []
    [mkTask (str "Build") (str "constructor") [] []] [] [] []
    Examples.nine Examples.nine None ∅ = Rejected pushIsNotAFunction /\
  createTaskFile Examples.demo (str "Demo") []
    [mkTask (str "Build") (str "HIGH") [] []] [] [] []
    Examples.nine Examples.nine
    (Some (str "ENOENT: no such file or directory, open '/work/demo/TASK.mdc'")) ∅
  = Rejected (str "ENOENT: no such file or directory, open '/work/demo/TASK.mdc'").
Proof.
  split.
  - apply (proj2 (createTaskFile_rejects_iff Examples.demo (str "Demo") []
                    [mkTask (str "Build") (str "constructor") [] []] [] [] []
                    Examples.nine Examples.nine None ∅ pushIsNotAFunction)).
    left. split; reflexivity.
  - apply (proj2 (createTaskFile_rejects_iff Examples.demo (str "Demo") []
                    [mkTask (str "Build") (str "HIGH") [] []] [] [] []
                    Examples.nine Examples.nine
                    (Some (str "ENOENT: no such file or directory, open '/work/demo/TASK.mdc'"))
                    ∅ (str "ENOENT: no such file or directory, open '/work/demo/TASK.mdc'"))).
    right. split; reflexivity.
Defined.

(** X7: A successful [createTaskFile] returns the path of the state file, the
    file exists afterwards whatever was there before, and no other file is
    touched. *)
Theorem createTaskFile_writes_state_file (tm : TaskManager)
    (projectName projectDescription : Str) (tasks : list Task) (environmentSetup : Str)
    (nextSteps : list Str) (notes : Str) (started lastUpdated : Str)
    (rejects : option Str) (fs fs' : FS) (path : Str) :
  createTaskFile tm projectName projectDescription tasks environmentSetup nextSteps notes
    started lastUpdated rejects fs = Resolved (path, fs') ->
  path = taskFilePath tm /\
  pathExists fs' (taskFilePath tm) = true /\
  (forall other, other <> taskFilePath tm -> readFile fs' other = readFile fs other).
Proof.
  unfold createTaskFile. destruct (_formatTasks tasks); [|discriminate].
  destruct rejects; [discriminate|]. cbn [writeFile].
  intros [= <- <-]. unfold pathExists, readFile, withFile.
  split; [reflexivity|]. split.
  - by rewrite lookup_insert_eq.
  - intros other Hother. by rewrite lookup_insert_ne.
Qed.

Lemma createTaskFile_writes_state_file_witness :
  pathExists (Examples.created Examples.scenarioTasks) (taskFilePath Examples.demo) = true.
Proof.
  eapply (createTaskFile_writes_state_file Examples.demo (str "Demo") []
            Examples.scenarioTasks [] TaskMaster.boilerplateSteps []
            Examples.nine Examples.nine None ∅).
  vm_compute. reflexivity.
Defined.

Lemma planTitle_match (name R : Str) :
  forallb dot name = true ->
  match_here planTitleRe (str "# " ++ name ++ str " - Project Plan" ++ LF :: R)
    = Some (LF :: R, [name]).
Proof.
  intros Hname. unfold match_here, planTitleRe. cbn [cat fold_right].
  rewrite run_seq, run_lit, run_seq. cbn [run].
  apply star_greedy_last; [exact Hname|reflexivity|reflexivity|..].
  - rewrite run_lit. cbn [run]. by rewrite take_app_minus.
  - intros b1 b2 Hsplit Hb1.
    apply lit_blocked; [reflexivity|reflexivity|].
    rewrite Hsplit, length_app. destruct b1; [done|simpl; lia].
Qed.

(** X8: The project name survives the round trip through the state file: after
    [createTaskFile] with a project name that holds no line terminator,
    [getCurrentStatus] succeeds and reports exactly that name, whatever the
    tasks, the description and the other texts are. *)
Theorem createTaskFile_status_project_name (tm : TaskManager)
    (projectName projectDescription : Str) (tasks : list Task) (environmentSetup : Str)
    (nextSteps : list Str) (notes : Str) (started lastUpdated : Str)
    (rejects : option Str) (fs fs' : FS) (path : Str) :
  forallb dot projectName = true ->
  createTaskFile tm projectName projectDescription tasks environmentSetup nextSteps notes
    started lastUpdated rejects fs = Resolved (path, fs') ->
  exists st, getCurrentStatus tm fs' = StatusOk st /\ status_project_name st = projectName.
Proof.
  intros Hname. unfold createTaskFile.
  destruct (_formatTasks tasks) as [formatted|]; [|discriminate].
  destruct rejects; [discriminate|]. cbn [writeFile].
  intros H. injection H as <- <-.
  unfold getCurrentStatus, pathExists, readFile, withFile. rewrite lookup_insert_eq.
  cbn [negb]. eexists. split; [reflexivity|].
  cbn [status_project_name]. unfold firstGroup.
  rewrite <- app_assoc.
  erewrite exec_here; [|by apply (planTitle_match projectName)].
  reflexivity.
Qed.

Lemma createTaskFile_status_project_name_witness :
  exists st,
    getCurrentStatus Examples.demo (Examples.created Examples.readmeTasks) = StatusOk st /\
    status_project_name st = str "Demo".
Proof.
  eapply (createTaskFile_status_project_name Examples.demo (str "Demo") []
            Examples.readmeTasks [] TaskMaster.boilerplateSteps []
            Examples.nine Examples.nine None ∅).
  - reflexivity.
  - vm_compute. reflexivity.
Defined.

End PlanFacts.

(** ** Reading the tasks of a plan *)

Module ParseFacts.
Import JS.
Import TaskManager.
Import StrFacts.
Import EngineFacts.
Import FallbackFacts.
Import TaskSectionFacts.
Import FieldFacts.
Import EngineMore.
Import Notions.
Import Shapes.

Lemma run_group (r : regex) (s : Str) (caps : list Str) (k : Cont) :
  run (Group r) s caps k =
  run r s caps (fun s' caps' => k s' (caps' ++ [take (length s - length s') s])).
Proof. reflexivity. Qed.

Lemma run_star_lazy (p : ascii -> bool) (s : Str) (caps : list Str) (k : Cont) :
  run (Star false p) s caps k = star_lazy p s caps k.
Proof. reflexivity. Qed.

Lemma run_chr_here (p : ascii -> bool) (c : ascii) (s : Str) (caps : list Str) (k : Cont) :
  p c = true -> run (Chr p) (c :: s) caps k = k s caps.
Proof. intros Hc. cbn [run]. by rewrite Hc. Qed.

Lemma take_one (c : ascii) (s : Str) : take (length (c :: s) - length s) (c :: s) = [c].
Proof. apply (take_app_minus [c] s). Qed.

Lemma followUp_head (s : Str) : followUp s -> headFails dot s.
Proof.
  intros [->|H]; [exact I|]. apply startsWith_inv in H as [t ->]. reflexivity.
Qed.

Lemma lookahead_inv (s : Str) (caps : list Str) (k : Cont) (res : MatchState) :
  run (Lookahead (Alt (lit (LF :: str "- [")) Eoi)) s caps k = Some res ->
  followUp s /\ k s caps = Some res.
Proof.
  cbn [run].
  destruct (run (lit (LF :: str "- [")) s caps _) as [[x caps']|] eqn:Hlit.
  - apply run_lit_inv in Hlit as (s' & -> & [= _ <-]).
    intros H. split; [right; apply startsWith_app|exact H].
  - destruct s as [|c s]; [|discriminate]. intros H. split; [by left|exact H].
Qed.

Lemma lookahead_here (s : Str) (caps : list Str) (k : Cont) :
  followUp s -> run (Lookahead (Alt (lit (LF :: str "- [")) Eoi)) s caps k = k s caps.
Proof.
  intros [->|H]; [reflexivity|].
  apply startsWith_inv in H as [t ->]. cbn [run]. by rewrite run_lit.
Qed.

Lemma lookahead_fails (c : ascii) (s : Str) (caps : list Str) (k : Cont) :
  dot c = true -> run (Lookahead (Alt (lit (LF :: str "- [")) Eoi)) (c :: s) caps k = None.
Proof.
  intros Hc. cbn [run].
  change (run (lit (LF :: str "- [")) (c :: s) caps (fun s' caps' => Some (s', caps')))
    with (if Ascii.eqb LF c
          then run (lit (str "- [")) s caps (fun s' caps' => Some (s', caps'))
          else None).
  by rewrite (dot_not_LF c Hc).
Qed.

(** What a match of the task pattern looks like. *)
Lemma task_match_inv (t rest : Str) (caps : list Str) :
  match_here taskPatternRe t = Some (rest, caps) ->
  exists m title,
    one_of (str " x") m = true /\ forallb dot title = true /\
    t = checkboxLine m title ++ rest /\ caps = [[m]; title] /\ followUp rest.
Proof.
  unfold match_here, taskPatternRe. cbn [cat fold_right]. rewrite run_seq. intros H.
  apply run_lit_inv in H as (s1 & -> & H).
  rewrite run_seq, run_group in H.
  apply run_chr_inv in H as (m & s2 & -> & Hm & H).
  rewrite take_one in H. cbn [app] in H.
  rewrite run_seq in H. apply run_lit_inv in H as (s3 & -> & H).
  rewrite run_seq, run_group, run_star_lazy in H.
  apply star_lazy_inv_k in H as (title & s4 & -> & Htitle & H).
  rewrite take_app_minus, run_seq in H.
  apply lookahead_inv in H as (Hfollow & [= <- <-]).
  exists m, title. unfold checkboxLine. by rewrite <- !app_assoc.
Qed.

Lemma task_match (m : ascii) (title rest : Str) :
  one_of (str " x") m = true -> forallb dot title = true -> followUp rest ->
  match_here taskPatternRe (checkboxLine m title ++ rest) = Some (rest, [[m]; title]).
Proof.
  intros Hm Htitle Hrest. unfold match_here, taskPatternRe, checkboxLine.
  cbn [cat fold_right]. rewrite <- !app_assoc.
  rewrite run_seq, run_lit, run_seq, run_group. cbn [app].
  rewrite (run_chr_here _ _ _ _ _ Hm), take_one. cbn [app].
  rewrite run_seq, run_lit, run_seq, run_group, run_star_lazy.
  rewrite star_lazy_skip.
  - apply star_lazy_stop. rewrite take_app_minus, run_seq. by rewrite lookahead_here.
  - exact Htitle.
  - intros a1 [|c a2] Hsplit Ha2; [done|].
    rewrite Hsplit in Htitle. apply forallb_suffix in Htitle. simpl in Htitle.
    apply andb_true_iff in Htitle as [Hc _].
    rewrite run_seq. by apply lookahead_fails.
Qed.

Lemma task_needs_hyphen (c : ascii) (s : Str) :
  Ascii.eqb c "-" = false -> match_here taskPatternRe (c :: s) = None.
Proof.
  intros Hc. destruct (match_here taskPatternRe (c :: s)) as [[rest caps]|] eqn:Hm;
    [|reflexivity].
  apply task_match_inv in Hm as (m & title & _ & _ & Heq & _).
  unfold checkboxLine in Heq. injection Heq as -> _. discriminate.
Qed.

Lemma checkboxLine_dot (m : ascii) (title : Str) :
  one_of (str " x") m = true -> forallb dot title = true ->
  forallb dot (checkboxLine m title) = true.
Proof.
  intros Hm Htitle. unfold checkboxLine. simpl. rewrite Htitle.
  unfold one_of in Hm. simpl in Hm.
  destruct (Ascii.eqb_spec m " ") as [->|]; [reflexivity|].
  destruct (Ascii.eqb_spec m "x") as [->|]; [reflexivity|discriminate].
Qed.

Lemma marker_completed (m : ascii) : str_eqb [m] (str "x") = Ascii.eqb m "x".
Proof.
  destruct (Ascii.eqb_spec m "x") as [->|Hne]; [reflexivity|].
  unfold str_eqb. apply bool_decide_eq_false. intros [= ->]. done.
Qed.

(** Text without hyphen holds no task. *)
Lemma parseTasks_pass (pre s : Str) :
  forallb (fun c => negb (Ascii.eqb c "-")) pre = true ->
  parseTasks (pre ++ s) = parseTasks s.
Proof.
  intros Hpre. unfold parseTasks, matchAll. f_equal.
  apply matchAll_from_pass. intros a1 [|c a2] Hsplit Ha2; [done|].
  rewrite Hsplit in Hpre. apply forallb_suffix in Hpre. simpl in Hpre.
  apply andb_true_iff in Hpre as [Hc _]. apply negb_true_iff in Hc.
  by apply task_needs_hyphen.
Qed.

Lemma parseTasks_step (indent : Str) (m : ascii) (title rest : Str) :
  forallb (fun c => negb (Ascii.eqb c "-")) indent = true ->
  one_of (str " x") m = true ->
  forallb dot title = true ->
  followUp rest ->
  parseTasks (indent ++ checkboxLine m title ++ rest)
    = mkStatusTask (trim title) (Ascii.eqb m "x") :: parseTasks rest.
Proof.
  intros Hindent Hm Htitle Hrest. rewrite parseTasks_pass by exact Hindent.
  unfold parseTasks, matchAll.
  rewrite (matchAll_from_step taskPatternRe (checkboxLine m title) rest [[m]; title]).
  - cbn [map]. unfold parseTask at 1. cbn [snd group nth Nat.sub].
    by rewrite marker_completed.
  - discriminate.
  - by apply task_match.
Qed.

Lemma parseTasks_skip_line (line : Str) (c : ascii) (rest : Str) :
  forallb dot line = true ->
  dot c = false ->
  startsWith (c :: rest) (LF :: str "- [") = false ->
  parseTasks (line ++ c :: rest) = parseTasks (c :: rest).
Proof.
  intros Hline Hc Hrest. unfold parseTasks, matchAll. f_equal.
  apply matchAll_from_pass. intros a1 a2 Hsplit Ha2.
  destruct (match_here taskPatternRe (a2 ++ c :: rest)) as [[rest' caps]|] eqn:Hm;
    [|reflexivity].
  exfalso. apply task_match_inv in Hm as (m & title & Hm & Htitle & Heq & _ & Hfollow).
  rewrite Hsplit in Hline. apply forallb_suffix in Hline.
  apply split_unique with (p := dot) in Heq as [_ <-];
    [|exact Hline|by apply checkboxLine_dot|exact Hc|by apply followUp_head].
  destruct Hfollow as [Hnil|Hstart]; [discriminate|congruence].
Qed.

(** X9: A checkbox line is read when the next line starts with a checkbox or
    the text ends with it: behind any text without hyphen (indentation,
    for instance) the line with marker [m] and title text [title] gives the
    task with the title trimmed, completed exactly when the marker is x, and
    reading goes on behind the line. *)
Theorem parseTasks_checkbox_line (indent : Str) (m : ascii) (title rest : Str) :
  forallb (fun c => negb (Ascii.eqb c "-")) indent = true ->
  one_of (str " x") m = true ->
  forallb dot title = true ->
  rest = [] \/ startsWith rest (LF :: str "- [") = true ->
  parseTasks (indent ++ checkboxLine m title ++ rest)
    = mkStatusTask (trim title) (Ascii.eqb m "x") :: parseTasks rest.
Proof. apply parseTasks_step. Qed.

Lemma parseTasks_checkbox_line_witness :
  parseTasks (str "  " ++ checkboxLine "x" (str "Write tests ") ++
              (LF :: str "- [ ] Ship"))
  = [mkStatusTask (str "Write tests") true; mkStatusTask (str "Ship") false].
Proof.
  rewrite (parseTasks_checkbox_line (str "  ") "x" (str "Write tests ")
             (LF :: str "- [ ] Ship")); try reflexivity.
  by right.
Defined.

(** X10: A line is not read when something other than a checkbox line follows:
    whatever a line holds, if the text goes on behind it with a line
    terminator and not with a line feed and a checkbox, the line contributes
    no task. *)
Theorem parseTasks_line_without_follow_up (line : Str) (c : ascii) (rest : Str) :
  forallb dot line = true ->
  dot c = false ->
  startsWith (c :: rest) (LF :: str "- [") = false ->
  parseTasks (line ++ c :: rest) = parseTasks (c :: rest).
Proof. apply parseTasks_skip_line. Qed.

Lemma parseTasks_line_without_follow_up_witness :
  parseTasks (str "- [ ] Build login" ++ LF :: LF :: str "## Progress Tracking")
  = parseTasks (LF :: LF :: str "## Progress Tracking").
Proof.
  apply (parseTasks_line_without_follow_up (str "- [ ] Build login") LF
           (LF :: str "## Progress Tracking")); reflexivity.
Defined.

Lemma checkboxBlock_cons (item : ascii * Str) (items : list (ascii * Str)) :
  items <> [] ->
  checkboxBlock (item :: items)
    = checkboxLine (fst item) (snd item) ++ LF :: checkboxBlock items.
Proof. destruct items; [done|reflexivity]. Qed.

Lemma checkboxBlock_head (items : list (ascii * Str)) (rest : Str) :
  items <> [] -> followUp (LF :: checkboxBlock items ++ rest).
Proof.
  intros Hitems. right. destruct items as [|item [|item' items]]; [done|reflexivity..].
Qed.

Lemma validCheckbox_inv (item : ascii * Str) :
  validCheckbox item = true ->
  one_of (str " x") (fst item) = true /\ forallb dot (snd item) = true.
Proof. unfold validCheckbox. apply andb_true_iff. Qed.

Lemma no_hyphen_LF : forallb (fun c => negb (Ascii.eqb c "-")) [LF] = true.
Proof. reflexivity. Qed.

(** X11: A run of checkbox lines at the end of the text is read completely: each
    line gives one task, in order, whatever text without hyphen stands in
    front of the run. *)
Theorem parseTasks_checkbox_block (indent : Str) (items : list (ascii * Str)) :
  forallb (fun c => negb (Ascii.eqb c "-")) indent = true ->
  forallb validCheckbox items = true ->
  parseTasks (indent ++ checkboxBlock items) = map parsedItem items.
Proof.
  revert indent. induction items as [|item items IH]; intros indent Hindent Hitems.
  - rewrite parseTasks_pass by exact Hindent. reflexivity.
  - cbn [forallb] in Hitems. apply andb_true_iff in Hitems as [Hitem Hitems].
    apply validCheckbox_inv in Hitem as [Hm Htitle].
    destruct items as [|item' items].
    + cbn [checkboxBlock map join].
      rewrite <- (app_nil_r (checkboxLine _ _)).
      rewrite parseTasks_step; [reflexivity|exact Hindent|exact Hm|exact Htitle|by left].
    + rewrite checkboxBlock_cons by discriminate.
      rewrite parseTasks_step; [|exact Hindent|exact Hm|exact Htitle|].
      * cbn [map]. f_equal. apply (IH [LF] no_hyphen_LF Hitems).
      * rewrite <- (app_nil_r (checkboxBlock _)). by apply checkboxBlock_head.
Qed.

Lemma parseTasks_checkbox_block_witness :
  parseTasks (str "## Tasks" ++ [LF] ++
              checkboxBlock [("x"%char, str "Design schema"); (" "%char, str "Write API")])
  = [mkStatusTask (str "Design schema") true; mkStatusTask (str "Write API") false].
Proof.
  apply (parseTasks_checkbox_block (str "## Tasks" ++ [LF])
           [("x"%char, str "Design schema"); (" "%char, str "Write API")]); reflexivity.
Defined.

(** X12: The last line of a run of checkbox lines is lost when the text goes on
    with anything but a checkbox line (a blank line or a heading line, for
    instance): all lines of the run but the last give their task, the last
    gives none. *)
Theorem parseTasks_last_checkbox_dropped (indent : Str) (items : list (ascii * Str))
    (last : ascii * Str) (c : ascii) (rest : Str) :
  forallb (fun c => negb (Ascii.eqb c "-")) indent = true ->
  forallb validCheckbox items = true ->
  validCheckbox last = true ->
  dot c = false ->
  startsWith (c :: rest) (LF :: str "- [") = false ->
  parseTasks (indent ++ checkboxBlock (items ++ [last]) ++ c :: rest)
    = map parsedItem items ++ parseTasks (c :: rest).
Proof.
  intros Hindent Hitems Hlast Hc Hrest. revert indent Hindent.
  apply validCheckbox_inv in Hlast as [Hm Htitle].
  induction items as [|item items IH]; intros indent Hindent.
  - cbn [app checkboxBlock map join]. rewrite parseTasks_pass by exact Hindent.
    apply parseTasks_skip_line; [by apply checkboxLine_dot|exact Hc|exact Hrest].
  - cbn [forallb] in Hitems. apply andb_true_iff in Hitems as [Hitem Hitems].
    apply validCheckbox_inv in Hitem as [Hm' Htitle'].
    change ((item :: items) ++ [last]) with (item :: (items ++ [last])).
    rewrite checkboxBlock_cons by (by destruct items).
    rewrite <- app_assoc. cbn [app].
    rewrite parseTasks_step; [|exact Hindent|exact Hm'|exact Htitle'|].
    + cbn [map app]. f_equal. apply (IH Hitems [LF] no_hyphen_LF).
    + apply checkboxBlock_head. by destruct items.
Qed.

Lemma parseTasks_last_checkbox_dropped_witness :
  parseTasks (str "### HIGH Priority Tasks" ++ [LF] ++
              checkboxBlock ([(" "%char, str "Design schema")] ++
                             [(" "%char, str "Write API")]) ++
              LF :: LF :: str "## Progress Tracking")
  = [mkStatusTask (str "Design schema") false].
Proof.
  apply (parseTasks_last_checkbox_dropped (str "### HIGH Priority Tasks" ++ [LF])
           [(" "%char, str "Design schema")] (" "%char, str "Write API") LF
           (LF :: str "## Progress Tracking")); reflexivity.
Defined.

(** Every task read from a plan has a title that is one piece of a line,
    without white space at either end. *)
Lemma parseTasks_titles (content : Str) :
  Forall (fun task => forallb dot (task_title task) = true /\
                      trim (task_title task) = task_title task)
    (parseTasks content).
Proof.
  unfold parseTasks, matchAll. apply Forall_map. apply matchAll_from_Forall.
  intros t rest caps Hm.
  apply task_match_inv in Hm as (m & title & _ & Htitle & _ & -> & _).
  unfold parseTask. cbn [snd group nth Nat.sub task_title].
  split; [by apply forallb_trim|apply trim_idem].
Qed.

(** X13: What [getCurrentStatus] reports is consistent: the total is the number
    of tasks listed, the number of completed tasks is the number of listed
    tasks that are completed and so never exceeds the total, and every title
    listed is one trimmed piece of a line. *)
Theorem getCurrentStatus_consistent (tm : TaskManager) (fs : FS) (st : ProjectStatus) :
  getCurrentStatus tm fs = StatusOk st ->
  total_tasks st = length (status_tasks st) /\
  completed_tasks st = length (List.filter completed (status_tasks st)) /\
  completed_tasks st <= total_tasks st /\
  Forall (fun task => forallb dot (task_title task) = true /\
                      trim (task_title task) = task_title task)
    (status_tasks st).
Proof.
  unfold getCurrentStatus.
  destruct (negb _); [discriminate|].
  destruct (readFile fs (taskFilePath tm)) as [content|]; [|discriminate].
  intros [= <-]. cbn [total_tasks completed_tasks status_tasks].
  split; [reflexivity|]. split; [reflexivity|]. split.
  - induction (parseTasks content) as [|task l IH]; [done|].
    cbn [List.filter]. destruct (completed task); simpl in *; lia.
  - apply parseTasks_titles.
Qed.

Lemma getCurrentStatus_consistent_witness :
  exists st,
    getCurrentStatus Examples.demo
      (withFile ∅ (taskFilePath Examples.demo) Examples.resumePlan) = StatusOk st /\
    completed_tasks st <= total_tasks st.
Proof.
  eexists. split; [reflexivity|].
  eapply (getCurrentStatus_consistent Examples.demo
            (withFile ∅ (taskFilePath Examples.demo) Examples.resumePlan)).
  reflexivity.
Defined.

End ParseFacts.

(** ** Updating a plan: which checkbox, which files *)

Module StoreMore.
Import JS.
Import TaskManager.
Import StrFacts.
Import EngineFacts.
Import FallbackFacts.
Import TaskSectionFacts.
Import UpdateFacts.
Import EngineMore.
Import ParseFacts.
Import Notions.
Import Shapes.

Lemma updateTaskStatus_edits_witness :
  exists newContent updatedContent,
    checkboxEdit Examples.polishTitle "x"%char Examples.resumePlan newContent /\
    timestampEdit Examples.nineOhFive newContent updatedContent /\
    updateTaskStatus Examples.demo Examples.polishTitle true Examples.nineOhFive None
      (withFile ∅ (taskFilePath Examples.demo) Examples.resumePlan) =
      if str_eqb updatedContent Examples.resumePlan
      then (false, withFile ∅ (taskFilePath Examples.demo) Examples.resumePlan)
      else (true, withFile (withFile ∅ (taskFilePath Examples.demo) Examples.resumePlan)
                    (taskFilePath Examples.demo) updatedContent).
Proof.
  apply (updateTaskStatus_edits Examples.demo Examples.polishTitle true Examples.nineOhFive
           None (withFile ∅ (taskFilePath Examples.demo) Examples.resumePlan)
           Examples.resumePlan); vm_compute; reflexivity.
Defined.

(** X14: A status update touches nothing but the state file: every other path
    reads as before, no file appears or disappears, and an update that
    answers false leaves the whole file system as it was, while one that
    answers true found the state file in place and its write succeeded. *)
Theorem updateTaskStatus_frame (tm : TaskManager) (taskTitle : Str) (completed : bool)
    (currentDate : Str) (rejects : option Str) (fs : FS) :
  (forall other, other <> taskFilePath tm ->
     readFile (snd (updateTaskStatus tm taskTitle completed currentDate rejects fs)) other
       = readFile fs other) /\
  (forall path,
     pathExists (snd (updateTaskStatus tm taskTitle completed currentDate rejects fs)) path
       = pathExists fs path) /\
  (fst (updateTaskStatus tm taskTitle completed currentDate rejects fs) = false ->
   snd (updateTaskStatus tm taskTitle completed currentDate rejects fs) = fs) /\
  (fst (updateTaskStatus tm taskTitle completed currentDate rejects fs) = true ->
   pathExists fs (taskFilePath tm) = true /\ rejects = None).
Proof.
  unfold updateTaskStatus, pathExists, readFile, writeFile, withFile.
  destruct (fs !! taskFilePath tm) as [content|] eqn:Hfile; cbn [negb];
    [|repeat split; done].
  destruct (taskPattern _) as [pattern|]; [|repeat split; done].
  destruct (str_eqb _ content); [repeat split; done|].
  destruct rejects as [message|]; [repeat split; done|].
  cbn [fst snd]. repeat split; try done.
  - intros other Hother. by rewrite lookup_insert_ne.
  - intros path. destruct (decide (path = taskFilePath tm)) as [->|Hne].
    + by rewrite lookup_insert_eq, Hfile.
    + by rewrite lookup_insert_ne.
Qed.

Lemma updateTaskStatus_frame_witness :
  readFile (snd (updateTaskStatus Examples.demo Examples.polishTitle true Examples.nineOhFive
                   None
                   (withFile (withFile ∅ (str "/work/demo/README.md") (str "# Demo"))
                      (taskFilePath Examples.demo) Examples.resumePlan)))
    (str "/work/demo/README.md")
  = Some (str "# Demo").
Proof.
  rewrite (proj1 (updateTaskStatus_frame Examples.demo Examples.polishTitle true
                    Examples.nineOhFive None
                    (withFile (withFile ∅ (str "/work/demo/README.md") (str "# Demo"))
                       (taskFilePath Examples.demo) Examples.resumePlan))
             (str "/work/demo/README.md")).
  - vm_compute. reflexivity.
  - vm_compute. discriminate.
Defined.

Lemma noCheckboxIn_split (title rest p1 p2 : Str) :
  noCheckboxIn title (p1 ++ p2) rest = true -> p2 <> [] ->
  checkboxAt title (p2 ++ rest) = false.
Proof.
  intros H Hp2. induction p1 as [|c p1 IH].
  - destruct p2 as [|c p2]; [done|]. cbn [app noCheckboxIn] in H.
    apply andb_true_iff in H as [H _]. by apply negb_true_iff in H.
  - cbn [app noCheckboxIn] in H. apply andb_true_iff in H as [_ H]. by apply IH.
Qed.

Lemma task_pattern_here (title post : Str) (old : ascii) :
  one_of (str " x") old = true ->
  match_here
    (cat [lit (str "- ["); Group (Chr (one_of (str " x"))); lit (str "] "); lit title])
    (checkboxLine old title ++ post)
  = Some (post, [[old]]).
Proof.
  intros Hold. unfold match_here, checkboxLine. cbn [cat fold_right].
  rewrite <- !app_assoc.
  rewrite run_seq, run_lit, run_seq, run_group. cbn [app].
  rewrite (run_chr_here _ _ _ _ _ Hold), take_one. cbn [app].
  rewrite run_seq, run_lit, run_seq, run_lit. reflexivity.
Qed.

Lemma one_of_marker (m : ascii) :
  one_of (str " x") m = true -> m = " "%char \/ m = "x"%char.
Proof.
  unfold one_of. simpl.
  destruct (Ascii.eqb_spec m " ") as [->|]; [by left|].
  destruct (Ascii.eqb_spec m "x") as [->|]; [by right|discriminate].
Qed.

Lemma task_pattern_needs_checkbox (title t : Str) :
  checkboxAt title t = false ->
  match_here
    (cat [lit (str "- ["); Group (Chr (one_of (str " x"))); lit (str "] "); lit title]) t
  = None.
Proof.
  intros Hno. destruct (match_here _ t) as [[rest caps]|] eqn:Hm; [|reflexivity].
  exfalso. apply task_pattern_inv in Hm as (m & Hm & ->).
  unfold checkboxAt in Hno. apply orb_false_iff in Hno as [Hspace Hx].
  pose proof (startsWith_app (checkboxLine m title) rest) as H.
  unfold checkboxLine in *. rewrite <- !app_assoc in H.
  destruct (one_of_marker m Hm) as [Heq | Heq]; subst m; congruence.
Qed.

(** X15: Which checkbox a status update rewrites: when the plan holds the
    checkbox text for the title and no such text starts before it, the marker
    of exactly this occurrence is set (later occurrences, and whatever follows
    the title on its line, stay as they are); the timestamp replacement is
    applied to the result, and the file is written unless the document comes
    out unchanged or the write is rejected. *)
Theorem updateTaskStatus_first_checkbox (tm : TaskManager) (taskTitle : Str)
    (completed : bool) (currentDate : Str) (rejects : option Str) (fs : FS)
    (pre post : Str) (old : ascii) :
  readFile fs (taskFilePath tm) = Some (pre ++ checkboxLine old taskTitle ++ post) ->
  one_of (str " x") old = true ->
  noCheckboxIn taskTitle pre (checkboxLine old taskTitle ++ post) = true ->
  dollarFree taskTitle = true ->
  updateTaskStatus tm taskTitle completed currentDate rejects fs =
    if str_eqb
         (replace lastUpdatedLineRe (str "Last Updated: " ++ currentDate)
            (pre ++ checkboxLine (if completed then "x" else " ")%char taskTitle ++ post))
         (pre ++ checkboxLine old taskTitle ++ post)
    then (false, fs)
    else match rejects with
         | None =>
             (true,
              withFile fs (taskFilePath tm)
                (replace lastUpdatedLineRe (str "Last Updated: " ++ currentDate)
                   (pre ++ checkboxLine (if completed then "x" else " ")%char taskTitle
                        ++ post)))
         | Some _ => (false, fs)
         end.
Proof.
  intros Hread Hold Hfirst Htitle.
  unfold updateTaskStatus, pathExists, readFile in *.
  rewrite Hread. cbn [negb]. rewrite taskPattern_escaped.
  assert (Hmarked :
    replace
      (cat [lit (str "- ["); Group (Chr (one_of (str " x"))); lit (str "] "); lit taskTitle])
      (str "- [" ++ [if completed then "x"%char else " "%char] ++ str "] " ++ taskTitle)
      (pre ++ checkboxLine old taskTitle ++ post)
    = pre ++ checkboxLine (if completed then "x" else " ")%char taskTitle ++ post).
  { unfold replace.
    rewrite (exec_found _ pre (checkboxLine old taskTitle ++ post) post [[old]]).
    - cbn [m_before m_after]. rewrite getSubstitution_plain; [reflexivity|].
      simpl. rewrite Htitle. by destruct completed.
    - intros p1 p2 -> Hp2. apply task_pattern_needs_checkbox.
      by apply (noCheckboxIn_split taskTitle _ p1 p2).
    - by apply task_pattern_here. }
  rewrite Hmarked. unfold writeFile. by destruct rejects.
Qed.

Lemma updateTaskStatus_first_checkbox_witness :
  updateTaskStatus Examples.demo (str "Build") true Examples.nineOhFive None
    (withFile ∅ (taskFilePath Examples.demo)
       (lines ["# Demo - Project Plan"; "- [ ] Build login"; "- [ ] Build"]))
  = (true,
     withFile
       (withFile ∅ (taskFilePath Examples.demo)
          (lines ["# Demo - Project Plan"; "- [ ] Build login"; "- [ ] Build"]))
       (taskFilePath Examples.demo)
       (lines ["# Demo - Project Plan"; "- [x] Build login"; "- [ ] Build"])).
Proof.
  rewrite (updateTaskStatus_first_checkbox Examples.demo (str "Build") true
             Examples.nineOhFive None
             (withFile ∅ (taskFilePath Examples.demo)
                (lines ["# Demo - Project Plan"; "- [ ] Build login"; "- [ ] Build"]))
             (str "# Demo - Project Plan" ++ [LF])
             (str " login" ++ [LF] ++ str "- [ ] Build") " "%char);
    vm_compute; reflexivity.
Defined.

End StoreMore.

(** ** The orchestrator *)

Module OrchestratorFacts.
Import JS.
Import ProjectAnalyzer.
Import TaskManager.
Import TaskMaster.
Import StrFacts.
Import ExtractorFacts.
Import EngineFacts.
Import FieldFacts.
Import PlanFacts.
Import Notions.
Import Shapes.

Lemma wellFormed_not_inherited (task : Task) : Stated.wellFormed task -> inherited task = false.
Proof.
  intros [_ Hp]. unfold inherited, effectivePriority.
  simpl in Hp. destruct Hp as [<-|[<-|[<-|[]]]]; reflexivity.
Qed.

Lemma generateTasks_wellFormed (requirements : Str) :
  Forall Stated.wellFormed (generateTasks requirements).
Proof.
  rewrite generateTasks_cases.
  pose proof (explicitTasks_wellFormed requirements) as Hexp.
  pose proof (inferredTasks_wellFormed requirements) as Hinf.
  destruct (explicitTasks requirements); [|exact Hexp].
  destruct (inferredTasks requirements); [|exact Hinf].
  apply getDefaultTasks_shape.
Qed.

Lemma join_cons (sep p q : Str) (rest : list Str) :
  join sep (p :: q :: rest) = p ++ sep ++ join sep (q :: rest).
Proof. reflexivity. Qed.

Lemma generateTasks_not_inherited (requirements : Str) :
  existsb inherited (generateTasks requirements) = false.
Proof.
  induction (generateTasks_wellFormed requirements) as [|task l Htask _ IH];
    [reflexivity|].
  cbn [existsb]. by rewrite (wellFormed_not_inherited task Htask), IH.
Qed.

Section Orchestrated.

Variable path_join : Str -> Str -> Str.

Lemma initializeProject_result (projectRoot requirements started lastUpdated : Str)
    (rejects : option Str) (fs : FS) :
  exists content,
    initializeProject path_join projectRoot requirements started lastUpdated rejects fs =
      match rejects with
      | None =>
          (InitSuccess
             (str "Project initialized with Task-Master. TASK.mdc created at " ++
              path_join projectRoot (str "TASK.mdc"))
             (analyzeRequirements requirements)
             (path_join projectRoot (str "TASK.mdc")),
           withFile fs (path_join projectRoot (str "TASK.mdc")) content)
      | Some message =>
          (InitFailure (str "Failed to initialize project: " ++ message), fs)
      end.
Proof.
  unfold initializeProject, createTaskFile. cbn [tasks analyzeRequirements].
  unfold _formatTasks.
  destruct (groupByPriority_lookup (generateTasks requirements) ∅
              (generateTasks_not_inherited requirements)) as (groups & Hrun & _).
  rewrite Hrun. destruct rejects as [message|]; [by exists []|].
  eexists. reflexivity.
Qed.

(** X16: [initializeProject] fails only when the write of the state file is
    rejected: the tasks the analyzer produces never trigger the TypeError of
    the task formatter, so for every project root and requirements text the
    call answers with success, the analysis of the requirements as project
    info, the state file path and the state file written, when the write
    succeeds; and with the failure message that carries the error of the
    write, the file system left as it is, when the write is rejected. *)
Theorem initializeProject_outcome (projectRoot requirements started lastUpdated : Str)
    (rejects : option Str) (fs : FS) :
  _formatTasks (tasks (analyzeRequirements requirements)) <> None /\
  exists content,
    initializeProject path_join projectRoot requirements started lastUpdated rejects fs =
      match rejects with
      | None =>
          (InitSuccess
             (str "Project initialized with Task-Master. TASK.mdc created at " ++
              path_join projectRoot (str "TASK.mdc"))
             (analyzeRequirements requirements)
             (path_join projectRoot (str "TASK.mdc")),
           withFile fs (path_join projectRoot (str "TASK.mdc")) content)
      | Some message =>
          (InitFailure (str "Failed to initialize project: " ++ message), fs)
      end.
Proof.
  split; [|apply initializeProject_result].
  cbn [tasks analyzeRequirements]. unfold _formatTasks.
  destruct (groupByPriority_lookup (generateTasks requirements) ∅
              (generateTasks_not_inherited requirements)) as (groups & Hrun & _).
  rewrite Hrun. discriminate.
Qed.

Lemma status_after_initialize (projectRoot requirements started lastUpdated : Str)
    (fs : FS) :
  exists st,
    getProjectStatus path_join projectRoot
      (snd (initializeProject path_join projectRoot requirements started lastUpdated
              None fs))
      = StatusSuccess st /\
    status_project_name st = project_name (analyzeRequirements requirements).
Proof.
  unfold initializeProject, createTaskFile. cbn [tasks analyzeRequirements project_name].
  unfold _formatTasks.
  destruct (groupByPriority_lookup (generateTasks requirements) ∅
              (generateTasks_not_inherited requirements)) as (groups & -> & _).
  cbn [writeFile snd new taskFilePath].
  unfold getProjectStatus, getCurrentStatus, pathExists, readFile, withFile.
  cbn [new taskFilePath]. rewrite lookup_insert_eq. cbn [negb].
  eexists. split; [reflexivity|].
  cbn [status_project_name]. unfold firstGroup.
  rewrite join_cons, <- !app_assoc.
  erewrite exec_here;
    [|apply planTitle_match, (proj1 (field_projectName_shape requirements))].
  reflexivity.
Qed.

(** X17: When [initializeProject] answers with success, the project name
    that [getProjectStatus] reads back from the file system it left is the
    project name of the analysis, for every requirements text. *)
Theorem initializeProject_then_status (projectRoot requirements started lastUpdated : Str)
    (rejects : option Str) (fs : FS) (message : Str) (info : ProjectInfo) (path : Str) :
  fst (initializeProject path_join projectRoot requirements started lastUpdated rejects fs)
    = InitSuccess message info path ->
  exists st,
    getProjectStatus path_join projectRoot
      (snd (initializeProject path_join projectRoot requirements started lastUpdated
              rejects fs))
      = StatusSuccess st /\
    status_project_name st = project_name (analyzeRequirements requirements).
Proof.
  destruct rejects as [failure|]; [|intros _; apply status_after_initialize].
  destruct (initializeProject_result projectRoot requirements started lastUpdated
              (Some failure) fs) as [content ->].
  discriminate.
Qed.

(** X18: Without a state file the orchestrator reports the same failure from
    status and resume, and completing a task fails and leaves the file system
    as it is. *)
Theorem orchestrator_without_state_file (projectRoot : Str) (fs : FS) :
  pathExists fs (path_join projectRoot (str "TASK.mdc")) = false ->
  getProjectStatus path_join projectRoot fs
    = StatusFailure (str "TASK.mdc file not found") /\
  resumeProject path_join projectRoot fs
    = ResumeFailure (str "TASK.mdc file not found") /\
  (forall taskTitle completed currentDate rejects,
     completeTask path_join projectRoot taskTitle completed currentDate rejects fs =
     (mkCompleteResult false
        (str "Failed to update task '" ++ taskTitle ++
         str "'. Task not found or TASK.mdc file does not exist."), fs)).
Proof.
  intros Hmissing.
  unfold getProjectStatus, resumeProject, completeTask, getCurrentStatus, updateTaskStatus.
  cbn [new taskFilePath]. rewrite Hmissing. cbn [negb]. done.
Qed.

End Orchestrated.

Lemma initializeProject_then_status_witness :
  exists st,
    getProjectStatus Examples.join_path (str "/work/demo")
      (snd (initializeProject Examples.join_path (str "/work/demo")
              (lines ["Project Name: Photo Sorter"; ""; "Sorts photos by date."])
              Examples.nine Examples.nine None ∅))
      = StatusSuccess st /\
    status_project_name st
      = project_name
          (analyzeRequirements
             (lines ["Project Name: Photo Sorter"; ""; "Sorts photos by date."])).
Proof.
  apply (initializeProject_then_status Examples.join_path (str "/work/demo")
           (lines ["Project Name: Photo Sorter"; ""; "Sorts photos by date."])
           Examples.nine Examples.nine None ∅
           (str "Project initialized with Task-Master. TASK.mdc created at /work/demo/TASK.mdc")
           (analyzeRequirements
              (lines ["Project Name: Photo Sorter"; ""; "Sorts photos by date."]))
           (str "/work/demo/TASK.mdc")).
  vm_compute. reflexivity.
Defined.

Lemma orchestrator_without_state_file_witness :
  resumeProject Examples.join_path (str "/work/demo") ∅
    = ResumeFailure (str "TASK.mdc file not found").
Proof.
  apply (orchestrator_without_state_file Examples.join_path (str "/work/demo") ∅).
  reflexivity.
Defined.

Lemma bucket_In (p : Str) (tasks : list StatusTask) (task : StatusTask) :
  In task (Stated.bucket p tasks) ->
  In task tasks /\ completed task = false /\ determineTaskPriority (task_title task) = p.
Proof.
  unfold Stated.bucket. intros H.
  apply filter_In in H as [H Hp]. apply filter_In in H as [Hin Hc].
  apply negb_true_iff in Hc. by apply str_eqb_eq in Hp.
Qed.

Lemma resume_priority_range (title : Str) :
  In (determineTaskPriority title) [HIGH; MEDIUM; LOW].
Proof.
  rewrite ClassifierFacts.resume_priority_table.
  destruct (existsb _ Stated.resumeHighWords); [simpl; auto|].
  destruct (existsb _ Stated.resumeLowWords); simpl; auto.
Qed.

Lemma In_take {A : Type} (n : nat) (l : list A) (x : A) : In x (take n l) -> In x l.
Proof.
  revert n. induction l as [|y l IH]; intros [|n]; simpl; try tauto.
  intros [->|H]; [by left|right; by apply (IH n)].
Qed.

Lemma take_nil_inv {A : Type} (l : list A) : take 3 l = [] -> l = [].
Proof. by destruct l. Qed.

Lemma selectNextTasks_tier (tasks : list StatusTask) :
  exists p, In p [HIGH; MEDIUM; LOW] /\
            selectNextTasks tasks = take 3 (Stated.bucket p tasks) /\
            (Stated.bucket p tasks = [] ->
             forall q, In q [HIGH; MEDIUM; LOW] -> Stated.bucket q tasks = []).
Proof.
  rewrite StoreFacts.selectNextTasks_buckets, StoreFacts.firstNonEmpty_three.
  destruct (Stated.bucket HIGH tasks) as [|h hs] eqn:Hh; cbn [length Nat.ltb Nat.leb].
  - destruct (Stated.bucket MEDIUM tasks) as [|m ms] eqn:Hm; cbn [length Nat.eqb].
    + exists LOW. split; [simpl; auto|]. split; [reflexivity|].
      intros Hl q [<-|[<-|[<-|[]]]]; assumption.
    + exists MEDIUM. split; [simpl; auto|]. rewrite Hm. split; [reflexivity|discriminate].
  - exists HIGH. split; [simpl; auto|]. rewrite Hh. split; [reflexivity|discriminate].
Qed.

(** X19: What [resumeProject] suggests: at most three tasks, each of them a
    parsed task that is not completed, all of them of one tier of the resume
    classifier, and nothing is suggested only when every parsed task is
    completed. *)
Theorem selectNextTasks_invariants (tasks : list StatusTask) :
  length (selectNextTasks tasks) <= 3 /\
  Forall (fun task => In task tasks /\ completed task = false) (selectNextTasks tasks) /\
  (exists p, Forall (fun task => determineTaskPriority (task_title task) = p)
               (selectNextTasks tasks)) /\
  (selectNextTasks tasks = [] <-> forallb completed tasks = true).
Proof.
  destruct (selectNextTasks_tier tasks) as (p & Hp & -> & Hempty).
  split; [|split; [|split]].
  - rewrite length_take. lia.
  - apply List.Forall_forall. intros task Hin.
    apply In_take, bucket_In in Hin as (Hin & Hc & _). by split.
  - exists p. apply List.Forall_forall. intros task Hin.
    by apply In_take, bucket_In in Hin as (_ & _ & Hq).
  - split.
    + intros Hnil. apply take_nil_inv in Hnil.
      apply forallb_forall. intros task Hin.
      destruct (completed task) eqn:Hc; [reflexivity|exfalso].
      pose proof (Hempty Hnil _ (resume_priority_range (task_title task))) as Hq.
      assert (Hb : In task (Stated.bucket (determineTaskPriority (task_title task)) tasks)).
      { unfold Stated.bucket. apply filter_In. split.
        - apply filter_In. split; [exact Hin|]. by rewrite Hc.
        - apply str_eqb_refl. }
      by rewrite Hq in Hb.
    + intros Hall. destruct (take 3 (Stated.bucket p tasks)) as [|task l] eqn:Ht;
        [reflexivity|exfalso].
      assert (Hin : In task (take 3 (Stated.bucket p tasks))) by (rewrite Ht; by left).
      apply In_take, bucket_In in Hin as (Hin & Hc & _).
      rewrite forallb_forall in Hall. specialize (Hall task Hin). congruence.
Qed.

End OrchestratorFacts.

(** ** Tasks inferred from headings *)

Module HeadingFacts.
Import JS.
Import ProjectAnalyzer.
Import StrFacts.
Import EngineFacts.
Import FallbackFacts.
Import TaskSectionFacts.
Import EngineMore.
Import Notions.
Import Shapes.

Lemma run_plus (p : ascii -> bool) (c : ascii) (s : Str) (caps : list Str) (k : Cont) :
  p c = true -> run (plus p) (c :: s) caps k = star_greedy p s caps k.
Proof. intros Hc. unfold plus. cbn [run]. by rewrite Hc. Qed.

Lemma run_star_greedy (p : ascii -> bool) (s : Str) (caps : list Str) (k : Cont) :
  run (Star true p) s caps k = star_greedy p s caps k.
Proof. reflexivity. Qed.

Lemma run_group_lazy (p : ascii -> bool) (s : Str) (caps : list Str) (k : Cont) :
  run (Group (Star false p)) s caps k =
  star_lazy p s caps (fun s' caps' => k s' (caps' ++ [take (length s - length s') s])).
Proof. reflexivity. Qed.

Lemma noHash_head (s t : Str) : noHash (take 1 s) = true -> s <> [] ->
  headFails (Ascii.eqb "#") (s ++ t).
Proof.
  destruct s as [|c s]; [done|]. intros H _. simpl in H.
  apply andb_true_iff in H as [H _]. by apply negb_true_iff in H.
Qed.

Lemma validHeading_inv (h : Heading) :
  validHeading h = true ->
  h_hashes h <> [] /\ forallb (Ascii.eqb "#") (h_hashes h) = true /\
  forallb is_space (h_blank h) = true /\ forallb dot (h_text h) = true /\
  truthy (trim (h_text h)) = true /\ noHash (take 1 (h_blank h ++ h_text h)) = true /\
  noHash (h_body h) = true.
Proof.
  unfold validHeading. rewrite !andb_true_iff.
  intros [[[[[[H1 H2] H3] H4] H5] H6] H7]. repeat split; try done.
  by apply truthy_nonempty.
Qed.

(** The heading pattern at the start of a heading line matches the line and
    its line feed and captures the text behind the hashes and blanks. *)
Lemma heading_match (h : Heading) (R : Str) :
  validHeading h = true ->
  match_here headingRe (headingText h ++ R)
    = Some (h_body h ++ R, [trimStart (h_text h)]).
Proof.
  intros Hh. apply validHeading_inv in Hh as (Hne & Hhash & Hblank & Hdot & Htrim & Hhead & _).
  destruct h as [hashes blank text body]. cbn [h_hashes h_blank h_text h_body] in *.
  unfold headingText. cbn [h_hashes h_blank h_text h_body].
  destruct (trimStart_split text) as (w & Htext & Hw).
  pose proof (trimStart_head text) as Hstart.
  pose proof (trim_truthy _ Htrim) as Hnonempty.
  assert (Htext_ne : text <> []).
  { intros ->. by apply Hnonempty. }
  assert (Hdot' : forallb dot (trimStart text) = true).
  { rewrite Htext in Hdot. by apply forallb_suffix in Hdot. }
  destruct hashes as [|c hashes]; [done|].
  cbn [forallb] in Hhash. apply andb_true_iff in Hhash as [Hc Hhash].
  unfold match_here, headingRe. cbn [cat fold_right].
  rewrite <- !app_assoc. cbn [app].
  rewrite run_seq, (run_plus _ _ _ _ _ Hc).
  rewrite (app_assoc blank).
  apply star_greedy_commit; [exact Hhash| |].
  { apply (noHash_head (blank ++ text)); [exact Hhead|].
    destruct blank; [exact Htext_ne|done]. }
  rewrite run_seq, run_star_greedy.
  rewrite <- app_assoc. rewrite Htext at 1. rewrite <- (app_assoc w), (app_assoc blank).
  apply star_greedy_commit.
  - rewrite forallb_app. by rewrite Hblank, Hw.
  - destruct (trimStart text); [done|exact Hstart].
  - rewrite run_seq, run_group_lazy.
    rewrite star_lazy_skip.
    + apply star_lazy_stop. rewrite take_app_minus, run_seq.
      rewrite lineEnd_here by (right; by eexists). reflexivity.
    + exact Hdot'.
    + intros a1 [|d a2] Hsplit Ha2; [done|].
      rewrite Hsplit in Hdot'. apply forallb_suffix in Hdot'. simpl in Hdot'.
      apply andb_true_iff in Hdot' as [Hd _].
      rewrite run_seq. by apply lineEnd_fails.
Qed.

Lemma heading_needs_hash_here (c : ascii) (s : Str) :
  Ascii.eqb "#" c = false -> match_here headingRe (c :: s) = None.
Proof.
  intros Hc. destruct (match_here headingRe (c :: s)) as [res|] eqn:Hm; [|reflexivity].
  apply heading_needs_hash in Hm.
  change (startsWith (c :: s) (str "#")) with (Ascii.eqb "#" c && true) in Hm.
  rewrite Hc in Hm. discriminate.
Qed.

Lemma matchAll_heading_pass (pre s : Str) :
  noHash pre = true ->
  matchAll_from headingRe 0 (pre ++ s) = matchAll_from headingRe 0 s.
Proof.
  intros Hpre. apply matchAll_from_pass. intros a1 [|c a2] Hsplit Ha2; [done|].
  unfold noHash in Hpre. rewrite Hsplit in Hpre. apply forallb_suffix in Hpre.
  simpl in Hpre. apply andb_true_iff in Hpre as [Hc _]. apply negb_true_iff in Hc.
  by apply heading_needs_hash_here.
Qed.

Lemma inferredTask_heading (h : Heading) (whole : Str) :
  inferredTask (whole, [trimStart (h_text h)]) = headingTask h.
Proof.
  unfold inferredTask, headingTask. cbn [snd group nth Nat.sub].
  rewrite trim_trimStart. by destruct (existsb _ reservedSections).
Qed.

Lemma inferredTasks_headings (pre : Str) (headings : list Heading) :
  noHash pre = true -> forallb validHeading headings = true ->
  inferredTasks (pre ++ flat_map headingText headings) = flat_map headingTask headings.
Proof.
  unfold inferredTasks, matchAll. revert pre.
  induction headings as [|h hs IH]; intros pre Hpre Hall.
  - cbn [flat_map]. rewrite matchAll_heading_pass by exact Hpre. reflexivity.
  - cbn [forallb] in Hall. apply andb_true_iff in Hall as [Hh Hhs].
    rewrite matchAll_heading_pass by exact Hpre.
    cbn [flat_map].
    pose proof (heading_match h (flat_map headingText hs) Hh) as Hm.
    pose proof (validHeading_inv h Hh) as (_ & _ & _ & _ & _ & _ & Hbody).
    assert (Hsplit : headingText h ++ flat_map headingText hs =
                     (h_hashes h ++ h_blank h ++ h_text h ++ [LF]) ++
                     h_body h ++ flat_map headingText hs).
    { unfold headingText. rewrite <- !app_assoc. reflexivity. }
    rewrite Hsplit in Hm |- *.
    assert (Hline : h_hashes h ++ h_blank h ++ h_text h ++ [LF] <> []).
    { intros Hnil. apply (f_equal (@length ascii)) in Hnil.
      rewrite !length_app in Hnil. simpl in Hnil. lia. }
    rewrite (matchAll_from_step headingRe _ _ _ Hline Hm).
    cbn [flat_map]. rewrite inferredTask_heading. f_equal.
    apply (IH (h_body h) Hbody Hhs).
Qed.



End HeadingFacts.

(** ** The description and the environment setup *)

Module SectionFacts.
Import JS.
Import ProjectAnalyzer.
Import StrFacts.
Import EngineFacts.
Import FallbackFacts.
Import TaskSectionFacts.
Import FieldFacts.
Import EngineMore.
Import Stated.
Import Notions.
Import Shapes.

Lemma insideb_inside (x y : Str) : insideb x y = true -> inside x y.
Proof.
  induction x as [|c x IH]; intros H; [apply inside_nil|].
  cbn [insideb] in H. apply andb_true_iff in H as [Hc Hx].
  apply negb_true_iff in Hc. apply inside_cons; [exact Hc|by apply IH].
Qed.

Lemma trimStart_fixed_head (s : Str) : trimStart s = s -> headFails is_space s.
Proof. intros <-. apply trimStart_head. Qed.

Lemma section_field_match (w gap sec rest0 : Str) :
  forallb is_space gap = true -> headFails is_space (sec ++ rest0) ->
  inside sec rest0 -> atBlockEnd rest0 = true ->
  exists after,
    match_here
      (cat [lit_ci w; opt (chr_ci ":"); Star true is_space; Group (Star false dot_all);
            blockEnd])
      (w ++ ":"%char :: gap ++ sec ++ rest0)
    = Some (after, [sec]).
Proof.
  intros Hgap Hhead Hin Hend.
  destruct (lazy_section _ _ [] Hin Hend) as [after Hlazy].
  exists after. unfold match_here. cbn [cat fold_right].
  rewrite run_seq, (run_lit_ci w w) by reflexivity.
  rewrite run_seq. apply opt_colon.
  rewrite run_seq. cbn [run].
  apply star_greedy_commit; [exact Hgap|exact Hhead|exact Hlazy].
Qed.

Lemma field_section (w default before gap sec rest0 : Str) :
  includes (toLowerCase (before ++ take (length w - 1) w)) (toLowerCase w) = false ->
  forallb is_space gap = true ->
  trimStart (sec ++ rest0) = sec ++ rest0 ->
  insideb sec rest0 = true ->
  atBlockEnd rest0 = true ->
  field
    (cat [lit_ci w; opt (chr_ci ":"); Star true is_space; Group (Star false dot_all);
          blockEnd])
    default (before ++ w ++ ":"%char :: gap ++ sec ++ rest0)
  = trim sec.
Proof.
  intros Hfree Hgap Hhead Hin Hend.
  destruct (section_field_match w gap sec rest0 Hgap (trimStart_fixed_head _ Hhead)
              (insideb_inside _ _ Hin) Hend) as [after Hm].
  assert (Hpre : forall p1 p2, before = p1 ++ p2 -> p2 <> [] ->
            match_here
              (cat [lit_ci w; opt (chr_ci ":"); Star true is_space;
                    Group (Star false dot_all); blockEnd])
              (p2 ++ w ++ ":"%char :: gap ++ sec ++ rest0) = None).
  { intros p1 p2 H1 H2.
    exact (header_is_first_gen w _ before w (":"%char :: gap ++ sec ++ rest0)
             eq_refl Hfree p1 p2 H1 H2). }
  unfold field. rewrite (exec_found _ before _ _ _ Hpre Hm). reflexivity.
Qed.



(** X22: The environment setup is the first block behind the first
    [Environment Setup:] header: when no occurrence of 'environment setup'
    (in any letter case) begins in front of the header, the header is
    followed by white space and then by a text that starts without white
    space and runs to the first end of a block, the extracted environment
    setup is that text trimmed. *)
Theorem analyzeRequirements_environment_setup (before gap sec rest0 : Str) :
  includes (toLowerCase (before ++ str "Environment Setu")) (str "environment setup")
    = false ->
  forallb is_space gap = true ->
  trimStart (sec ++ rest0) = sec ++ rest0 ->
  insideb sec rest0 = true ->
  atBlockEnd rest0 = true ->
  environment_setup
    (analyzeRequirements (before ++ str "Environment Setup:" ++ gap ++ sec ++ rest0))
  = trim sec.
Proof.
  intros Hfree Hgap Hhead Hin Hend. cbn [analyzeRequirements environment_setup].
  exact (field_section (str "Environment Setup") [] before gap sec rest0
           Hfree Hgap Hhead Hin Hend).
Qed.

Lemma analyzeRequirements_environment_setup_witness :
  environment_setup
    (analyzeRequirements
       (lines [ "Project Name: Sorter"; ""; "Environment Setup: npm install ";
                "npm test"; "# Notes" ]))
  = lines ["npm install "; "npm test"].
Proof.
  apply (analyzeRequirements_environment_setup
           (str "Project Name: Sorter" ++ [LF; LF]) (str " ")
           (lines ["npm install "; "npm test"])
           (LF :: str "# Notes"));
    vm_compute; reflexivity.
Defined.

End SectionFacts.

(** ** The init command *)

Module CliFacts.
Import JS.
Import ProjectAnalyzer.
Import TaskManager.
Import TaskMaster.
Import Cli.
Import StrFacts.
Import EngineFacts.
Import TaskSectionFacts.
Import FieldFacts.
Import OrchestratorFacts.
Import Notions.
Import Shapes.

Lemma project_name_at_front (name tail : Str) :
  forallb dot name = true -> truthy (trim name) = true ->
  project_name (analyzeRequirements (str "Project Name: " ++ name ++ LF :: tail))
    = trim name.
Proof.
  intros Hdot Htrim. cbn [analyzeRequirements project_name]. unfold field.
  pose proof (name_match (str " ") name (LF :: tail) eq_refl Hdot Htrim
                ltac:(right; by eexists)) as Hm.
  change (str "Project Name:" ++ str " " ++ name ++ LF :: tail)
    with (str "Project Name: " ++ name ++ LF :: tail) in Hm.
  rewrite (exec_here _ _ _ _ Hm).
  cbn [m_groups group nth Nat.sub]. apply trim_trimStart.
Qed.

Section Init.

Variable path_join : Str -> Str -> Str.
Variable path_resolve : Str -> Str.

(** X23: The init command ends in one of three ways: it exits with status 1
    and leaves the file system as it is (requirements file not found, or
    nothing to analyze); or the write succeeds, the state file is written in
    the current directory and the success line with its path is printed; or
    the write is rejected, the file system is left as it is and the line
    printed, again without an error status, is 'Project initialized: '
    followed by the failure message of the initialization. *)
Theorem init_outcome (cwd : Str) (name description requirementsFile : option Str)
    (started lastUpdated : Str) (rejects : option Str) (fs : FS) :
  (exists line,
     init path_join path_resolve cwd name description requirementsFile started lastUpdated
       rejects fs
       = (Exited line, fs)) \/
  (rejects = None /\
   exists content,
     init path_join path_resolve cwd name description requirementsFile started lastUpdated
       rejects fs
       = (Printed (str "Project initialized: " ++
                   str "Project initialized with Task-Master. TASK.mdc created at " ++
                   path_join cwd (str "TASK.mdc")),
          withFile fs (path_join cwd (str "TASK.mdc")) content)) \/
  (exists message,
     rejects = Some message /\
     init path_join path_resolve cwd name description requirementsFile started lastUpdated
       rejects fs
       = (Printed (str "Project initialized: " ++
                   str "Failed to initialize project: " ++ message),
          fs)).
Proof.
  unfold init.
  destruct (given requirementsFile) as [file|].
  - destruct (pathExists fs (path_resolve file)); [|left; by eexists].
    destruct (readFile fs (path_resolve file)) as [reqContent|]; [|left; by eexists].
    destruct (negb (truthy _)); [left; by eexists|].
    destruct (initializeProject_result path_join cwd (header name description ++ reqContent)
                started lastUpdated rejects fs) as (content & ->).
    right. destruct rejects as [message|].
    + right. by exists message.
    + left. split; [reflexivity|]. by exists content.
  - destruct (negb (truthy _)); [left; by eexists|].
    destruct (initializeProject_result path_join cwd (header name description)
                started lastUpdated rejects fs) as (content & ->).
    right. destruct rejects as [message|].
    + right. by exists message.
    + left. split; [reflexivity|]. by exists content.
Qed.

Lemma header_name (n : Str) (description : option Str) :
  truthy (trim n) = true ->
  exists rest, header (Some n) description = str "Project Name: " ++ n ++ LF :: rest.
Proof.
  intros Hn. assert (Hgiven : given (Some n) = Some n).
  { destruct n; [discriminate|reflexivity]. }
  unfold header. rewrite Hgiven.
  destruct (given description) as [d|]; eexists; cbn [app]; rewrite <- ?app_assoc;
    reflexivity.
Qed.

(** X24: The name option reaches the plan: when init is run with a name that is
    one line and not blank, does not exit with status 1, and the write of the
    state file succeeds, the project name that [getProjectStatus] then reads
    from the state file is the name trimmed, whatever the description and the
    requirements file hold. *)
Theorem init_name_reaches_status (cwd n : Str) (description requirementsFile : option Str)
    (started lastUpdated : Str) (fs : FS) :
  forallb dot n = true ->
  truthy (trim n) = true ->
  printed (fst (init path_join path_resolve cwd (Some n) description requirementsFile
                  started lastUpdated None fs)) = true ->
  exists st,
    getProjectStatus path_join cwd
      (snd (init path_join path_resolve cwd (Some n) description requirementsFile
              started lastUpdated None fs))
      = StatusSuccess st /\
    status_project_name st = trim n.
Proof.
  intros Hdot Hn. destruct (header_name n description Hn) as [rest Hheader].
  unfold init. rewrite Hheader.
  destruct (given requirementsFile) as [file|].
  - destruct (pathExists fs (path_resolve file)); [|discriminate].
    destruct (readFile fs (path_resolve file)) as [reqContent|]; [|discriminate].
    destruct (negb (truthy _)); [discriminate|]. intros _.
    rewrite <- !app_assoc. cbn [app].
    destruct (status_after_initialize path_join cwd
                (str "Project Name: " ++ n ++ LF :: rest ++ reqContent)
                started lastUpdated fs) as (st & Hst & Hname).
    exists st. rewrite <- (project_name_at_front n (rest ++ reqContent) Hdot Hn).
    split; [|exact Hname].
    rewrite <- Hst. by destruct (initializeProject _ _ _ _ _ _ _).
  - destruct (negb (truthy _)); [discriminate|]. intros _.
    destruct (status_after_initialize path_join cwd
                (str "Project Name: " ++ n ++ LF :: rest)
                started lastUpdated fs) as (st & Hst & Hname).
    exists st. rewrite <- (project_name_at_front n rest Hdot Hn).
    split; [|exact Hname].
    rewrite <- Hst. by destruct (initializeProject _ _ _ _ _ _ _).
Qed.

End Init.

Lemma init_name_reaches_status_witness :
  exists st,
    getProjectStatus Examples.join_path (str "/work/demo")
      (snd (init Examples.join_path (fun file => str "/work/demo/" ++ file) (str "/work/demo")
              (Some (str " Photo Sorter ")) (Some (str "Sorts photos")) None
              Examples.nine Examples.nine None ∅))
      = StatusSuccess st /\
    status_project_name st = str "Photo Sorter".
Proof.
  apply (init_name_reaches_status Examples.join_path (fun file => str "/work/demo/" ++ file)
           (str "/work/demo") (str " Photo Sorter ") (Some (str "Sorts photos")) None
           Examples.nine Examples.nine ∅); vm_compute; reflexivity.
Defined.

End CliFacts.

(** ** Status fields, and updates seen through the status *)

Module StatusFacts.
Import JS.
Import TaskManager.
Import StrFacts.
Import EngineFacts.
Import FallbackFacts.
Import TaskSectionFacts.
Import UpdateFacts.
Import EngineMore.
Import FieldFacts.
Import ParseFacts.
Import StoreMore.
Import HeadingFacts.
Import Notions.
Import Shapes.

Lemma word_overlap_exact (p h z w : Str) :
  p <> [] -> length h = length w ->
  startsWith (p ++ h ++ z) w = true ->
  startsWith (p ++ take (length w - 1) h) w = true.
Proof.
  intros Hp Hlen. rewrite (startsWith_take (p ++ h ++ z)).
  rewrite (startsWith_take (p ++ take _ h)).
  assert (Hpos : 1 <= length p) by (destruct p; [done|simpl; lia]).
  replace (take (length w) (p ++ h ++ z)) with (take (length w) (p ++ take (length w - 1) h));
    [done|].
  rewrite (take_app p (take _ h)), (take_app p (h ++ z)). f_equal.
  rewrite (take_app_le h z) by lia.
  rewrite take_take. f_equal. lia.
Qed.

Lemma startsWith_extend (s t w : Str) :
  startsWith s w = true -> startsWith (s ++ t) w = true.
Proof.
  intros H. apply startsWith_inv in H as [u ->]. rewrite <- app_assoc. apply startsWith_app.
Qed.

(** Whether [w] starts inside [p] when [w] follows does not depend on what
    comes behind. *)
Lemma word_overlap_any (p w z z' : Str) :
  p <> [] -> startsWith (p ++ w ++ z) w = true -> startsWith (p ++ w ++ z') w = true.
Proof.
  intros Hp H. apply word_overlap_exact in H; [|exact Hp|reflexivity].
  assert (Heq : p ++ w ++ z' =
                (p ++ take (length w - 1) w) ++ (drop (length w - 1) w ++ z')).
  { rewrite <- app_assoc, (app_assoc (take _ w)), take_drop. reflexivity. }
  rewrite Heq. by apply startsWith_extend.
Qed.

Lemma lit_needs_word (w : Str) (r : regex) (b : Str) (res : MatchState) :
  match_here (Seq (lit w) r) b = Some res -> startsWith b w = true.
Proof.
  unfold match_here. rewrite run_seq. intros H.
  apply run_lit_inv in H as (s' & -> & _). apply startsWith_app.
Qed.

Lemma exec_without_word (w : Str) (r : regex) (content : Str) :
  includes content w = false -> exec (Seq (lit w) r) content = None.
Proof.
  intros Hfree. apply exec_none. intros a b ->.
  destruct (match_here _ b) as [res|] eqn:Hm; [|reflexivity].
  apply lit_needs_word in Hm. rewrite includes_suffix in Hfree by exact Hm. discriminate.
Qed.

Lemma exec_none_inv (r : regex) (s : Str) :
  exec r s = None -> forall a b, s = a ++ b -> match_here r b = None.
Proof.
  induction s as [|c s IH]; simpl.
  - destruct (match_here r []) as [[rest caps]|] eqn:Hm; [discriminate|].
    intros _ [|] [|] Hsplit; done.
  - destruct (match_here r (c :: s)) as [[rest caps]|] eqn:Hm; [discriminate|].
    destruct (exec r s) as [m|]; [discriminate|].
    intros _ [|d a] b Hsplit; simpl in Hsplit.
    + by subst b.
    + injection Hsplit as _ Hsplit. by apply (IH eq_refl a b).
Qed.

Lemma exec_inv_first (r : regex) (s : Str) (m : Match) :
  exec r s = Some m ->
  exists t, s = m_before m ++ t /\ match_here r t = Some (m_after m, m_groups m) /\
            forall p1 p2, m_before m = p1 ++ p2 -> p2 <> [] ->
                          match_here r (p2 ++ t) = None.
Proof.
  revert m. induction s as [|c s IH]; intros m; simpl.
  - destruct (match_here r []) as [[rest caps]|] eqn:Hm; [|discriminate].
    intros [= <-]. exists []. repeat split; [exact Hm|].
    intros [|] [|] Hsplit Hp2; done.
  - destruct (match_here r (c :: s)) as [[rest caps]|] eqn:Hm.
    + intros [= <-]. exists (c :: s). repeat split; [exact Hm|].
      intros [|] [|] Hsplit Hp2; done.
    + destruct (exec r s) as [m'|]; [|discriminate].
      intros [= <-]. destruct (IH m' eq_refl) as (t & -> & Ht & Hfirst).
      exists t. cbn [m_before m_after m_groups]. repeat split; [exact Ht|].
      intros [|d p1] p2 Hsplit Hp2; simpl in Hsplit.
      * subst p2. exact Hm.
      * injection Hsplit as _ Hsplit. by apply (Hfirst p1 p2).
Qed.

Lemma headed_match (w v post : Str) :
  forallb dot v = true -> headFails dot post ->
  match_here (cat [lit w; Group (Star true dot)]) (w ++ v ++ post) = Some (post, [v]).
Proof.
  intros Hv Hpost. unfold match_here. cbn [cat fold_right].
  rewrite run_seq, run_lit, run_seq, run_group, run_star_greedy.
  apply star_greedy_commit; [exact Hv|exact Hpost|].
  cbn [run]. by rewrite take_app_minus.
Qed.

Lemma firstGroup_first (w pre v post : Str) :
  (forall p1 p2, pre = p1 ++ p2 -> p2 <> [] ->
                 startsWith (p2 ++ w ++ v ++ post) w = false) ->
  forallb dot v = true -> headFails dot post ->
  firstGroup (cat [lit w; Group (Star true dot)]) (pre ++ w ++ v ++ post) = v.
Proof.
  intros Hfirst Hv Hpost. unfold firstGroup.
  rewrite (exec_found _ pre (w ++ v ++ post) post [v]).
  - reflexivity.
  - intros p1 p2 Hsplit Hp2.
    destruct (match_here _ (p2 ++ w ++ v ++ post)) as [res|] eqn:Hm; [|reflexivity].
    apply lit_needs_word in Hm. by rewrite (Hfirst p1 p2 Hsplit Hp2) in Hm.
  - by apply headed_match.
Qed.

Lemma first_by_includes (w pre z : Str) :
  includes (pre ++ take (length w - 1) w) w = false ->
  forall p1 p2, pre = p1 ++ p2 -> p2 <> [] -> startsWith (p2 ++ w ++ z) w = false.
Proof.
  intros Hfree p1 p2 -> Hp2.
  destruct (startsWith (p2 ++ w ++ z) w) eqn:Hstart; [|reflexivity].
  apply word_overlap_exact in Hstart; [|exact Hp2|reflexivity].
  rewrite <- app_assoc, includes_suffix in Hfree by exact Hstart. discriminate.
Qed.

Lemma planTitle_needs_suffix (b : Str) (res : MatchState) :
  match_here planTitleRe b = Some res -> includes b (str " - Project Plan") = true.
Proof.
  unfold match_here, planTitleRe. cbn [cat fold_right]. rewrite run_seq. intros H.
  apply run_lit_inv in H as (s1 & -> & H).
  rewrite run_seq, run_group, run_star_greedy in H.
  apply star_greedy_inv_k in H as (a & s2 & -> & _ & H).
  rewrite run_seq in H. apply run_lit_inv in H as (s3 & -> & _).
  rewrite !app_assoc. rewrite <- (app_assoc _ (str " - Project Plan") s3).
  apply includes_suffix, startsWith_app.
Qed.

Lemma includes_app_r (a b w : Str) : includes b w = true -> includes (a ++ b) w = true.
Proof.
  intros H. apply includes_inv in H as (x & y & ->).
  rewrite app_assoc. apply includes_suffix, startsWith_app.
Qed.

Lemma task_needs_checkbox (b : Str) (res : MatchState) :
  match_here taskPatternRe b = Some res -> startsWith b (str "- [") = true.
Proof.
  destruct res as [rest caps]. intros H.
  apply task_match_inv in H as (m & title & _ & _ & -> & _).
  unfold checkboxLine. rewrite <- !app_assoc. apply startsWith_app.
Qed.

(** X25: What [getCurrentStatus] reports for a plan that lacks a field: the
    project name is 'Unknown' when the plan holds no hash sign followed by a
    blank, or nowhere the words ' - Project Plan'; the status and the
    timestamp are 'Unknown' when their labels occur nowhere; and no task is
    listed when the plan holds no checkbox opening. *)
Theorem getCurrentStatus_defaults (tm : TaskManager) (fs : FS) (content : Str) :
  readFile fs (taskFilePath tm) = Some content ->
  exists st,
    getCurrentStatus tm fs = StatusOk st /\
    (includes content (str "# ") = false \/
     includes content (str " - Project Plan") = false ->
     status_project_name st = str "Unknown") /\
    (includes content (str "Status: ") = false -> status st = str "Unknown") /\
    (includes content (str "Last Updated: ") = false -> last_updated st = str "Unknown") /\
    (includes content (str "- [") = false -> status_tasks st = [] /\ total_tasks st = 0).
Proof.
  intros Hread. unfold getCurrentStatus, pathExists. unfold readFile in *.
  rewrite Hread. cbn [negb]. eexists. split; [reflexivity|].
  cbn [status_project_name status last_updated status_tasks total_tasks].
  repeat split.
  - intros [Hfree|Hfree]; unfold firstGroup.
    + unfold planTitleRe. cbn [cat fold_right]. by rewrite exec_without_word.
    + rewrite exec_none; [reflexivity|]. intros a b ->.
      destruct (match_here planTitleRe b) as [res|] eqn:Hm; [|reflexivity].
      apply planTitle_needs_suffix in Hm.
      rewrite (includes_app_r a b _ Hm) in Hfree. discriminate.
  - intros Hfree. unfold firstGroup, statusRe. cbn [cat fold_right].
    by rewrite exec_without_word.
  - intros Hfree. unfold firstGroup, lastUpdatedRe. cbn [cat fold_right].
    by rewrite exec_without_word.
  - unfold parseTasks, matchAll. rewrite matchAll_from_none; [reflexivity|].
    intros a b ->. destruct (match_here taskPatternRe b) as [res|] eqn:Hm; [|reflexivity].
    apply task_needs_checkbox in Hm. rewrite includes_suffix in H by exact Hm. discriminate.
  - unfold parseTasks, matchAll. rewrite matchAll_from_none; [reflexivity|].
    intros a b ->. destruct (match_here taskPatternRe b) as [res|] eqn:Hm; [|reflexivity].
    apply task_needs_checkbox in Hm. rewrite includes_suffix in H by exact Hm. discriminate.
Qed.

Lemma getCurrentStatus_defaults_witness :
  exists st,
    getCurrentStatus Examples.demo
      (withFile ∅ (taskFilePath Examples.demo) (str "# Notes for later")) = StatusOk st /\
    (includes (str "# Notes for later") (str "# ") = false \/
     includes (str "# Notes for later") (str " - Project Plan") = false ->
     status_project_name st = str "Unknown") /\
    (includes (str "# Notes for later") (str "Status: ") = false ->
     status st = str "Unknown") /\
    (includes (str "# Notes for later") (str "Last Updated: ") = false ->
     last_updated st = str "Unknown") /\
    (includes (str "# Notes for later") (str "- [") = false ->
     status_tasks st = [] /\ total_tasks st = 0).
Proof.
  apply (getCurrentStatus_defaults Examples.demo
           (withFile ∅ (taskFilePath Examples.demo) (str "# Notes for later"))
           (str "# Notes for later")).
  vm_compute. reflexivity.
Defined.

(** X26: The status is read from the first [Status: ] label: when no occurrence
    of the label begins in front of it, the status reported is the rest of
    its line. *)
Theorem getCurrentStatus_reads_status (tm : TaskManager) (fs : FS) (pre v post : Str) :
  readFile fs (taskFilePath tm) = Some (pre ++ str "Status: " ++ v ++ post) ->
  includes (pre ++ str "Status:") (str "Status: ") = false ->
  forallb dot v = true ->
  headFails dot post ->
  exists st, getCurrentStatus tm fs = StatusOk st /\ status st = v.
Proof.
  intros Hread Hfree Hv Hpost. unfold getCurrentStatus, pathExists. unfold readFile in *.
  rewrite Hread. cbn [negb]. eexists. split; [reflexivity|].
  cbn [status]. unfold statusRe.
  apply firstGroup_first; [|exact Hv|exact Hpost].
  by apply (first_by_includes (str "Status: ") pre).
Qed.

Lemma getCurrentStatus_reads_status_witness :
  exists st,
    getCurrentStatus Examples.demo
      (withFile ∅ (taskFilePath Examples.demo) Examples.resumePlan) = StatusOk st /\
    status st = str "IN PROGRESS".
Proof.
  apply (getCurrentStatus_reads_status Examples.demo
           (withFile ∅ (taskFilePath Examples.demo) Examples.resumePlan)
           (lines [ "# Demo - Project Plan"; "";
                    "## Implementation Tasks"; "";
                    "### MEDIUM Priority Tasks";
                    "- [ ] Setup database layer";
                    "- [ ] Polish UI";
                    "- [x] Write changelog"; "";
                    "## Progress Tracking";
                    "- Last Updated: 2024-03-01 09:00:00";
                    "- " ])
           (str "IN PROGRESS") []); vm_compute; reflexivity.
Defined.

Lemma lastUpdatedLine_matches (b : Str) :
  startsWith b (str "Last Updated: ") = true -> match_here lastUpdatedLineRe b <> None.
Proof.
  intros H. apply startsWith_inv in H as [t ->].
  unfold match_here, lastUpdatedLineRe. cbn [cat fold_right].
  rewrite run_seq, run_lit, run_seq, run_star_greedy.
  apply star_greedy_total.
Qed.

Lemma timestamp_then_status (now content : Str) :
  dollarFree now = true -> forallb dot now = true ->
  includes (replace lastUpdatedLineRe (str "Last Updated: " ++ now) content)
    (str "Last Updated: ") = true ->
  firstGroup lastUpdatedRe
    (replace lastUpdatedLineRe (str "Last Updated: " ++ now) content) = now.
Proof.
  intros Hdollar Hdot. unfold replace.
  destruct (exec lastUpdatedLineRe content) as [m|] eqn:Hexec.
  - intros _. apply exec_inv_first in Hexec as (t & _ & Hm & Hfirst).
    apply last_updated_inv in Hm as (old & _ & Hpost & ->).
    rewrite getSubstitution_plain by (simpl; exact Hdollar).
    rewrite <- app_assoc. unfold lastUpdatedRe.
    apply firstGroup_first; [|exact Hdot|exact Hpost].
    intros p1 p2 Hsplit Hp2.
    destruct (startsWith (p2 ++ _ ++ now ++ m_after m) _) eqn:Hstart; [|reflexivity].
    exfalso.
    apply (word_overlap_any p2 _ _ (old ++ m_after m) Hp2) in Hstart.
    apply lastUpdatedLine_matches in Hstart. apply Hstart.
    by apply (Hfirst p1 p2).
  - intros Hin. exfalso.
    apply includes_inv in Hin as (a & b & Hcontent).
    apply (lastUpdatedLine_matches (str "Last Updated: " ++ b)); [apply startsWith_app|].
    by apply (exec_none_inv _ _ Hexec a).
Qed.

(** X27: An update is seen by the status: after [updateTaskStatus] answers true
    with a timestamp that holds no dollar sign and no line terminator, if the
    plan it wrote holds the [Last Updated: ] label, then [getCurrentStatus]
    reports exactly this timestamp. *)
Theorem updateTaskStatus_then_last_updated (tm : TaskManager) (taskTitle : Str)
    (completed : bool) (currentDate : Str) (rejects : option Str) (fs : FS)
    (written : Str) :
  dollarFree currentDate = true ->
  forallb dot currentDate = true ->
  fst (updateTaskStatus tm taskTitle completed currentDate rejects fs) = true ->
  readFile (snd (updateTaskStatus tm taskTitle completed currentDate rejects fs))
    (taskFilePath tm)
    = Some written ->
  includes written (str "Last Updated: ") = true ->
  exists st,
    getCurrentStatus tm (snd (updateTaskStatus tm taskTitle completed currentDate rejects fs))
      = StatusOk st /\
    last_updated st = currentDate.
Proof.
  intros Hdollar Hdot. unfold updateTaskStatus, getCurrentStatus, pathExists, readFile.
  destruct (fs !! taskFilePath tm) as [content|]; cbn [negb]; [|discriminate].
  rewrite taskPattern_escaped.
  destruct (str_eqb _ content); [discriminate|].
  destruct rejects as [message|]; [discriminate|].
  cbn [writeFile fst snd]. unfold withFile. rewrite lookup_insert_eq. cbn [negb].
  intros _ [= <-] Hin. eexists. split; [reflexivity|].
  cbn [last_updated]. by apply timestamp_then_status.
Qed.

Lemma updateTaskStatus_then_last_updated_witness :
  exists st,
    getCurrentStatus Examples.demo
      (snd (updateTaskStatus Examples.demo Examples.polishTitle true Examples.nineOhFive None
              (withFile ∅ (taskFilePath Examples.demo) Examples.resumePlan)))
      = StatusOk st /\
    last_updated st = Examples.nineOhFive.
Proof.
  apply (updateTaskStatus_then_last_updated Examples.demo Examples.polishTitle true
           Examples.nineOhFive None
           (withFile ∅ (taskFilePath Examples.demo) Examples.resumePlan)
           (default []
              (readFile
                 (snd (updateTaskStatus Examples.demo Examples.polishTitle true
                         Examples.nineOhFive None
                         (withFile ∅ (taskFilePath Examples.demo) Examples.resumePlan)))
                 (taskFilePath Examples.demo))));
    vm_compute; reflexivity.
Defined.

Lemma replace_without_match (r : regex) (replacement content : Str) :
  (forall a b, content = a ++ b -> match_here r b = None) ->
  replace r replacement content = content.
Proof. intros H. unfold replace. by rewrite exec_none. Qed.

(** X28: Nothing to do: for a plan that holds neither the checkbox text for the
    title nor the [Last Updated: ] label, [updateTaskStatus] answers false
    and writes nothing. *)
Theorem updateTaskStatus_nothing_to_do (tm : TaskManager) (taskTitle : Str)
    (completed : bool) (currentDate : Str) (rejects : option Str) (fs : FS)
    (content : Str) :
  readFile fs (taskFilePath tm) = Some content ->
  noCheckboxIn taskTitle content [] = true ->
  includes content (str "Last Updated: ") = false ->
  updateTaskStatus tm taskTitle completed currentDate rejects fs = (false, fs).
Proof.
  intros Hread Hno Hfree. unfold updateTaskStatus, pathExists. unfold readFile in Hread.
  unfold readFile. rewrite Hread. cbn [negb]. rewrite taskPattern_escaped.
  rewrite (replace_without_match _ _ content).
  - rewrite (replace_without_match _ _ content); [by rewrite str_eqb_refl|].
    intros a b ->. destruct (match_here lastUpdatedLineRe b) as [res|] eqn:Hm;
      [|reflexivity].
    unfold lastUpdatedLineRe in Hm. cbn [cat fold_right] in Hm.
    apply lit_needs_word in Hm. rewrite includes_suffix in Hfree by exact Hm. discriminate.
  - intros a b ->. apply task_pattern_needs_checkbox.
    destruct b as [|c b]; [reflexivity|].
    rewrite <- (app_nil_r (c :: b)).
    apply (noCheckboxIn_split taskTitle [] a (c :: b)); [exact Hno|discriminate].
Qed.

Lemma updateTaskStatus_nothing_to_do_witness :
  updateTaskStatus Examples.demo (str "Deploy") true Examples.nineOhFive None
    (withFile ∅ (taskFilePath Examples.demo)
       (lines ["# Demo - Project Plan"; "- [ ] Build login"]))
  = (false,
     withFile ∅ (taskFilePath Examples.demo)
       (lines ["# Demo - Project Plan"; "- [ ] Build login"])).
Proof.
  apply (updateTaskStatus_nothing_to_do Examples.demo (str "Deploy") true
           Examples.nineOhFive None
           (withFile ∅ (taskFilePath Examples.demo)
              (lines ["# Demo - Project Plan"; "- [ ] Build login"]))
           (lines ["# Demo - Project Plan"; "- [ ] Build login"]));
    vm_compute; reflexivity.
Defined.

End StatusFacts.
